(** * youtube-analyzer: the comment sentiment pipeline

    A shallow embedding of the server of the repository (the Express
    handler [POST /api/analyze] with its helpers [extractVideoId],
    [analyzeSentiment], [fallbackSentimentAnalysis], [rateLimiter],
    [maskUsername], [allMonths] and [sortMonths]) and of the batched
    variant of the same server ([analyzeAllComments], the batched
    [rateLimiter]).

    Conventions.
    - JavaScript strings are modelled as [string] (ASCII text): case
      conversion touches the letters A-Z / a-z only and [trim] strips
      the ASCII white space characters. On texts of ASCII characters
      these are the functions of JavaScript. Outside ASCII, JavaScript
      also turns U+017F into S and U+0131 into I in upper case and
      U+212A into k in lower case, which the model does not: a
      statement that needs the case conversion of an arbitrary text
      is made for ASCII texts ([isAscii]).
    - The month label of a date depends on the default locale of the
      server process: the locale is a parameter of the handler
      ([Locale], with [enUS] and [enGB] as samples).
    - JavaScript numbers that are counters are [nat]; the numbers that
      go through [/], [*] and [toFixed] are IEEE 754 binary64 values,
      modelled with [SpecFloat] at precision 53 and related to the real
      numbers they stand for.
    - [await]ed calls to the outside world (the language model, the
      comment source, the MongoDB collection) read their outcome from an
      environment and leave an event in a trace. *)

From Stdlib Require Import Reals Lra Psatz.
From Stdlib Require Import ZArith List Bool Arith Lia.
From Stdlib Require Import Ascii String SpecFloat.
Import ListNotations.

Local Close Scope R_scope.

Local Open Scope list_scope.

(* ================================================================= *)
(** ** Strings *)

Module JsString.

Definition isUpper (c : ascii) : bool :=
  let n := nat_of_ascii c in (65 <=? n) && (n <=? 90).

Definition isLower (c : ascii) : bool :=
  let n := nat_of_ascii c in (97 <=? n) && (n <=? 122).

Definition lowerChar (c : ascii) : ascii :=
  if isUpper c then ascii_of_nat (nat_of_ascii c + 32) else c.

Definition upperChar (c : ascii) : ascii :=
  if isLower c then ascii_of_nat (nat_of_ascii c - 32) else c.

Fixpoint mapString (f : ascii -> ascii) (s : string) : string :=
  match s with
  | EmptyString => EmptyString
  | String c s' => String (f c) (mapString f s')
  end.

(** [String.prototype.toLowerCase] / [toUpperCase], as they act on
    ASCII text: the letters A-Z and a-z are mapped, every other
    character is kept. (JavaScript maps a few characters outside ASCII
    to ASCII letters: U+212A to k in lower case, U+017F to S and U+0131
    to I in upper case.) *)
Definition toLowerCase : string -> string := mapString lowerChar.
Definition toUpperCase : string -> string := mapString upperChar.

(** [s.includes(w)]: [w] occurs in [s] as a contiguous substring. *)
Fixpoint includes (s w : string) : bool :=
  if String.prefix w s then true
  else match s with
       | EmptyString => false
       | String _ s' => includes s' w
       end.

(** White space stripped by [trim]: TAB, LF, VT, FF, CR and SPACE. *)
Definition isSpace (c : ascii) : bool :=
  let n := nat_of_ascii c in ((9 <=? n) && (n <=? 13)) || (n =? 32).

Fixpoint trimStart (s : string) : string :=
  match s with
  | EmptyString => EmptyString
  | String c s' => if isSpace c then trimStart s' else s
  end.

Fixpoint trimEnd (s : string) : string :=
  match s with
  | EmptyString => EmptyString
  | String c s' =>
      match trimEnd s' with
      | EmptyString => if isSpace c then EmptyString else String c EmptyString
      | t => String c t
      end
  end.

Definition trim (s : string) : string := trimEnd (trimStart s).

(** [w] is a substring of [s]. *)
Definition occurs (w s : string) : Prop :=
  exists a b : string, s = (a ++ w ++ b)%string.

End JsString.

(* ================================================================= *)
(** ** Sentiments and the keyword heuristic *)

Inductive Sentiment : Type := agree | disagree | neutral.

Section Keywords.

Variables positiveWords negativeWords : list string.

(** The body shared by the two copies of [fallbackSentimentAnalysis]:
    [words.filter((word) => lowerCaseComment.includes(word)).length]
    on each list, then the two comparisons. *)
Definition keywordSentiment (comment : string) : Sentiment :=
  let lowerCaseComment := JsString.toLowerCase comment in
  let positiveCount :=
    List.length
      (filter (fun word => JsString.includes lowerCaseComment word)
              positiveWords) in
  let negativeCount :=
    List.length
      (filter (fun word => JsString.includes lowerCaseComment word)
              negativeWords) in
  if negativeCount <? positiveCount then agree
  else if positiveCount <? negativeCount then disagree
  else neutral.

End Keywords.

(** The number of terms of a word list that occur in a text, as the
    specification words it: one unit per term that is a substring. *)
Inductive TermCount (text : string) : list string -> nat -> Prop :=
| TermCount_nil : TermCount text [] 0
| TermCount_hit w ws n :
    JsString.occurs w text -> TermCount text ws n ->
    TermCount text (w :: ws) (S n)
| TermCount_miss w ws n :
    ~ JsString.occurs w text -> TermCount text ws n ->
    TermCount text (w :: ws) n.


(* ================================================================= *)
(** ** Exceptions *)

Inductive JsError : Type :=
| TypeError
| RangeError
| SyntaxError
| ReferenceError
| HttpError (status : option Z)   (* a rejected request; [error.status] *)
| StoreError.                     (* a rejected MongoDB operation *)

Inductive Result (A : Type) : Type :=
| Ok (a : A)
| Throw (e : JsError).

Arguments Ok {A} a.
Arguments Throw {A} e.

(* ================================================================= *)
(** ** Numbers: binary64 division, multiplication and [toFixed(1)] *)

Module JsNumber.

Definition prec : Z := 53.
Definition emax : Z := 1024.

(** The Number value of a non-negative integer. *)
Definition ofNat (n : nat) : spec_float :=
  binary_normalize prec emax (Z.of_nat n) 0 false.

Definition div : spec_float -> spec_float -> spec_float := SFdiv prec emax.
Definition mul : spec_float -> spec_float -> spec_float := SFmul prec emax.

(** What [x.toFixed(1)] prints. *)
Inductive Fixed1 : Type :=
| FxNaN                                   (* "NaN" *)
| FxInfinity (neg : bool)                 (* "Infinity", "-Infinity" *)
| FxDecimal (neg : bool) (tenths : Z)     (* sign, digits of tenths/10, ".",
                                             the digit tenths mod 10 *)
| FxExponent (x : spec_float).            (* 1e21 <= |x|: Number::toString *)

(** The integer [n] for which [n / 10 - m * 2^e] is as close to zero as
    possible, the larger one when there are two. *)
Definition nearestTenths (m : positive) (e : Z) : Z :=
  if (0 <=? e)%Z then (Z.pos m * 2 ^ e * 10)%Z
  else ((20 * Z.pos m + 2 ^ (- e)) / 2 ^ (- e + 1))%Z.

Definition atLeast1e21 (m : positive) (e : Z) : bool :=
  if (0 <=? e)%Z then (10 ^ 21 <=? Z.pos m * 2 ^ e)%Z
  else (10 ^ 21 * 2 ^ (- e) <=? Z.pos m)%Z.

Definition toFixed1 (x : spec_float) : Fixed1 :=
  match x with
  | S754_nan => FxNaN
  | S754_infinity s => FxInfinity s
  | S754_zero _ => FxDecimal false 0
  | S754_finite s m e =>
      if atLeast1e21 m e then FxExponent x
      else FxDecimal s (nearestTenths m e)
  end.

(** [2^e] as a real number. *)
Definition bpow (e : Z) : R := powerRZ 2 e.

(** The real number a positive finite float with mantissa [m] and
    exponent [e] stands for. *)
Definition value (m : positive) (e : Z) : R := (IZR (Z.pos m) * bpow e)%R.

End JsNumber.

(* ================================================================= *)
(** ** Dates and month labels *)

Inductive Month : Type :=
| Jan | Feb | Mar | Apr | May | Jun | Jul | Aug | Sep | Oct | Nov | Dec.

(** A valid [Date]: the calendar year and month it falls in (server time
    zone) and the milliseconds elapsed since the month began. *)
Record Timestamp : Type := mkTimestamp {
  tsYear : Z;
  tsMonth : Month;
  tsMillis : Z
}.

(** The short month labels of a locale: what
    [date.toLocaleString(locale, { month: "short" })] prints for a date
    of each month. *)
Definition Locale : Type := Month -> string.

(** The labels of en-US. *)
Definition enUS (m : Month) : string :=
  match m with
  | Jan => "Jan" | Feb => "Feb" | Mar => "Mar" | Apr => "Apr"
  | May => "May" | Jun => "Jun" | Jul => "Jul" | Aug => "Aug"
  | Sep => "Sep" | Oct => "Oct" | Nov => "Nov" | Dec => "Dec"
  end.

(** The labels of en-GB: September is abbreviated to four letters. *)
Definition enGB (m : Month) : string :=
  match m with
  | Sep => "Sept"
  | _ => enUS m
  end.

(** [date.toLocaleString("default", { month: "short" })]. ["default"]
    names no locale of its own: the label is the one of the default
    locale of the server process, [locale]. *)
Definition toLocaleMonth (locale : Locale) (t : Timestamp) : string :=
  locale (tsMonth t).

(* ================================================================= *)
(** ** Objects keyed by month *)

(** The value of a counter property: a count, or [NaN] once [++] was
    applied to a property that did not exist. *)
Inductive JsCount : Type :=
| Count (n : nat)
| NaN.

(** An object whose own properties are listed in insertion order. *)
Definition Distribution : Type := list (string * JsCount).

Definition months : list string :=
  ["Jan"; "Feb"; "Mar"; "Apr"; "May"; "Jun";
   "Jul"; "Aug"; "Sep"; "Oct"; "Nov"; "Dec"]%string.

(** [allMonths()]: every month set to 0, in the order of [months]. *)
Definition allMonths : Distribution :=
  map (fun month => (month, Count 0)) months.

(** [distribution[month]] *)
Fixpoint getProp (distribution : Distribution) (month : string)
  : option JsCount :=
  match distribution with
  | [] => None
  | (k, v) :: rest =>
      if String.eqb k month then Some v else getProp rest month
  end.

(** [distribution[month]++] *)
Fixpoint increment (distribution : Distribution) (month : string)
  : Distribution :=
  match distribution with
  | [] => [(month, NaN)]
  | (k, v) :: rest =>
      if String.eqb k month
      then (k, match v with Count n => Count (S n) | NaN => NaN end) :: rest
      else (k, v) :: increment rest month
  end.

(** [sortMonths(distribution)]: a fresh object with the twelve keys;
    [distribution[month] || 0] replaces a missing key, 0 and NaN by 0. *)
Definition sortMonths (distribution : Distribution) : list (string * nat) :=
  map (fun month =>
         (month,
          match getProp distribution month with
          | Some (Count n) => n
          | Some NaN | None => 0
          end))
      months.

(* ================================================================= *)
(** ** Comments, stored documents, responses *)

(** A comment thread of the comment source, by the fields the server
    reads: [snippet.topLevelComment.id] and, under
    [snippet.topLevelComment.snippet], [textDisplay],
    [authorDisplayName] and [publishedAt]. *)
Record CommentThread : Type := mkCommentThread {
  id : string;
  textDisplay : string;
  authorDisplayName : string;
  publishedAt : Timestamp
}.

(** A document of the [Comment] collection ([commentSchema]). *)
Record Doc : Type := mkDoc {
  videoId : string;
  commentId : string;
  maskedUsername : string;
  comment : string;
  sentiment : Sentiment;
  timestamp : Timestamp
}.

Record SentimentAnalysis : Type := mkSentimentAnalysis {
  agreePercent : JsNumber.Fixed1;
  disagreePercent : JsNumber.Fixed1;
  neutralPercent : JsNumber.Fixed1
}.

Record AnalysisResult : Type := mkAnalysisResult {
  sentimentAnalysis : SentimentAnalysis;
  totalComments : nat;
  distribution : list (string * nat)
}.

Inductive Body : Type :=
| ErrorBody (error : string)
| ResultBody (result : AnalysisResult).

Record Response : Type := mkResponse {
  status : nat;
  body : Body
}.

(** The counters [analysisResults = { agree: 0, disagree: 0, neutral: 0 }]. *)
Record Totals : Type := mkTotals {
  agreeCount : nat;
  disagreeCount : nat;
  neutralCount : nat
}.

(** [analysisResults[sentiment]++] *)
Definition bump (t : Totals) (s : Sentiment) : Totals :=
  match s with
  | agree => mkTotals (S (agreeCount t)) (disagreeCount t) (neutralCount t)
  | disagree => mkTotals (agreeCount t) (S (disagreeCount t)) (neutralCount t)
  | neutral => mkTotals (agreeCount t) (disagreeCount t) (S (neutralCount t))
  end.

(** [Object.values(analysisResults).reduce((a, b) => a + b, 0)] *)
Definition totalOf (t : Totals) : nat :=
  fold_left Nat.add [agreeCount t; disagreeCount t; neutralCount t] 0.

(** [((count / total) * 100).toFixed(1)] *)
Definition percentage (count total : nat) : JsNumber.Fixed1 :=
  JsNumber.toFixed1
    (JsNumber.mul (JsNumber.div (JsNumber.ofNat count) (JsNumber.ofNat total))
                  (JsNumber.ofNat 100)).

(* ================================================================= *)
(** ** The outside world *)

(** One [await model.generateContent(prompt)] followed by
    [response.text()]: the text, or the error thrown. *)
Inductive RemoteOutcome : Type :=
| Reply (text : string)
| Failure (status : option Z).

(** What one classification call does, in order. *)
Inductive CallEvent : Type :=
| Generate (comment : string)     (* model.generateContent for this comment *)
| GenerateAll (comments : list string) (* ... for one prompt with all of them *)
| LogRetry (delay : Z)            (* console.log("Rate limit exceeded. ...") *)
| Sleep (delay : Z)               (* setTimeout(resolve, delay) *)
| LogFallback                     (* console.error("... Using fallback method:") *)
| LogError.                       (* console.error("Error in sentiment analysis:") *)

(** What the scheduler does, in order. The calls of one [Promise.all]
    run concurrently: a [Batch] keeps one event list per call, in the
    order of the batch. *)
Inductive SchedEvent : Type :=
| Call (events : list CallEvent)
| Batch (calls : list (list CallEvent))
| Wait (ms : Z).

Inductive ListOutcome : Type :=
| ListFails                                     (* the request rejects *)
| ListData (items : option (list CommentThread)). (* response.data.items *)

Inductive Event : Type :=
| EvList (video : string)         (* youtube.commentThreads.list *)
| EvSched (e : SchedEvent)
| EvFindOne (key : string)        (* Comment.findOne({ commentId }) *)
| EvCreate (d : Doc)              (* Comment.create({...}) *)
| EvLogError.                     (* console.error("Error:", error) *)

(** The behaviour of the outside world during one request. The language
    model is read per comment position and attempt, the collection per
    loop iteration. *)
Record Env : Type := mkEnv {
  model : nat -> nat -> RemoteOutcome;
  commentThreads : string -> ListOutcome;
  findOneFails : nat -> bool;
  createFails : nat -> bool
}.

(** The state a request runs in: the collection, in insertion order, and
    the events so far. *)
Record World : Type := mkWorld {
  db : list Doc;
  trace : list Event
}.

(* ================================================================= *)
(** ** A state and exception monad for the handler *)

Definition M (A : Type) : Type := World -> Result A * World.

Definition ret {A} (a : A) : M A := fun w => (Ok a, w).

Definition throw {A} (e : JsError) : M A := fun w => (Throw e, w).

Definition bind {A B} (m : M A) (k : A -> M B) : M B :=
  fun w =>
    match m w with
    | (Ok a, w') => k a w'
    | (Throw e, w') => (Throw e, w')
    end.

(** [try { m } catch (error) { h error }] *)
Definition tryCatch {A} (m : M A) (h : JsError -> M A) : M A :=
  fun w =>
    match m w with
    | (Ok a, w') => (Ok a, w')
    | (Throw e, w') => h e w'
    end.

Definition emit (e : Event) : M unit :=
  fun w => (Ok tt, mkWorld (db w) (trace w ++ [e])).

Definition emitAll (es : list Event) : M unit :=
  fun w => (Ok tt, mkWorld (db w) (trace w ++ es)).

Definition liftResult {A} (r : Result A) : M A :=
  fun w => (r, w).

Declare Scope js_scope.
Delimit Scope js_scope with js.
Notation "x <- m ;; k" := (bind m (fun x => k))
  (at level 100, m at next level, right associativity) : js_scope.
Notation "m ;;; k" := (bind m (fun _ => k))
  (at level 100, right associativity) : js_scope.

(* ================================================================= *)
(** ** Arrays *)

(** [l.map((x, j) => f (i + j) x)]: the elements of [l] mapped with
    their positions, counted from [i]. *)
Fixpoint mapFrom {A B} (f : nat -> A -> B) (i : nat) (l : list A)
  : list B :=
  match l with
  | [] => []
  | x :: rest => f i x :: mapFrom f (S i) rest
  end.

(** [l.slice(i, j)] for [i <= j]. *)
Definition slice {A} (l : list A) (i j : nat) : list A :=
  firstn (j - i) (skipn i l).

Local Open Scope js_scope.

(* ================================================================= *)
(** ** The server *)

Module Server.

(** [/(?:v=|\/)([a-zA-Z0-9_-]{11})/]: the character class. *)
Definition isIdChar (c : ascii) : bool :=
  let n := nat_of_ascii c in
  JsString.isUpper c || JsString.isLower c
  || ((48 <=? n) && (n <=? 57)) || (n =? 95) || (n =? 45).

(** Exactly [n] characters of the class at the head of [s]. *)
Fixpoint takeId (n : nat) (s : string) : option string :=
  match n with
  | 0 => Some EmptyString
  | S n' =>
      match s with
      | EmptyString => None
      | String c s' =>
          if isIdChar c
          then match takeId n' s' with
               | Some r => Some (String c r)
               | None => None
               end
          else None
      end
  end.

(** The match of the pattern that starts at the head of [s]. *)
Definition matchHere (s : string) : option string :=
  match s with
  | String c rest =>
      if Ascii.eqb c "v"
      then match rest with
           | String d rest' =>
               if Ascii.eqb d "=" then takeId 11 rest' else None
           | EmptyString => None
           end
      else if Ascii.eqb c "/" then takeId 11 rest
      else None
  | EmptyString => None
  end.

(** [extractVideoId(url)]: group 1 of the leftmost match, or [null]. *)
Fixpoint extractVideoId (url : string) : option string :=
  match matchHere url with
  | Some videoId => Some videoId
  | None =>
      match url with
      | EmptyString => None
      | String _ rest => extractVideoId rest
      end
  end.

Definition positiveWords : list string :=
  ["good"; "great"; "awesome"; "love"; "like"]%string.
Definition negativeWords : list string :=
  ["bad"; "terrible"; "hate"; "dislike"; "awful"]%string.

Definition fallbackSentimentAnalysis : string -> Sentiment :=
  keywordSentiment positiveWords negativeWords.

(** The label read off the reply of the language model:
    [text = response.text().trim().toUpperCase()], then the two
    [includes] tests in the order of the source. *)
Definition labelOf (reply : string) : Sentiment :=
  let text := JsString.toUpperCase (JsString.trim reply) in
  if JsString.includes text "AGREE" then agree
  else if JsString.includes text "DISAGREE" then disagree
  else neutral.

Definition isRateLimit (status : option Z) : bool :=
  match status with
  | Some s => (s =? 429)%Z
  | None => false
  end.

(** [analyzeSentiment(comment, retries = 3, delay = 2000)]. [gen k] is
    the outcome of the [k]-th request made for this comment. *)
Fixpoint analyzeSentiment (gen : nat -> RemoteOutcome) (comment : string)
         (retries : nat) (delay : Z) : Sentiment * list CallEvent :=
  match gen 0 with
  | Reply text => (labelOf text, [Generate comment])
  | Failure status =>
      match retries with
      | S retries' =>
          if isRateLimit status
          then
            let (s, events) :=
              analyzeSentiment (fun k => gen (S k)) comment retries'
                               (delay * 2) in
            (s, Generate comment :: LogRetry delay :: Sleep delay :: events)
          else (fallbackSentimentAnalysis comment,
                [Generate comment; LogFallback])
      | 0 => (fallbackSentimentAnalysis comment,
              [Generate comment; LogFallback])
      end
  end.

(** [rateLimiter(comments)], from comment position [i] on: one awaited
    call and one wait of 2000 ms per comment. [analyzeSentiment] does
    not throw on a string, so the [catch] of the loop body is not
    taken. *)
Fixpoint rateLimiterFrom (gen : nat -> nat -> RemoteOutcome) (i : nat)
         (comments : list CommentThread)
  : list Sentiment * list SchedEvent :=
  match comments with
  | [] => ([], [])
  | c :: rest =>
      let (s, events) := analyzeSentiment (gen i) (textDisplay c) 3 2000 in
      let (sentiments, tr) := rateLimiterFrom gen (S i) rest in
      (s :: sentiments, Call events :: Wait 2000 :: tr)
  end.

Definition rateLimiter (gen : nat -> nat -> RemoteOutcome)
           (comments : list CommentThread)
  : list Sentiment * list SchedEvent :=
  rateLimiterFrom gen 0 comments.

Fixpoint repeatStar (n : nat) : string :=
  match n with
  | 0 => EmptyString
  | S n' => String "*" (repeatStar n')
  end.

(** [maskUsername(username)]: [username.charAt(0)] followed by
    [username.length - 1] stars; ["*".repeat(-1)] throws on the empty
    name. *)
Definition maskUsername (username : string) : Result string :=
  match username with
  | EmptyString => Throw RangeError
  | String c rest => Ok (String c (repeatStar (String.length rest)))
  end.

Section Handler.

(** The default locale of the server process. *)
Variable locale : Locale.

Variable env : Env.

(** [await youtube.commentThreads.list({...})] then
    [response.data.items]. *)
Definition listComments (video : string)
  : M (option (list CommentThread)) :=
  emit (EvList video) ;;;
  match commentThreads env video with
  | ListFails => throw (HttpError None)
  | ListData items => ret items
  end.

(** [await Comment.findOne({ commentId })] in iteration [i]: the
    first document of the collection with that identifier. *)
Definition findOne (i : nat) (key : string) : M (option Doc) :=
  emit (EvFindOne key) ;;;
  if findOneFails env i then throw StoreError
  else fun w =>
         (Ok (find (fun d => String.eqb (commentId d) key) (db w)), w).

(** [await Comment.create(doc)] in iteration [i]. *)
Definition create (i : nat) (d : Doc) : M unit :=
  emit (EvCreate d) ;;;
  if createFails env i then throw StoreError
  else fun w => (Ok tt, mkWorld (db w ++ [d]) (trace w)).

(** The body of [for (let i = 0; i < comments.length; i++)], from
    iteration [i] on; [rest] is [comments] from position [i].
    [sentiments[i]] is read with [nth]: the scheduler returns one
    sentiment per comment. *)
Fixpoint forComments (video : string) (sentiments : list Sentiment)
         (i : nat) (rest : list CommentThread)
         (acc : Totals * Distribution) : M (Totals * Distribution) :=
  match rest with
  | [] => ret acc
  | c :: rest' =>
      existingComment <- findOne i (id c) ;;
      acc' <-
        match existingComment with
        | Some existing =>
            ret (bump (fst acc) (sentiment existing),
                 increment (snd acc) (toLocaleMonth locale (timestamp existing)))
        | None =>
            let s := nth i sentiments neutral in
            let acc' :=
              (bump (fst acc) s,
               increment (snd acc) (toLocaleMonth locale (publishedAt c))) in
            masked <- liftResult (maskUsername (authorDisplayName c)) ;;
            create i (mkDoc video (id c) masked (textDisplay c) s
                            (publishedAt c)) ;;;
            ret acc'
        end ;;
      forComments video sentiments (S i) rest' acc'
  end.

Definition resultOf (acc : Totals * Distribution) : AnalysisResult :=
  let analysisResults := fst acc in
  let total := totalOf analysisResults in
  mkAnalysisResult
    (mkSentimentAnalysis
       (percentage (agreeCount analysisResults) total)
       (percentage (disagreeCount analysisResults) total)
       (percentage (neutralCount analysisResults) total))
    total
    (sortMonths (snd acc)).

(** The body of the [try] block of [app.post("/api/analyze")].
    [url] is [req.body.url]; [None] when it is not a string. *)
Definition analyzeBody (url : option string) : M Response :=
  match url with
  | None => throw TypeError
  | Some url =>
      match extractVideoId url with
      | None => ret (mkResponse 400 (ErrorBody "Invalid YouTube URL"))
      | Some video =>
          items <- listComments video ;;
          match items with
          | None => ret (mkResponse 404 (ErrorBody "No comments found"))
          | Some comments =>
              let (sentiments, sched) :=
                rateLimiter (model env) comments in
              emitAll (map EvSched sched) ;;;
              acc <- forComments video sentiments 0 comments
                       (mkTotals 0 0 0, allMonths) ;;
              ret (mkResponse 200 (ResultBody (resultOf acc)))
          end
      end
  end.

(** [app.post("/api/analyze", async (req, res) => { try ... catch ... })] *)
Definition analyze (url : option string) : M Response :=
  tryCatch (analyzeBody url)
           (fun _ =>
              emit EvLogError ;;;
              ret (mkResponse 500
                     (ErrorBody "Failed to analyze comments"))).

End Handler.

(** One request against a collection holding [docs]. *)
Definition run (locale : Locale) (env : Env) (url : option string)
           (docs : list Doc) : Result Response * World :=
  analyze locale env url (mkWorld docs []).

End Server.

(* ================================================================= *)
(** ** The batched variant of the server *)

Module BatchServer.

Definition positiveWords : list string :=
  ["good"; "great"; "awesome"; "love"; "like"; "cool"; "nice"; "amazing";
   "fantastic"; "excellent"; "best"; "beautiful"; "wonderful";
   "perfect"]%string.
Definition negativeWords : list string :=
  ["bad"; "terrible"; "hate"; "dislike"; "awful"; "gross"; "cringe";
   "disgusting"; "horrible"; "worst"; "sucks"; "stupid"; "trash"]%string.

Definition fallbackSentimentAnalysis : string -> Sentiment :=
  keywordSentiment positiveWords negativeWords.

Section AllComments.

(** [JSON.parse]: the parsed value, or [None] for a [SyntaxError]. *)
Variable Json : Type.
Variable JSON_parse : string -> option Json.


End AllComments.

Section Scheduler.

(** [analyzeSentiment] is called by this file and not defined in it:
    the call made for the comment at a position returns a sentiment
    or throws, and leaves its events. *)
Variable analyzeSentiment : nat -> string -> Result Sentiment * list CallEvent.

(** The [async (comment) => { try ... catch ... }] of [batch.map]. *)
Definition classifyOne (i : nat) (c : CommentThread)
  : Sentiment * list CallEvent :=
  match analyzeSentiment i (textDisplay c) with
  | (Ok s, events) => (s, events)
  | (Throw _, events) => (neutral, events ++ [LogError])
  end.

(** The [for (let i = 0; i < comments.length; i += batchSize)] loop
    from index [i] on, with [sentiments] and the events so far.
    [fuel] bounds the number of iterations (the loop does not end
    when [batchSize] is 0). *)
Fixpoint rateLimiterLoop (fuel : nat) (comments : list CommentThread)
         (batchSize : nat) (delayBetweenBatches : Z) (i : nat)
         (sentiments : list Sentiment) (tr : list SchedEvent)
  : option (list Sentiment * list SchedEvent) :=
  match fuel with
  | 0 => None
  | S fuel' =>
      if i <? List.length comments then
        let batch := slice comments i (i + batchSize) in
        let batchResults := mapFrom classifyOne i batch in
        let sentiments' := sentiments ++ map fst batchResults in
        let tr' := tr ++ [Batch (map snd batchResults)] in
        let tr'' :=
          if i + batchSize <? List.length comments
          then tr' ++ [Wait delayBetweenBatches]
          else tr' in
        rateLimiterLoop fuel' comments batchSize delayBetweenBatches
                        (i + batchSize) sentiments' tr''
      else Some (sentiments, tr)
  end.

(** [rateLimiter(comments, batchSize = 10, delayBetweenBatches = 2000)] *)
Definition rateLimiter (comments : list CommentThread)
           (batchSize : nat) (delayBetweenBatches : Z)
  : option (list Sentiment * list SchedEvent) :=
  rateLimiterLoop (S (List.length comments)) comments batchSize
                  delayBetweenBatches 0 [] [].

Definition rateLimiterDefault (comments : list CommentThread)
  : option (list Sentiment * list SchedEvent) :=
  rateLimiter comments 10 2000.

End Scheduler.

End BatchServer.

(** [l] with [sep] between consecutive elements. *)
Fixpoint intersperse {A} (sep : A) (l : list A) : list A :=
  match l with
  | [] => []
  | [x] => [x]
  | x :: rest => x :: sep :: intersperse sep rest
  end.

Definition isWait (e : SchedEvent) : bool :=
  match e with Wait _ => true | _ => false end.

Definition isGenerate (e : CallEvent) : bool :=
  match e with Generate _ => true | _ => false end.

(** The requests to the language model recorded in a trace. *)
Definition remoteCalls (e : Event) : nat :=
  match e with
  | EvSched (Call events) => List.length (filter isGenerate events)
  | EvSched (Batch calls) => List.length (filter isGenerate (List.concat calls))
  | _ => 0
  end.

Definition countRemoteCalls (tr : list Event) : nat :=
  list_sum (map remoteCalls tr).

(** The consecutive chunks of [n] elements of [l], the last one possibly
    shorter. *)
Fixpoint chunksFuel {A} (fuel n : nat) (l : list A) : list (list A) :=
  match fuel with
  | 0 => []
  | S fuel' =>
      match l with
      | [] => []
      | _ :: _ => firstn n l :: chunksFuel fuel' n (skipn n l)
      end
  end.

Definition chunksOf {A} (n : nat) (l : list A) : list (list A) :=
  chunksFuel (List.length l) n l.

(** The sizes of the chunks of [n] elements of a list of [len]
    elements. *)
Fixpoint sizesFuel (fuel n len : nat) : list nat :=
  match fuel with
  | 0 => []
  | S fuel' =>
      match len with
      | 0 => []
      | S _ => Nat.min n len :: sizesFuel fuel' n (len - n)
      end
  end.

(** The delays a call slept, in order. *)
Fixpoint sleeps (events : list CallEvent) : list Z :=
  match events with
  | [] => []
  | Sleep d :: rest => d :: sleeps rest
  | _ :: rest => sleeps rest
  end.

(** The first [k] delays of a backoff that starts at [delay] and
    doubles. *)
Fixpoint backoff (k : nat) (delay : Z) : list Z :=
  match k with
  | 0 => []
  | S k' => delay :: backoff k' (delay * 2)
  end.


(** The document of the collection that answers a lookup of a comment. *)
Definition lookup (docs : list Doc) (c : CommentThread) : option Doc :=
  find (fun d => String.eqb (commentId d) (id c)) docs.

(** The document [Comment.create] stores for a new comment at position
    [i]. *)
Definition newDoc (video : string) (sentiments : list Sentiment) (i : nat)
           (c : CommentThread) (masked : string) : Doc :=
  mkDoc video (id c) masked (textDisplay c) (nth i sentiments neutral)
        (publishedAt c).

(** The counters after one more comment with sentiment [s] in the month
    of [t]. *)
Definition account (locale : Locale) (acc : Totals * Distribution)
           (s : Sentiment) (t : Timestamp) : Totals * Distribution :=
  (bump (fst acc) s, increment (snd acc) (toLocaleMonth locale t)).

(** The counters the loop computes over a collection that holds a
    document for every comment of [rest]. *)
Fixpoint accountStored (locale : Locale) (docs : list Doc)
         (rest : list CommentThread) (acc : Totals * Distribution)
  : Totals * Distribution :=
  match rest with
  | [] => acc
  | c :: rest' =>
      match lookup docs c with
      | Some d => accountStored locale docs rest'
                                (account locale acc (sentiment d)
                                         (timestamp d))
      | None => accountStored locale docs rest' acc
      end
  end.

(** A month object with the twelve keys in order and a count under
    each. *)
Definition monthly (counts : list nat) : Distribution :=
  combine months (map Count counts).

(** What the loop keeps true of its counters: the month object has the
    twelve keys with a count under each, and the counts add up to the
    number of comments counted so far. *)
Definition consistent (acc : Totals * Distribution) : Prop :=
  exists counts,
    snd acc = monthly counts /\
    List.length counts = 12 /\
    list_sum counts = totalOf (fst acc).

(** Every label of the locale is one of the twelve keys of the month
    object, as the labels of en-US are. *)
Definition canonical (locale : Locale) : Prop :=
  forall m, In (locale m) months.

(** The count [sortMonths] reads under a month. *)
Definition monthCount (d : Distribution) (month : string) : nat :=
  match getProp d month with
  | Some (Count n) => n
  | Some NaN | None => 0
  end.

(** The twelve month counts add up to no more than the comments
    counted. *)
Definition bounded (acc : Totals * Distribution) : Prop :=
  list_sum (map snd (sortMonths (snd acc))) <= totalOf (fst acc).




(* ================================================================= *)
(** ** Sample requests *)

Definition sampleUrl : string := "https://www.youtube.com/watch?v=dQw4w9WgXcQ".
Definition sampleVideo : string := "dQw4w9WgXcQ".

Definition commentA : CommentThread :=
  mkCommentThread "c-1" "I love this, it's great" "alice"
                  (mkTimestamp 2024 Mar 0).
Definition commentB : CommentThread :=
  mkCommentThread "c-2" "this is terrible and awful" "bob"
                  (mkTimestamp 2023 Dec 0).
Definition commentC : CommentThread :=
  mkCommentThread "c-3" "the video is 10 minutes long" "carol"
                  (mkTimestamp 2022 Mar 0).

(** The document a first request stored for [commentA]. *)
Definition docA : Doc :=
  mkDoc sampleVideo "c-1" "a****" "I love this, it's great" agree
        (mkTimestamp 2024 Mar 0).

(** A world in which the language model answers every request with
    [reply], the comment source returns [items] and the collection
    answers and stores. *)
Definition calmEnv (reply : string) (items : option (list CommentThread))
  : Env :=
  mkEnv (fun _ _ => Reply reply) (fun _ => ListData items)
        (fun _ => false) (fun _ => false).

(** The same world with a language model that is out of service. *)
Definition offlineEnv (items : option (list CommentThread)) : Env :=
  mkEnv (fun _ _ => Failure (Some 503%Z)) (fun _ => ListData items)
        (fun _ => false) (fun _ => false).

(** A world in which every [Comment.create] rejects. *)
Definition failingStoreEnv (items : option (list CommentThread)) : Env :=
  mkEnv (fun _ _ => Reply "AGREE") (fun _ => ListData items)
        (fun _ => false) (fun _ => true).

(** What [toFixed(1)] prints for NaN in all three fields, no comment
    counted and an empty histogram. *)
Definition nanResult : AnalysisResult :=
  mkAnalysisResult
    (mkSentimentAnalysis JsNumber.FxNaN JsNumber.FxNaN JsNumber.FxNaN)
    0
    (combine months (repeat 0 12)).

(** The result for [commentA], [commentB] and [commentC] when each is
    counted as agree. *)
Definition sampleResult : AnalysisResult :=
  mkAnalysisResult
    (mkSentimentAnalysis (JsNumber.FxDecimal false 1000)
                         (JsNumber.FxDecimal false 0)
                         (JsNumber.FxDecimal false 0))
    3
    (combine months [0; 0; 2; 0; 0; 0; 0; 0; 0; 0; 0; 1]).

(** The result for [commentA], [commentB] and [commentC] when they are
    counted as agree, disagree and neutral: 33.3 three times. *)
Definition mixedResult : AnalysisResult :=
  mkAnalysisResult
    (mkSentimentAnalysis (JsNumber.FxDecimal false 333)
                         (JsNumber.FxDecimal false 333)
                         (JsNumber.FxDecimal false 333))
    3
    (combine months [0; 0; 2; 0; 0; 0; 0; 0; 0; 0; 0; 1]).

Definition sampleComments : list CommentThread :=
  [commentA; commentB; commentC].

(** A comment of September. *)
Definition commentD : CommentThread :=
  mkCommentThread "c-4" "nice one, I agree" "dave"
                  (mkTimestamp 2024 Sep 0).

(** The result for [commentA] and [commentD], both counted as agree,
    on a server whose default locale is en-GB: the comment of September
    is missing from the distribution. *)
Definition septemberResult : AnalysisResult :=
  mkAnalysisResult
    (mkSentimentAnalysis (JsNumber.FxDecimal false 1000)
                         (JsNumber.FxDecimal false 0)
                         (JsNumber.FxDecimal false 0))
    2
    (combine months [0; 0; 1; 0; 0; 0; 0; 0; 0; 0; 0; 0]).

(* ================================================================= *)
(** ** Video references *)

(** Every character of [s] satisfies [f]. *)
Fixpoint allChars (f : ascii -> bool) (s : string) : bool :=
  match s with
  | EmptyString => true
  | String c s' => f c && allChars f s'
  end.

(** The text has ASCII characters only. *)
Definition isAscii (s : string) : bool :=
  allChars (fun c => nat_of_ascii c <? 128) s.

(** [v] is a run of eleven identifier characters. *)
Definition isVideoId (v : string) : Prop :=
  String.length v = 11 /\ allChars Server.isIdChar v = true.

(** [url] holds [v] right after ["v="] or ["/"], [pre] characters in. *)
Definition refersTo (url pre v : string) : Prop :=
  isVideoId v /\
  exists post : string,
    url = (pre ++ "v=" ++ v ++ post)%string \/
    url = (pre ++ "/" ++ v ++ post)%string.

(* ================================================================= *)
(** ** Time spent waiting *)

Definition sumZ (l : list Z) : Z := fold_right Z.add 0%Z l.

(** The time one call sleeps between its requests. *)
Definition callDelay (events : list CallEvent) : Z := sumZ (sleeps events).

(** The time a scheduler event waits: the sleeps of a call, a wait, and
    for the concurrent calls of a batch the longest of their sleeps. *)
Definition elapsed (e : SchedEvent) : Z :=
  match e with
  | Call events => callDelay events
  | Batch calls => fold_right Z.max 0%Z (map callDelay calls)
  | Wait ms => ms
  end.

Definition totalDelay (tr : list SchedEvent) : Z := sumZ (map elapsed tr).

(** The requests to the language model a scheduler made. *)
Definition totalRequests (tr : list SchedEvent) : nat :=
  countRemoteCalls (map EvSched tr).

(* ================================================================= *)
(** ** The loop of the handler *)

(** The state in which the loop of the handler starts: the comment
    source was asked and the scheduler has run. *)
Definition loopStart (env : Env) (video : string)
           (comments : list CommentThread) (docs : list Doc) : World :=
  mkWorld docs
          ([EvList video]
             ++ map EvSched (snd (Server.rateLimiter (model env) comments))).

(** The loop of the handler over the comments of a video. *)
Definition theLoop (locale : Locale) (env : Env) (video : string)
           (comments : list CommentThread) (docs : list Doc)
  : Result (Totals * Distribution) * World :=
  Server.forComments locale env video
    (fst (Server.rateLimiter (model env) comments)) 0 comments
    (mkTotals 0 0 0, allMonths) (loopStart env video comments docs).

Definition isStoreEvent (e : Event) : bool :=
  match e with
  | EvFindOne _ | EvCreate _ => true
  | _ => false
  end.

(** The counters after a list of sentiments. *)
Definition tally (sentiments : list Sentiment) : Totals :=
  fold_left bump sentiments (mkTotals 0 0 0).

(** The month object after a list of dates. *)
Definition histogram (locale : Locale) (stamps : list Timestamp)
  : Distribution :=
  fold_left (fun d t => increment d (toLocaleMonth locale t)) stamps
            allMonths.

(* ================================================================= *)
(** ** Comments grouped by month (the batched variant of the server) *)

(** An element of a group: [{ id, text, username, timestamp }]. *)
Module Entry.

Record t : Type := mk {
  id : string;
  text : string;
  username : string;
  timestamp : Timestamp
}.

End Entry.

Module BatchAnalyze.

(** An object with one array of entries per month label, its
    properties in insertion order. *)
Definition Groups : Type := list (string * list Entry.t).

(** [if (!groupedComments[month]) { groupedComments[month] = []; }
    groupedComments[month].push(entry)] *)
Fixpoint push (groupedComments : Groups) (month : string) (entry : Entry.t)
  : Groups :=
  match groupedComments with
  | [] => [(month, [entry])]
  | (k, v) :: rest =>
      if String.eqb k month then (k, v ++ [entry]) :: rest
      else (k, v) :: push rest month entry
  end.

Definition entryOf (c : CommentThread) : Entry.t :=
  Entry.mk (id c) (textDisplay c) (authorDisplayName c) (publishedAt c).

(** [groupCommentsByMonth(comments)] *)
Definition groupCommentsByMonth (locale : Locale)
           (comments : list CommentThread) : Groups :=
  fold_left
    (fun groupedComments c =>
       push groupedComments (toLocaleMonth locale (publishedAt c))
            (entryOf c))
    comments [].

(** [Object.values(groupedComments).flat()] *)
Definition allComments (groupedComments : Groups) : list Entry.t :=
  List.concat (map snd groupedComments).

End BatchAnalyze.

(** The month label of an entry. *)
Definition monthOf (locale : Locale) (e : Entry.t) : string :=
  toLocaleMonth locale (Entry.timestamp e).

(** The entries of a month, in the order of the list. *)
Definition ofMonth (locale : Locale) (month : string)
           (entries : list Entry.t) : list Entry.t :=
  filter (fun e => String.eqb (monthOf locale e) month) entries.

(** [distribution[month]++] for each entry of a list. *)
Definition countAll (locale : Locale) (d : Distribution)
           (entries : list Entry.t) : Distribution :=
  fold_left (fun d e => increment d (monthOf locale e)) entries d.

(** The labels of a list in the order in which they first occur. *)
Fixpoint firstSeen (labels : list string) : list string :=
  match labels with
  | [] => []
  | l :: rest =>
      l :: filter (fun l' => negb (String.eqb l' l)) (firstSeen rest)
  end.

(* ================================================================= *)
(** ** The pages of the client *)

Module ResultsPage.



(** [Number(percentage)] for a text printed by [toFixed(1)]. The
    Number value of the decimal [tenths / 10] is the binary64 nearest
    to it, which is the correctly rounded quotient of [tenths] by 10;
    the text of a Number of 1e21 or more reads back as that Number. *)
Definition Number (percentage : JsNumber.Fixed1) : spec_float :=
  match percentage with
  | JsNumber.FxNaN => S754_nan
  | JsNumber.FxInfinity s => S754_infinity s
  | JsNumber.FxDecimal neg tenths =>
      let x := JsNumber.div (JsNumber.ofNat (Z.to_nat tenths))
                            (JsNumber.ofNat 10) in
      if neg then SFopp x else x
  | JsNumber.FxExponent x => x
  end.

(** What [Math.round] returns. *)
Inductive Rounded : Type :=
| RdNaN
| RdInfinity (neg : bool)
| RdInt (n : Z).

(** [Math.round(x)]: the integer [floor(x + 1/2)] for a finite [x]. *)
Definition round (x : spec_float) : Rounded :=
  match x with
  | S754_nan => RdNaN
  | S754_infinity s => RdInfinity s
  | S754_zero _ => RdInt 0
  | S754_finite s m e =>
      let sm := if s then Z.neg m else Z.pos m in
      RdInt (if (0 <=? e)%Z then (sm * 2 ^ e)%Z
             else ((2 * sm + 2 ^ (- e)) / 2 ^ (- e + 1))%Z)
  end.

(** The count [TotalCommentsCard] shows under a sentiment:
    [Math.round(totalComments * (Number(percentage) / 100))]. *)
Definition shownCount (totalComments : nat) (percentage : JsNumber.Fixed1)
  : Rounded :=
  round (JsNumber.mul (JsNumber.ofNat totalComments)
                      (JsNumber.div (Number percentage)
                                    (JsNumber.ofNat 100))).

End ResultsPage.

Module InputPage.

(** What [fetch] and [response.json()] give: the request rejects, or
    there is a response with its status and its body, [None] when the
    body does not parse. *)
Inductive FetchOutcome : Type :=
| FetchRejects
| FetchResponse (status : nat) (data : option Body).

(** What [handleAnalyze] does, in order. *)
Inductive UiEvent : Type :=
| SetLoading (loading : bool)
| Fetch (url : string)
| Navigate (results : Body)   (* navigate("/results", { state: { results } }) *)
| ConsoleError
| Alert (message : string).

(** [response.ok] *)
Definition ok (status : nat) : bool :=
  (200 <=? status) && (status <=? 299).

(** The [catch] block. *)
Definition failed : list UiEvent :=
  [ConsoleError;
   Alert "Failed to analyze comments. Please check the URL and try again."].

(** [handleAnalyze] for the reference typed into the page. *)
Definition handleAnalyze (fetch : string -> FetchOutcome) (url : string)
  : list UiEvent :=
  SetLoading true :: Fetch url ::
  match fetch url with
  | FetchRejects => failed
  | FetchResponse status data =>
      if ok status then
        match data with
        | Some data => [Navigate data]
        | None => failed
        end
      else failed
  end ++ [SetLoading false].

(** [fetch] against the server: the handler answers with a status and
    a body. *)
Definition served (locale : Locale) (env : Env) (docs : list Doc)
           (url : string) : FetchOutcome :=
  match fst (Server.run locale env (Some url) docs) with
  | Ok resp => FetchResponse (status resp) (Some (body resp))
  | Throw _ => FetchRejects
  end.

End InputPage.

(** The status of the response to a request with a reference, 0 if
    there is none. *)
Definition status_of_run (locale : Locale) (env : Env) (url : string)
           (docs : list Doc) : nat :=
  match fst (Server.run locale env (Some url) docs) with
  | Ok resp => status resp
  | Throw _ => 0
  end.

(* ================================================================= *)
(** * Properties *)


Module JsStringFacts.
Import JsString.

Lemma prefix_occurs w s :
  String.prefix w s = true <-> exists b, s = (w ++ b)%string.
Proof.
  revert s; induction w as [|c w IH]; intros s; simpl.
  - destruct s; simpl; split; eauto.
  - destruct s as [|d s]; simpl.
    + split; [discriminate | intros [b Hb]; discriminate].
    + destruct (ascii_dec c d) as [->|Hne].
      * rewrite IH. split; intros [b Hb]; exists b; congruence.
      * split; [discriminate | intros [b Hb]; congruence].
Qed.

Lemma includes_occurs s w : includes s w = true <-> occurs w s.
Proof.
  unfold occurs. induction s as [|c s IH].
  - cbn [includes]. destruct (String.prefix w "") eqn:Hp.
    + apply prefix_occurs in Hp as [b Hb].
      split; [intros _; exists EmptyString, b; exact Hb | reflexivity].
    + split; [discriminate|]. intros ([|x a] & b & Hab).
      * assert (String.prefix w "" = true) by (apply prefix_occurs; eauto).
        congruence.
      * discriminate.
  - cbn [includes]. destruct (String.prefix w (String c s)) eqn:Hp.
    + apply prefix_occurs in Hp as [b Hb].
      split; [intros _; exists EmptyString, b; exact Hb | reflexivity].
    + rewrite IH. split.
      * intros (a & b & ->). exists (String c a), b. reflexivity.
      * intros ([|x a] & b & Hab).
        -- assert (String.prefix w (String c s) = true)
             by (apply prefix_occurs; eauto).
           congruence.
        -- exists a, b. simpl in Hab. congruence.
Qed.

Lemma includes_false s w : includes s w = false <-> ~ occurs w s.
Proof.
  rewrite <- includes_occurs. destruct (includes s w); split; congruence.
Qed.

Lemma append_assoc (a b c : string) :
  ((a ++ b) ++ c = a ++ (b ++ c))%string.
Proof. induction a; simpl; congruence. Qed.

(** Every text that contains DISAGREE contains AGREE. *)
Lemma occurs_DISAGREE s :
  occurs "DISAGREE" s -> occurs "AGREE" s.
Proof.
  intros (a & b & ->). exists (a ++ "DIS")%string, b.
  rewrite append_assoc. reflexivity.
Qed.

Lemma TermCount_filter text ws :
  TermCount text ws (List.length (filter (fun w => includes text w) ws)).
Proof.
  induction ws as [|w ws IH]; simpl.
  - constructor.
  - destruct (includes text w) eqn:Hw; simpl.
    + apply TermCount_hit; [apply includes_occurs|]; assumption.
    + apply TermCount_miss; [apply includes_false|]; assumption.
Qed.

Lemma TermCount_functional text ws n m :
  TermCount text ws n -> TermCount text ws m -> n = m.
Proof.
  intros Hn; revert m; induction Hn; intros m Hm; inversion Hm; subst;
    try reflexivity; try contradiction; auto.
Qed.

End JsStringFacts.

(* ================================================================= *)
(** ** The fallback classifier *)

Section KeywordFacts.

Import JsString JsStringFacts.

Variables positiveWords negativeWords : list string.

Lemma keywordSentiment_counts (text : string) :
  exists p n : nat,
    TermCount (toLowerCase text) positiveWords p /\
    TermCount (toLowerCase text) negativeWords n /\
    (forall p', TermCount (toLowerCase text) positiveWords p' -> p' = p) /\
    (forall n', TermCount (toLowerCase text) negativeWords n' -> n' = n) /\
    (n < p -> keywordSentiment positiveWords negativeWords text = agree) /\
    (p < n -> keywordSentiment positiveWords negativeWords text = disagree) /\
    (p = n -> keywordSentiment positiveWords negativeWords text = neutral).
Proof.
  unfold keywordSentiment.
  set (lc := toLowerCase text).
  set (p := List.length (filter (fun w => includes lc w) positiveWords)).
  set (n := List.length (filter (fun w => includes lc w) negativeWords)).
  exists p, n.
  split; [apply TermCount_filter|].
  split; [apply TermCount_filter|].
  split; [intros p' Hp'; eapply TermCount_functional;
          [exact Hp' | apply TermCount_filter]|].
  split; [intros n' Hn'; eapply TermCount_functional;
          [exact Hn' | apply TermCount_filter]|].
  repeat split; intros H.
  - apply Nat.ltb_lt in H. now rewrite H.
  - assert (Hnp : (n <? p) = false) by (apply Nat.ltb_ge; lia).
    apply Nat.ltb_lt in H. now rewrite Hnp, H.
  - rewrite H, Nat.ltb_irrefl. reflexivity.
Qed.

End KeywordFacts.

(** C5. The fallback classifier, in both copies of the server: on every
    text it lower-cases the text, counts the positive and the negative
    terms that occur in it as substrings (each count is determined by
    the text), and answers agree when the positive count is larger,
    disagree when the negative count is larger and neutral on a tie, the
    0-0 tie included. The three sample texts give agree, disagree and
    neutral, and a term is found inside a longer word ("likely"). *)
Theorem fallback_classifier_definition :
  (forall text : string,
      exists p n : nat,
        TermCount (JsString.toLowerCase text) Server.positiveWords p /\
        TermCount (JsString.toLowerCase text) Server.negativeWords n /\
        (forall p', TermCount (JsString.toLowerCase text)
                              Server.positiveWords p' -> p' = p) /\
        (forall n', TermCount (JsString.toLowerCase text)
                              Server.negativeWords n' -> n' = n) /\
        (n < p -> Server.fallbackSentimentAnalysis text = agree) /\
        (p < n -> Server.fallbackSentimentAnalysis text = disagree) /\
        (p = n -> Server.fallbackSentimentAnalysis text = neutral)) /\
  (forall text : string,
      exists p n : nat,
        TermCount (JsString.toLowerCase text) BatchServer.positiveWords p /\
        TermCount (JsString.toLowerCase text) BatchServer.negativeWords n /\
        (forall p', TermCount (JsString.toLowerCase text)
                              BatchServer.positiveWords p' -> p' = p) /\
        (forall n', TermCount (JsString.toLowerCase text)
                              BatchServer.negativeWords n' -> n' = n) /\
        (n < p -> BatchServer.fallbackSentimentAnalysis text = agree) /\
        (p < n -> BatchServer.fallbackSentimentAnalysis text = disagree) /\
        (p = n -> BatchServer.fallbackSentimentAnalysis text = neutral)) /\
  Server.fallbackSentimentAnalysis "I love this, it's great" = agree /\
  Server.fallbackSentimentAnalysis "this is terrible and awful" = disagree /\
  Server.fallbackSentimentAnalysis "the video is 10 minutes long" = neutral /\
  BatchServer.fallbackSentimentAnalysis "I love this, it's great" = agree /\
  BatchServer.fallbackSentimentAnalysis "this is terrible and awful"
    = disagree /\
  BatchServer.fallbackSentimentAnalysis "the video is 10 minutes long"
    = neutral /\
  Server.fallbackSentimentAnalysis "Likely" = agree /\
  Server.fallbackSentimentAnalysis "" = neutral.
Proof.
  split; [intros text; apply keywordSentiment_counts|].
  split; [intros text; apply keywordSentiment_counts|].
  repeat split; vm_compute; reflexivity.
Qed.

(* ================================================================= *)
(** ** The label read off a remote reply *)

Lemma labelOf_cases (reply : string) :
  let text := JsString.toUpperCase (JsString.trim reply) in
  (JsString.occurs "AGREE" text /\ Server.labelOf reply = agree) \/
  (~ JsString.occurs "AGREE" text /\ Server.labelOf reply = neutral).
Proof.
  intros text. unfold Server.labelOf. fold text.
  destruct (JsString.includes text "AGREE") eqn:Ha.
  - left. split; [now apply JsStringFacts.includes_occurs | reflexivity].
  - apply JsStringFacts.includes_false in Ha.
    destruct (JsString.includes text "DISAGREE") eqn:Hd.
    + apply JsStringFacts.includes_occurs in Hd.
      apply JsStringFacts.occurs_DISAGREE in Hd. contradiction.
    + right. split; [assumption | reflexivity].
Qed.

Lemma analyzeSentiment_disagree gen text retries delay :
  fst (Server.analyzeSentiment gen text retries delay) = disagree ->
  Server.fallbackSentimentAnalysis text = disagree /\
  In LogFallback (snd (Server.analyzeSentiment gen text retries delay)).
Proof.
  revert gen delay. induction retries as [|r IH]; intros gen delay; simpl.
  - destruct (gen 0) as [reply|st]; simpl.
    + destruct (labelOf_cases reply) as [[_ H]|[_ H]]; rewrite H; discriminate.
    + intros H; split; [exact H | right; left; reflexivity].
  - destruct (gen 0) as [reply|st]; simpl.
    + destruct (labelOf_cases reply) as [[_ H]|[_ H]]; rewrite H; discriminate.
    + destruct (Server.isRateLimit st).
      * specialize (IH (fun k => gen (S k)) (delay * 2)%Z).
        destruct (Server.analyzeSentiment _ text r _) as [s ev]; simpl in *.
        intros H. destruct (IH H) as [Hf Hin]. split; [exact Hf|].
        right; right; right; exact Hin.
      * simpl. intros H; split; [exact H | right; left; reflexivity].
Qed.

(** C10. The label read off a remote reply is never disagree: the reply
    is trimmed and upper-cased, AGREE is looked for first, and every
    text that contains DISAGREE contains AGREE, so such a reply (the
    exact word DISAGREE included) is read as agree. A disagree returned
    by [analyzeSentiment] is therefore the answer of the fallback
    classifier. *)
Theorem remote_label_never_disagree :
  (forall reply : string, Server.labelOf reply <> disagree) /\
  (forall reply : string,
      JsString.occurs "DISAGREE"
                      (JsString.toUpperCase (JsString.trim reply)) ->
      Server.labelOf reply = agree) /\
  Server.labelOf "DISAGREE" = agree /\
  Server.labelOf "disagree" = agree /\
  (forall gen text retries delay,
      fst (Server.analyzeSentiment gen text retries delay) = disagree ->
      Server.fallbackSentimentAnalysis text = disagree /\
      In LogFallback (snd (Server.analyzeSentiment gen text retries delay))).
Proof.
  split.
  { intros reply.
    destruct (labelOf_cases reply) as [[_ H]|[_ H]]; rewrite H; discriminate. }
  split.
  { intros reply Hd. apply JsStringFacts.occurs_DISAGREE in Hd.
    destruct (labelOf_cases reply) as [[_ H]|[Hn _]];
      [exact H | contradiction]. }
  split; [vm_compute; reflexivity|].
  split; [vm_compute; reflexivity|].
  intros gen text retries delay. apply analyzeSentiment_disagree.
Qed.

(* ================================================================= *)
(** ** Retry and backoff of one classification call *)

Section Retry.

Variable text : string.

Let requests (events : list CallEvent) : nat :=
  List.length (filter isGenerate events).

(** The call makes at most [retries + 1] requests and sleeps the first
    delays of the doubling sequence, one between two requests. *)
Lemma analyzeSentiment_bounded retries :
  forall gen delay,
  exists k,
    k <= retries /\
    sleeps (snd (Server.analyzeSentiment gen text retries delay))
      = backoff k delay /\
    requests (snd (Server.analyzeSentiment gen text retries delay)) = S k.
Proof.
  induction retries as [|r IH]; intros gen delay; simpl.
  - exists 0. destruct (gen 0); simpl; auto.
  - destruct (gen 0) as [reply|st]; simpl.
    + exists 0. repeat split; auto with arith.
    + destruct (Server.isRateLimit st).
      * destruct (IH (fun k => gen (S k)) (delay * 2)%Z)
          as (k & Hk & Hs & Hr).
        destruct (Server.analyzeSentiment _ text r _) as [s ev];
          simpl in *.
        exists (S k). repeat split; [lia | now rewrite Hs | ].
        unfold requests in *. simpl. now rewrite Hr.
      * exists 0. repeat split; auto with arith.
Qed.






End Retry.


(* ================================================================= *)
(** ** Arrays: facts *)

Section ArrayFacts.

Context {A B : Type}.

Lemma length_mapFrom (f : nat -> A -> B) l :
  forall i, List.length (mapFrom f i l) = List.length l.
Proof. induction l; simpl; auto. Qed.

Lemma nth_error_mapFrom (f : nat -> A -> B) l :
  forall i k, nth_error (mapFrom f i l) k
              = option_map (f (i + k)) (nth_error l k).
Proof.
  induction l as [|x l IH]; intros i [|k]; simpl; auto.
  - now rewrite Nat.add_0_r.
  - rewrite IH. now rewrite Nat.add_succ_r.
Qed.

Lemma mapFrom_firstn (f : nat -> A -> B) n :
  forall l i, mapFrom f i (firstn n l) = firstn n (mapFrom f i l).
Proof.
  induction n as [|n IH]; intros [|x l] i; simpl; auto.
  now rewrite IH.
Qed.

Lemma mapFrom_skipn (f : nat -> A -> B) n :
  forall l i, mapFrom f (i + n) (skipn n l) = skipn n (mapFrom f i l).
Proof.
  induction n as [|n IH]; intros l i.
  - now rewrite Nat.add_0_r.
  - destruct l as [|x l]; simpl; auto.
    rewrite <- IH. now rewrite Nat.add_succ_r.
Qed.

Lemma chunksFuel_enough n (l : list A) :
  forall fuel fuel',
    0 < n -> List.length l <= fuel -> List.length l <= fuel' ->
    chunksFuel fuel n l = chunksFuel fuel' n l.
Proof.
  intros fuel; revert l.
  induction fuel as [|fuel IH]; intros l fuel' Hn H H'.
  - destruct l; [|simpl in H; lia]. destruct fuel'; reflexivity.
  - destruct l as [|x l]; [destruct fuel'; reflexivity|].
    destruct fuel' as [|fuel']; [simpl in H'; lia|].
    cbn [chunksFuel]. f_equal.
    cbn [List.length] in *.
    apply IH; [assumption| |]; rewrite length_skipn; cbn [List.length]; lia.
Qed.

Lemma chunksOf_cons n (l : list A) :
  0 < n -> l <> [] ->
  chunksOf n l = firstn n l :: chunksOf n (skipn n l).
Proof.
  intros Hn Hl. destruct l as [|x l]; [contradiction|].
  unfold chunksOf at 1. cbn [List.length chunksFuel]. f_equal.
  apply chunksFuel_enough; [assumption| |lia].
  rewrite length_skipn. cbn [List.length]. lia.
Qed.

Lemma chunksFuel_concat n (l : list A) :
  forall fuel, 0 < n -> List.length l <= fuel ->
               List.concat (chunksFuel fuel n l) = l.
Proof.
  intros fuel; revert l.
  induction fuel as [|fuel IH]; intros l Hn H.
  - destruct l; [reflexivity | simpl in H; lia].
  - destruct l as [|x l]; [reflexivity|].
    cbn [chunksFuel List.concat]. rewrite IH.
    + apply firstn_skipn.
    + assumption.
    + rewrite length_skipn. cbn [List.length] in *. lia.
Qed.

Lemma chunksFuel_sizes n (l : list A) :
  forall fuel,
    map (@List.length A) (chunksFuel fuel n l)
    = sizesFuel fuel n (List.length l).
Proof.
  intros fuel; revert l.
  induction fuel as [|fuel IH]; intros l; [reflexivity|].
  destruct l as [|x l]; [reflexivity|].
  cbn [chunksFuel map sizesFuel List.length].
  rewrite IH, length_firstn, length_skipn. reflexivity.
Qed.

(** Every chunk holds between 1 and [n] elements, and every chunk but
    the last holds [n]. *)
Lemma chunksFuel_bounds n (l : list A) :
  forall fuel, 0 < n ->
    (forall b, In b (chunksFuel fuel n l) ->
               1 <= List.length b <= n) /\
    (forall b, In b (removelast (chunksFuel fuel n l)) ->
               List.length b = n).
Proof.
  intros fuel; revert l.
  induction fuel as [|fuel IH]; intros l Hn.
  - split; intros b [].
  - destruct l as [|x l]; [split; intros b []|].
    destruct (IH (skipn n (x :: l)) Hn) as [IH1 IH2].
    cbn [chunksFuel]. split.
    + intros b [<-|Hb]; [|auto].
      rewrite length_firstn. cbn [List.length]. lia.
    + intros b Hb.
      destruct (chunksFuel fuel n (skipn n (x :: l))) as [|c cs] eqn:E;
        [destruct Hb|].
      cbn [removelast] in Hb. destruct Hb as [<-|Hb]; [|auto].
      rewrite length_firstn.
      assert (skipn n (x :: l) <> []).
      { intros F. rewrite F in E. destruct fuel; discriminate. }
      destruct (Nat.le_gt_cases (List.length (x :: l)) n) as [Hle|Hgt].
      * exfalso. apply H. now apply skipn_all2.
      * lia.
Qed.

End ArrayFacts.

Lemma intersperse_cons {A} (sep x : A) (l : list A) :
  intersperse sep (x :: l)
  = x :: match l with [] => [] | _ :: _ => sep :: intersperse sep l end.
Proof. destruct l; reflexivity. Qed.

Lemma waits_intersperse d (batches : list (list (list CallEvent))) :
  List.length (filter isWait (intersperse (Wait d) (map Batch batches)))
  = pred (List.length batches).
Proof.
  induction batches as [|b bs IH]; [reflexivity|].
  cbn [map]. rewrite intersperse_cons.
  destruct bs as [|b' bs]; [reflexivity|].
  cbn [map filter isWait List.length] in *. rewrite IH. reflexivity.
Qed.

(* ================================================================= *)
(** ** The schedulers *)

Lemma rateLimiterFrom_sentiments gen comments :
  forall i,
    fst (Server.rateLimiterFrom gen i comments)
    = mapFrom (fun j c =>
                 fst (Server.analyzeSentiment (gen j) (textDisplay c) 3 2000))
              i comments.
Proof.
  induction comments as [|c rest IH]; intros i; [reflexivity|].
  cbn [Server.rateLimiterFrom mapFrom]. specialize (IH (S i)).
  destruct (Server.analyzeSentiment (gen i) (textDisplay c) 3 2000).
  destruct (Server.rateLimiterFrom gen (S i) rest).
  simpl in *. now rewrite IH.
Qed.

Lemma rateLimiterFrom_events gen comments :
  forall i,
    snd (Server.rateLimiterFrom gen i comments)
    = List.concat
        (map (fun events => [Call events; Wait 2000])
             (mapFrom (fun j c =>
                         snd (Server.analyzeSentiment (gen j) (textDisplay c)
                                                      3 2000))
                      i comments)).
Proof.
  induction comments as [|c rest IH]; intros i; [reflexivity|].
  cbn [Server.rateLimiterFrom mapFrom map List.concat]. specialize (IH (S i)).
  destruct (Server.analyzeSentiment (gen i) (textDisplay c) 3 2000).
  destruct (Server.rateLimiterFrom gen (S i) rest).
  simpl in *. now rewrite IH.
Qed.

Lemma rateLimiterFrom_waits gen comments :
  forall i,
    List.length (filter isWait (snd (Server.rateLimiterFrom gen i comments)))
    = List.length comments.
Proof.
  induction comments as [|c rest IH]; intros i; [reflexivity|].
  cbn [Server.rateLimiterFrom]. specialize (IH (S i)).
  destruct (Server.analyzeSentiment (gen i) (textDisplay c) 3 2000).
  destruct (Server.rateLimiterFrom gen (S i) rest).
  simpl in *. now rewrite IH.
Qed.



(** The handler reads [sentiments[i]] for [i] below the number of
    comments only: the sentiment is there. *)
Lemma rateLimiter_defined gen comments i :
  i < List.length comments ->
  nth_error (fst (Server.rateLimiter gen comments)) i
  = Some (nth i (fst (Server.rateLimiter gen comments)) neutral).
Proof.
  intros Hi. apply nth_error_nth'.
  unfold Server.rateLimiter.
  now rewrite rateLimiterFrom_sentiments, length_mapFrom.
Qed.

Section BatchScheduler.

Variable analyzeSentiment : nat -> string -> Result Sentiment * list CallEvent.
Variable comments : list CommentThread.
Variable batchSize : nat.
Variable delayBetweenBatches : Z.
Hypothesis batchSize_positive : 0 < batchSize.

Let results (i : nat) : list (Sentiment * list CallEvent) :=
  mapFrom (BatchServer.classifyOne analyzeSentiment) i (skipn i comments).

Let batchEvent (b : list (Sentiment * list CallEvent)) : SchedEvent :=
  Batch (map snd b).

(** The loop entered at index [i] with enough fuel appends the
    sentiments of the remaining comments in order, and one [Batch] per
    chunk of them with a [Wait] between two. *)
Lemma rateLimiterLoop_spec :
  forall fuel i sentiments tr,
    List.length comments - i < fuel ->
    BatchServer.rateLimiterLoop analyzeSentiment fuel comments batchSize
                                delayBetweenBatches i sentiments tr
    = Some (sentiments ++ map fst (results i),
            tr ++ intersperse (Wait delayBetweenBatches)
                              (map batchEvent
                                   (chunksOf batchSize (results i)))).
Proof.
  induction fuel as [|fuel IH]; intros i sentiments tr Hfuel; [lia|].
  cbn [BatchServer.rateLimiterLoop].
  destruct (i <? List.length comments) eqn:Hi.
  - apply Nat.ltb_lt in Hi.
    assert (Hslice : slice comments i (i + batchSize)
                     = firstn batchSize (skipn i comments)).
    { unfold slice. f_equal. lia. }
    rewrite Hslice, mapFrom_firstn. fold (results i).
    assert (Hnext : results (i + batchSize) = skipn batchSize (results i)).
    { unfold results. rewrite <- mapFrom_skipn, skipn_skipn.
      f_equal. f_equal. lia. }
    assert (Hne : results i <> []).
    { intros F. apply (f_equal (@List.length _)) in F.
      unfold results in F.
      rewrite length_mapFrom, length_skipn in F. simpl in F. lia. }
    rewrite IH by lia. rewrite Hnext.
    rewrite (chunksOf_cons batchSize (results i)) by assumption.
    cbn [map]. rewrite intersperse_cons.
    f_equal. f_equal.
    + rewrite <- app_assoc, <- map_app, firstn_skipn. reflexivity.
    + destruct (i + batchSize <? List.length comments) eqn:Hmore.
      * apply Nat.ltb_lt in Hmore.
        assert (Hrest : skipn batchSize (results i) <> []).
        { rewrite <- Hnext. intros F.
          apply (f_equal (@List.length _)) in F. unfold results in F.
          rewrite length_mapFrom, length_skipn in F. simpl in F. lia. }
        rewrite (chunksOf_cons batchSize (skipn batchSize (results i)))
          by assumption.
        cbn [map]. rewrite <- !app_assoc. reflexivity.
      * apply Nat.ltb_ge in Hmore.
        assert (Hrest : skipn batchSize (results i) = []).
        { rewrite <- Hnext. unfold results.
          rewrite skipn_all2 by lia. reflexivity. }
        rewrite Hrest. cbn. rewrite app_nil_r. reflexivity.
  - apply Nat.ltb_ge in Hi.
    assert (Hnil : results i = []).
    { unfold results. rewrite skipn_all2 by lia. reflexivity. }
    rewrite Hnil. cbn. rewrite !app_nil_r. reflexivity.
Qed.

Lemma rateLimiter_spec :
  BatchServer.rateLimiter analyzeSentiment comments batchSize
                          delayBetweenBatches
  = Some (map fst (results 0),
          intersperse (Wait delayBetweenBatches)
                      (map Batch
                           (map (map snd)
                                (chunksOf batchSize (results 0))))).
Proof.
  unfold BatchServer.rateLimiter.
  rewrite rateLimiterLoop_spec by lia.
  rewrite map_map. reflexivity.
Qed.

End BatchScheduler.

(** C6. Both schedulers return one sentiment per comment, in the order
    of the comments: the sentiment at position [i] is the one the call
    made for the comment at position [i] returned. For the batched
    scheduler this holds for every positive batch size and every delay,
    and the list of sentiments is the same whatever these two are. *)
Theorem scheduler_preserves_length_and_order :
  (forall gen comments,
      let sentiments := fst (Server.rateLimiter gen comments) in
      List.length sentiments = List.length comments /\
      forall i c,
        nth_error comments i = Some c ->
        nth_error sentiments i
        = Some (fst (Server.analyzeSentiment (gen i) (textDisplay c)
                                             3 2000))) /\
  (forall analyzeSentiment comments batchSize delayBetweenBatches,
      0 < batchSize ->
      exists sentiments tr,
        BatchServer.rateLimiter analyzeSentiment comments batchSize
                                delayBetweenBatches
        = Some (sentiments, tr) /\
        List.length sentiments = List.length comments /\
        (forall i c,
            nth_error comments i = Some c ->
            nth_error sentiments i
            = Some (fst (BatchServer.classifyOne analyzeSentiment i c))) /\
        forall batchSize' delay',
          0 < batchSize' ->
          exists tr',
            BatchServer.rateLimiter analyzeSentiment comments batchSize'
                                    delay'
            = Some (sentiments, tr')).
Proof.
  split.
  - intros gen comments sentiments. subst sentiments.
    unfold Server.rateLimiter. rewrite rateLimiterFrom_sentiments.
    split; [apply length_mapFrom|].
    intros i c Hc. rewrite nth_error_mapFrom, Hc. reflexivity.
  - intros analyzeSentiment comments batchSize d Hpos.
    rewrite (rateLimiter_spec analyzeSentiment comments batchSize d Hpos).
    eexists; eexists. split; [reflexivity|].
    cbn [skipn]. split; [|split].
    + rewrite length_map. apply length_mapFrom.
    + intros i c Hc.
      rewrite nth_error_map, nth_error_mapFrom, Hc. reflexivity.
    + intros batchSize' d' Hpos'.
      rewrite (rateLimiter_spec analyzeSentiment comments batchSize' d' Hpos').
      eexists. reflexivity.
Qed.

(** C9 (as the code has it). The batched scheduler with its defaults
    (batch size 10, delay 2000 ms) handles the comments in consecutive
    batches, one after the other: its events are one [Batch] per chunk
    with one [Wait 2000] between two batches and none after the last;
    the batches put end to end are the calls of the comments in order,
    every batch holds between 1 and 10 calls and every batch but the
    last holds 10. For 25 comments the batches hold 10, 10 and 5 calls
    and there are 2 waits. The scheduler of the server that stores the
    comments forms no batches: it makes one call after the other and
    waits 2000 ms after every call, the last one included. *)
Theorem batch_partition_and_delays :
  (forall analyzeSentiment comments,
   exists sentiments batches,
    BatchServer.rateLimiterDefault analyzeSentiment comments
    = Some (sentiments, intersperse (Wait 2000) (map Batch batches)) /\
    List.concat batches
    = map snd (mapFrom (BatchServer.classifyOne analyzeSentiment) 0
                       comments) /\
    (forall b, In b batches -> 1 <= List.length b <= 10) /\
    (forall b, In b (removelast batches) -> List.length b = 10) /\
    List.length (filter isWait
                        (intersperse (Wait 2000) (map Batch batches)))
    = pred (List.length batches) /\
    (List.length comments = 25 ->
     map (@List.length _) batches = [10; 10; 5] /\
     List.length (filter isWait
                         (intersperse (Wait 2000) (map Batch batches)))
     = 2)) /\
  (forall gen comments,
      snd (Server.rateLimiter gen comments)
      = List.concat
          (map (fun events => [Call events; Wait 2000])
               (mapFrom (fun j c =>
                           snd (Server.analyzeSentiment
                                  (gen j) (textDisplay c) 3 2000))
                        0 comments)) /\
      List.length (filter isWait (snd (Server.rateLimiter gen comments)))
      = List.length comments).
Proof.
  split;
    [|intros gen comments; split;
      [apply rateLimiterFrom_events | apply rateLimiterFrom_waits]].
  intros analyzeSentiment comments.
  unfold BatchServer.rateLimiterDefault.
  rewrite (rateLimiter_spec analyzeSentiment comments 10 2000%Z)
    by lia.
  cbn [skipn].
  set (rs := mapFrom (BatchServer.classifyOne analyzeSentiment) 0 comments).
  exists (map fst rs), (map (map snd) (chunksOf 10 rs)).
  split; [reflexivity|].
  assert (Hsizes : map (@List.length _) (map (map snd) (chunksOf 10 rs))
                   = sizesFuel (List.length comments) 10
                               (List.length comments)).
  { rewrite map_map.
    rewrite (map_ext _ (@List.length _))
      by (intros b; apply length_map).
    unfold chunksOf. rewrite chunksFuel_sizes.
    unfold rs. rewrite length_mapFrom. reflexivity. }
  destruct (chunksFuel_bounds 10 rs (List.length rs)) as [Hb Hlast];
    [lia|]. fold (chunksOf 10 rs) in Hb, Hlast.
  split; [|split; [|split; [|split]]].
  - rewrite <- concat_map. unfold chunksOf.
    rewrite chunksFuel_concat by lia. reflexivity.
  - intros b Hin. apply in_map_iff in Hin as (b' & <- & Hin).
    rewrite length_map. auto.
  - intros b Hin.
    assert (Hrl : forall l : list (list (Sentiment * list CallEvent)),
               removelast (map (map snd) l)
               = map (map snd) (removelast l)).
    { induction l as [|x [|y l] IH]; try reflexivity.
      cbn [map removelast] in *. now rewrite IH. }
    rewrite Hrl in Hin. apply in_map_iff in Hin as (b' & <- & Hin).
    rewrite length_map. auto.
  - apply waits_intersperse.
  - intros H25. rewrite waits_intersperse.
    rewrite <- (length_map (@List.length _)), Hsizes, H25.
    split; reflexivity.
Qed.

(* ================================================================= *)
(** ** The loop over the comments *)

Section Loop.

Variable locale : Locale.
Variable env : Env.
Variable video : string.
Variable sentiments : list Sentiment.

(** One iteration that does not throw: the lookup succeeded and either
    found a document, or found none and the new document was stored. *)
Lemma forComments_cons_inv i c rest acc w acc' w' :
  Server.forComments locale env video sentiments i (c :: rest) acc w
  = (Ok acc', w') ->
  findOneFails env i = false /\
  exists acc1 w1,
    Server.forComments locale env video sentiments (S i) rest acc1 w1
    = (Ok acc', w') /\
    ((exists d,
         lookup (db w) c = Some d /\
         acc1 = account locale acc (sentiment d) (timestamp d) /\
         w1 = mkWorld (db w) (trace w ++ [EvFindOne (id c)])) \/
     (exists masked,
         lookup (db w) c = None /\
         createFails env i = false /\
         Server.maskUsername (authorDisplayName c) = Ok masked /\
         acc1 = account locale acc (nth i sentiments neutral) (publishedAt c) /\
         w1 = mkWorld
                (db w ++ [newDoc video sentiments i c masked])
                ((trace w ++ [EvFindOne (id c)])
                   ++ [EvCreate (newDoc video sentiments i c masked)]))).
Proof.
  cbn [Server.forComments].
  unfold bind at 1. unfold Server.findOne at 1.
  unfold bind at 1. unfold emit at 1.
  destruct (findOneFails env i) eqn:Hf; [discriminate|].
  cbn [db trace]. fold (lookup (db w) c).
  destruct (lookup (db w) c) as [d|] eqn:Hl.
  - unfold bind at 1. unfold ret at 1. intros H.
    split; [reflexivity|].
    eexists; eexists. split; [exact H|].
    left. exists d. auto.
  - unfold bind at 1. unfold bind at 1. unfold liftResult at 1.
    destruct (Server.maskUsername (authorDisplayName c)) as [masked|e] eqn:Hm;
      [|discriminate].
    unfold bind at 1. unfold Server.create at 1.
    unfold bind at 1. unfold emit at 1.
    destruct (createFails env i) eqn:Hc; [discriminate|].
    cbn [db trace]. unfold ret at 1. intros H.
    split; [reflexivity|].
    eexists; eexists. split; [exact H|].
    right. exists masked. auto.
Qed.

End Loop.

(* ================================================================= *)
(** ** Counters and month objects *)

Lemma totalOf_sum t :
  totalOf t = agreeCount t + disagreeCount t + neutralCount t.
Proof. reflexivity. Qed.

Lemma totalOf_bump t s : totalOf (bump t s) = S (totalOf t).
Proof. rewrite !totalOf_sum. destruct s; simpl; lia. Qed.

Ltac twelve counts H :=
  do 12 (destruct counts as [|? counts]; [discriminate H|]);
  destruct counts; [clear H | discriminate H].

Lemma increment_monthly counts label :
  In label months ->
  List.length counts = 12 ->
  exists counts',
    increment (monthly counts) label = monthly counts' /\
    List.length counts' = 12 /\
    list_sum counts' = S (list_sum counts).
Proof.
  intros Hin H. twelve counts H.
  unfold months in Hin. cbn [In] in Hin.
  repeat (destruct Hin as [<-|Hin];
          [eexists [_; _; _; _; _; _; _; _; _; _; _; _];
           split; [unfold monthly; cbn; reflexivity|];
           split; [reflexivity | cbn; lia]|]).
  destruct Hin.
Qed.

Lemma sortMonths_monthly counts :
  List.length counts = 12 ->
  sortMonths (monthly counts) = combine months counts.
Proof. intros H. twelve counts H. reflexivity. Qed.

Lemma combine_months (counts : list nat) :
  List.length counts = 12 ->
  map fst (combine months counts) = months /\
  map snd (combine months counts) = counts.
Proof. intros H. twelve counts H. split; reflexivity. Qed.

Lemma consistent_start : consistent (mkTotals 0 0 0, allMonths).
Proof. exists (repeat 0 12). repeat split. Qed.

Lemma enUS_canonical : canonical enUS.
Proof. intros m. destruct m; cbn; tauto. Qed.

Lemma consistent_account locale acc s t :
  canonical locale ->
  consistent acc -> consistent (account locale acc s t).
Proof.
  intros Hloc (counts & Hd & Hlen & Hsum).
  destruct (increment_monthly counts (locale (tsMonth t)) (Hloc _) Hlen)
    as (counts' & A & B & C).
  exists counts'. unfold account, toLocaleMonth. cbn [fst snd].
  rewrite Hd, A, totalOf_bump, C, Hsum. auto.
Qed.

Lemma totalOf_account locale acc s t :
  totalOf (fst (account locale acc s t)) = S (totalOf (fst acc)).
Proof. apply totalOf_bump. Qed.

Lemma getProp_increment d key :
  forall m,
    getProp (increment d key) m
    = if String.eqb key m
      then match getProp d key with
           | Some (Count n) => Some (Count (S n))
           | _ => Some NaN
           end
      else getProp d m.
Proof.
  induction d as [|[k v] d IH]; intros m.
  - cbn. destruct (String.eqb key m); reflexivity.
  - cbn [increment getProp].
    destruct (String.eqb k key) eqn:Hk.
    + apply String.eqb_eq in Hk. subst k. cbn [getProp].
      destruct (String.eqb key m) eqn:Hm; [|reflexivity].
      destruct v; reflexivity.
    + cbn [getProp]. destruct (String.eqb k m) eqn:Hkm.
      * apply String.eqb_eq in Hkm. subst m.
        rewrite String.eqb_sym, Hk. reflexivity.
      * apply IH.
Qed.

Lemma sortMonths_counts d :
  sortMonths d = map (fun m => (m, monthCount d m)) months.
Proof. reflexivity. Qed.

Lemma list_sum_bump (f g : string -> nat) key l :
  NoDup l ->
  (forall m, m <> key -> g m = f m) ->
  g key <= S (f key) ->
  list_sum (map g l) <= S (list_sum (map f l)) /\
  (~ In key l -> list_sum (map g l) = list_sum (map f l)).
Proof.
  intros Hnd Hother Hkey. induction l as [|m l IH]; [cbn; lia|].
  inversion Hnd as [|x l' Hnotin Hnd']; subst.
  destruct (IH Hnd') as [IH1 IH2]. cbn [map].
  change (list_sum (g m :: map g l)) with (g m + list_sum (map g l)).
  change (list_sum (f m :: map f l)) with (f m + list_sum (map f l)).
  destruct (string_dec m key) as [->|Hne].
  - rewrite (IH2 Hnotin). split; [lia|]. intros H. exfalso. apply H. now left.
  - rewrite (Hother m Hne). split; [lia|].
    intros H. rewrite IH2; [reflexivity|]. intros Hin. apply H. now right.
Qed.

Lemma NoDup_months : NoDup months.
Proof.
  unfold months.
  repeat (constructor; [cbn; intuition discriminate|]). constructor.
Qed.

(** One [distribution[month]++] adds at most one to the sum of the
    twelve month counts. *)
Lemma sortMonths_increment d key :
  list_sum (map snd (sortMonths (increment d key)))
  <= S (list_sum (map snd (sortMonths d))).
Proof.
  rewrite !sortMonths_counts, !map_map. cbn [snd].
  apply (list_sum_bump (monthCount d) (monthCount (increment d key)) key);
    [apply NoDup_months | |].
  - intros m Hne. unfold monthCount. rewrite getProp_increment.
    destruct (String.eqb key m) eqn:Hk; [|reflexivity].
    apply String.eqb_eq in Hk. congruence.
  - unfold monthCount. rewrite getProp_increment, String.eqb_refl.
    destruct (getProp d key) as [[n|]|]; lia.
Qed.

Lemma bounded_start : bounded (mkTotals 0 0 0, allMonths).
Proof. unfold bounded. cbn. lia. Qed.

Lemma bounded_account locale acc s t :
  bounded acc -> bounded (account locale acc s t).
Proof.
  unfold bounded, account. cbn [fst snd]. intros H.
  rewrite totalOf_bump.
  pose proof (sortMonths_increment (snd acc) (toLocaleMonth locale t)). lia.
Qed.

(** What the loop keeps true of its counters whatever the labels of
    the locale are: every comment is counted under a sentiment, and
    the twelve month counts never add up to more than that. *)
Lemma forComments_total locale env video sentiments rest :
  forall i acc w acc' w',
    Server.forComments locale env video sentiments i rest acc w
    = (Ok acc', w') ->
    totalOf (fst acc') = totalOf (fst acc) + List.length rest /\
    (bounded acc -> bounded acc').
Proof.
  induction rest as [|c rest IH]; intros i acc w acc' w' H.
  - cbn in H. injection H as <- _. split; [cbn; lia | auto].
  - apply forComments_cons_inv in H as (_ & acc1 & w1 & H & Hstep).
    assert (Hacc1 : totalOf (fst acc1) = S (totalOf (fst acc)) /\
                    (bounded acc -> bounded acc1)).
    { destruct Hstep as [(d & _ & -> & _)|(m & _ & _ & _ & -> & _)];
        (split; [apply totalOf_account | apply bounded_account]). }
    destruct Hacc1 as [Ht1 Hb1].
    destruct (IH _ _ _ _ _ H) as [Ht' Hb'].
    split; [rewrite Ht', Ht1; cbn [List.length]; lia | auto].
Qed.

(** With labels among the twelve keys the month counts add up to the
    number of comments counted. *)
Lemma forComments_consistent locale env video sentiments rest :
  canonical locale ->
  forall i acc w acc' w',
    Server.forComments locale env video sentiments i rest acc w
    = (Ok acc', w') ->
    consistent acc ->
    consistent acc'.
Proof.
  intros Hloc.
  induction rest as [|c rest IH]; intros i acc w acc' w' H Hacc.
  - cbn in H. injection H as <- _. assumption.
  - apply forComments_cons_inv in H as (_ & acc1 & w1 & H & Hstep).
    assert (Hacc1 : consistent acc1).
    { destruct Hstep as [(d & _ & -> & _)|(m & _ & _ & _ & -> & _)];
        now apply consistent_account. }
    exact (IH _ _ _ _ _ H Hacc1).
Qed.

(* ================================================================= *)
(** ** The handler *)

(** The state the loop starts in: the comment source was asked and the
    scheduler has run over all the comments. *)
Lemma analyzeBody_items locale env u video comments docs :
  Server.extractVideoId u = Some video ->
  commentThreads env video = ListData (Some comments) ->
  Server.analyzeBody locale env (Some u) (mkWorld docs [])
  = match
      Server.forComments locale env video
        (fst (Server.rateLimiter (model env) comments)) 0 comments
        (mkTotals 0 0 0, allMonths)
        (mkWorld docs
           ([EvList video]
              ++ map EvSched (snd (Server.rateLimiter (model env) comments))))
    with
    | (Ok acc, w) =>
        (Ok (mkResponse 200 (ResultBody (Server.resultOf acc))), w)
    | (Throw e, w) => (Throw e, w)
    end.
Proof.
  intros Hid Hitems. unfold Server.analyzeBody. rewrite Hid.
  unfold bind at 1. unfold Server.listComments.
  unfold bind at 1. unfold emit at 1. rewrite Hitems.
  unfold ret at 1. cbn [db trace app].
  destruct (Server.rateLimiter (model env) comments) as [sentiments sched].
  unfold bind at 1. unfold emitAll at 1. cbn [db trace fst snd].
  unfold bind at 1.
  destruct (Server.forComments _ _ _ _ _ _ _) as [[acc|e] w];
    reflexivity.
Qed.

(** A response with status 200 comes from a request whose reference
    names a video, whose comment source answered with a list, and whose
    loop ran to its end. *)
Lemma run_success_inv locale env url docs r w :
  Server.run locale env url docs = (Ok (mkResponse 200 (ResultBody r)), w) ->
  exists u video comments acc,
    url = Some u /\
    Server.extractVideoId u = Some video /\
    commentThreads env video = ListData (Some comments) /\
    Server.forComments locale env video
      (fst (Server.rateLimiter (model env) comments)) 0 comments
      (mkTotals 0 0 0, allMonths)
      (mkWorld docs
         ([EvList video]
            ++ map EvSched (snd (Server.rateLimiter (model env) comments))))
    = (Ok acc, w) /\
    r = Server.resultOf acc.
Proof.
  unfold Server.run, Server.analyze, tryCatch.
  destruct url as [u|]; [|cbn; discriminate].
  destruct (Server.extractVideoId u) as [video|] eqn:Hid.
  - destruct (commentThreads env video) as [|[comments|]] eqn:Hitems.
    + unfold Server.analyzeBody. rewrite Hid.
      unfold bind at 1. unfold Server.listComments.
      unfold bind at 1. unfold emit at 1. rewrite Hitems.
      cbn. discriminate.
    + rewrite (analyzeBody_items locale env u video comments docs Hid Hitems).
      destruct (Server.forComments _ _ _ _ _ _ _) as [[acc|e] w0] eqn:Hloop.
      * intros H. injection H as Hr Hw. subst w0.
        exists u, video, comments, acc. auto.
      * cbn. discriminate.
    + unfold Server.analyzeBody. rewrite Hid.
      unfold bind at 1. unfold Server.listComments.
      unfold bind at 1. unfold emit at 1. rewrite Hitems.
      cbn. discriminate.
  - unfold Server.analyzeBody. rewrite Hid. cbn. discriminate.
Qed.


Lemma run_of_loop locale env u video comments docs :
  Server.extractVideoId u = Some video ->
  commentThreads env video = ListData (Some comments) ->
  forall acc w,
    Server.forComments locale env video
      (fst (Server.rateLimiter (model env) comments)) 0 comments
      (mkTotals 0 0 0, allMonths)
      (mkWorld docs
         ([EvList video]
            ++ map EvSched (snd (Server.rateLimiter (model env) comments))))
    = (Ok acc, w) ->
    Server.run locale env (Some u) docs
    = (Ok (mkResponse 200 (ResultBody (Server.resultOf acc))), w).
Proof.
  intros Hid Hitems acc w Hloop.
  unfold Server.run, Server.analyze, tryCatch.
  rewrite (analyzeBody_items locale env u video comments docs Hid Hitems), Hloop.
  reflexivity.
Qed.

Lemma run_of_loop_throw locale env u video comments docs :
  Server.extractVideoId u = Some video ->
  commentThreads env video = ListData (Some comments) ->
  forall e w,
    Server.forComments locale env video
      (fst (Server.rateLimiter (model env) comments)) 0 comments
      (mkTotals 0 0 0, allMonths)
      (mkWorld docs
         ([EvList video]
            ++ map EvSched (snd (Server.rateLimiter (model env) comments))))
    = (Throw e, w) ->
    Server.run locale env (Some u) docs
    = (Ok (mkResponse 500 (ErrorBody "Failed to analyze comments")),
       mkWorld (db w) (trace w ++ [EvLogError])).
Proof.
  intros Hid Hitems e w Hloop.
  unfold Server.run, Server.analyze, tryCatch.
  rewrite (analyzeBody_items locale env u video comments docs Hid Hitems), Hloop.
  reflexivity.
Qed.

(** What a response with status 200 holds: the result of counters that
    count every listed comment, with month counts that add up to no
    more, and to as much when the labels of the locale are among the
    twelve keys. *)
Lemma run_counters locale env url docs r w :
  Server.run locale env url docs = (Ok (mkResponse 200 (ResultBody r)), w) ->
  exists u video comments acc,
    url = Some u /\
    Server.extractVideoId u = Some video /\
    commentThreads env video = ListData (Some comments) /\
    r = Server.resultOf acc /\
    totalOf (fst acc) = List.length comments /\
    bounded acc /\
    (canonical locale -> consistent acc).
Proof.
  intros H.
  apply run_success_inv in H
    as (u & video & comments & acc & Hu & Hid & Hitems & Hloop & Hr).
  exists u, video, comments, acc.
  destruct (forComments_total _ _ _ _ _ _ _ _ _ _ Hloop) as [Ht Hb].
  split; [exact Hu|]. split; [exact Hid|]. split; [exact Hitems|].
  split; [exact Hr|]. split; [exact Ht|].
  split; [exact (Hb bounded_start)|].
  intros Hloc.
  exact (forComments_consistent _ _ _ _ _ Hloc _ _ _ _ _ Hloop
                                consistent_start).
Qed.

(** C7. In every successful response of the handler the distribution
    has exactly the twelve keys Jan to Dec in this order, each value is
    a natural number, and the twelve values add up to no more than
    [totalComments]. They add up to [totalComments] when the month
    labels of the default locale of the server are among the twelve
    keys, as the labels of en-US are. Under en-GB they do not: a
    comment of September is counted under the key Sept, which
    [sortMonths] does not copy, and for the two comments of the sample
    the response has status 200, a total of 2 and a distribution that
    adds up to 1. *)
Theorem monthly_distribution_invariant :
  (forall locale env url docs r w,
      Server.run locale env url docs
      = (Ok (mkResponse 200 (ResultBody r)), w) ->
      map fst (distribution r) = months /\
      List.length (distribution r) = 12 /\
      list_sum (map snd (distribution r)) <= totalComments r /\
      (canonical locale ->
       list_sum (map snd (distribution r)) = totalComments r)) /\
  canonical enUS /\
  ~ canonical enGB /\
  fst (Server.run enGB (calmEnv "AGREE" (Some [commentA; commentD]))
                  (Some sampleUrl) [])
  = Ok (mkResponse 200 (ResultBody septemberResult)) /\
  totalComments septemberResult = 2 /\
  list_sum (map snd (distribution septemberResult)) = 1.
Proof.
  split; [|split; [exact enUS_canonical|split; [|repeat split]]].
  - intros locale env url docs r w H.
    apply run_counters in H
      as (u & video & comments & acc & _ & _ & _ & -> & _ & Hb & Hc).
    unfold Server.resultOf. cbn [distribution totalComments].
    split; [now rewrite sortMonths_counts, map_map, map_id|].
    split; [now rewrite sortMonths_counts, length_map|].
    split; [exact Hb|].
    intros Hloc. destruct (Hc Hloc) as (counts & Hd & Hlen & Hsum).
    rewrite Hd, (sortMonths_monthly counts Hlen).
    destruct (combine_months counts Hlen) as [_ Hv]. now rewrite Hv.
  - intros H. specialize (H Sep). cbn in H.
    repeat (destruct H as [H|H]; [discriminate H|]). exact H.
Qed.

(* ================================================================= *)
(** ** Percentages *)

(** The binary64 operations of [SpecFloat] are followed through their
    definitions: a mantissa of 53 bits or more is cut to its top 53 bits
    and possibly incremented, which moves the real value by at most the
    relative amount [2^-52]. *)

Section Binary64.

Import JsNumber.

(** *** Shifting and rounding a mantissa *)

Local Open Scope Z_scope.

Lemma shr_1_m mrs : 0 <= shr_m mrs -> shr_m (shr_1 mrs) = shr_m mrs / 2.
Proof.
  destruct mrs as [m r s]. cbn [shr_m]. intros Hm.
  destruct m as [|[p|p|]|p]; cbn [shr_1 shr_m]; try lia;
    rewrite <- Z.div2_div; reflexivity.
Qed.

Lemma shr_1_nonneg mrs : 0 <= shr_m mrs -> 0 <= shr_m (shr_1 mrs).
Proof.
  intros H. rewrite shr_1_m by assumption. apply Z.div_pos; lia.
Qed.

Lemma pow2_xO p : 2 ^ Z.pos p~0 = 2 ^ Z.pos p * 2 ^ Z.pos p.
Proof.
  rewrite (Pos2Z.inj_xO p).
  replace (2 * Z.pos p) with (Z.pos p + Z.pos p) by lia.
  apply Z.pow_add_r; lia.
Qed.

Lemma pow2_xI p : 2 ^ Z.pos p~1 = 2 * (2 ^ Z.pos p * 2 ^ Z.pos p).
Proof.
  rewrite (Pos2Z.inj_xI p).
  replace (2 * Z.pos p + 1) with (Z.succ (Z.pos p + Z.pos p)) by lia.
  rewrite Z.pow_succ_r by lia. rewrite Z.pow_add_r by lia. reflexivity.
Qed.

Lemma iter_shr_m p :
  forall mrs, 0 <= shr_m mrs ->
              shr_m (SpecFloat.iter_pos shr_1 p mrs) = shr_m mrs / 2 ^ Z.pos p /\
              0 <= shr_m (SpecFloat.iter_pos shr_1 p mrs).
Proof.
  induction p as [p IH|p IH|]; intros mrs Hm; cbn [SpecFloat.iter_pos].
  - pose proof (shr_1_nonneg mrs Hm) as H1.
    destruct (IH (shr_1 mrs) H1) as [E1 N1].
    destruct (IH _ N1) as [E2 N2].
    split; [|assumption].
    assert (0 < 2 ^ Z.pos p) by (apply Z.pow_pos_nonneg; lia).
    rewrite E2, E1, shr_1_m by assumption.
    rewrite !Z.div_div by lia. now rewrite pow2_xI.
  - destruct (IH mrs Hm) as [E1 N1].
    destruct (IH _ N1) as [E2 N2].
    split; [|assumption].
    assert (0 < 2 ^ Z.pos p) by (apply Z.pow_pos_nonneg; lia).
    rewrite E2, E1.
    rewrite !Z.div_div by lia. now rewrite pow2_xO.
  - split; [|now apply shr_1_nonneg].
    rewrite shr_1_m by assumption. reflexivity.
Qed.

Lemma digits2_pos_bounds p :
  2 ^ (Z.pos (digits2_pos p) - 1) <= Z.pos p < 2 ^ Z.pos (digits2_pos p).
Proof.
  induction p as [p IH|p IH|]; cbn [digits2_pos].
  - rewrite Pos2Z.inj_succ, (Pos2Z.inj_xI p).
    replace (Z.succ (Z.pos (digits2_pos p)) - 1)
      with (1 + (Z.pos (digits2_pos p) - 1)) by lia.
    rewrite Z.pow_add_r by lia. rewrite Z.pow_succ_r by lia.
    change (2 ^ 1) with 2. lia.
  - rewrite Pos2Z.inj_succ, (Pos2Z.inj_xO p).
    replace (Z.succ (Z.pos (digits2_pos p)) - 1)
      with (1 + (Z.pos (digits2_pos p) - 1)) by lia.
    rewrite Z.pow_add_r by lia. rewrite Z.pow_succ_r by lia.
    change (2 ^ 1) with 2. lia.
  - cbn. lia.
Qed.

Lemma Zdigits2_unique m d :
  0 < d -> 2 ^ (d - 1) <= m < 2 ^ d -> Zdigits2 m = d.
Proof.
  intros Hd [Hlo Hhi].
  assert (0 < m) by (pose proof (Z.pow_pos_nonneg 2 (d - 1)); lia).
  destruct m as [|p|p]; try lia. cbn [Zdigits2].
  destruct (digits2_pos_bounds p) as [Plo Phi].
  set (k := Z.pos (digits2_pos p)) in *.
  destruct (Z.lt_trichotomy k d) as [Hlt|[Heq|Hgt]]; [|assumption|].
  - assert (2 ^ k <= 2 ^ (d - 1)) by (apply Z.pow_le_mono_r; lia). lia.
  - assert (2 ^ d <= 2 ^ (k - 1)) by (apply Z.pow_le_mono_r; lia). lia.
Qed.

Lemma fexp_normal e : -1021 <= e -> fexp 53 1024 e = e - 53.
Proof. intros H. unfold fexp, emin. lia. Qed.

Lemma round_nearest_even_cases m l :
  round_nearest_even m l = m \/ round_nearest_even m l = m + 1.
Proof.
  destruct l as [|[| |]]; cbn; auto. destruct (Z.even m); auto.
Qed.

(** [shr_fexp] on a mantissa of [d >= 53] digits drops its [d - 53]
    low bits. *)
Lemma shr_fexp_normal mx ex lx :
  0 < mx -> 53 <= Zdigits2 mx -> -1021 <= Zdigits2 mx + ex ->
  exists mrs,
    shr_fexp 53 1024 mx ex lx = (mrs, ex + (Zdigits2 mx - 53)) /\
    shr_m mrs = mx / 2 ^ (Zdigits2 mx - 53) /\
    (Zdigits2 mx = 53 -> mrs = shr_record_of_loc mx lx).
Proof.
  intros Hm Hd Hr. unfold shr_fexp. rewrite fexp_normal by assumption.
  replace (Zdigits2 mx + ex - 53 - ex) with (Zdigits2 mx - 53) by lia.
  destruct (Zdigits2 mx - 53) as [|p|p] eqn:Hn; try lia.
  - exists (shr_record_of_loc mx lx). cbn [shr].
    rewrite Z.add_0_r, Z.div_1_r.
    repeat split. destruct lx as [|[| |]]; reflexivity.
  - cbn [shr].
    assert (Hrec : 0 <= shr_m (shr_record_of_loc mx lx))
      by (destruct lx as [|[| |]]; cbn; lia).
    destruct (iter_shr_m p _ Hrec) as [E _].
    eexists. split; [reflexivity|]. split; [|lia].
    rewrite E. destruct lx as [|[| |]]; reflexivity.
Qed.

Lemma Zdigits2_lower m : 2 ^ 52 <= m -> 53 <= Zdigits2 m.
Proof.
  intros H. destruct m as [|p|p]; try lia. cbn [Zdigits2].
  destruct (digits2_pos_bounds p) as [_ Hhi].
  destruct (Z_lt_le_dec (Z.pos (digits2_pos p)) 53) as [Hlt|]; [|assumption].
  assert (2 ^ Z.pos (digits2_pos p) <= 2 ^ 52)
    by (apply Z.pow_le_mono_r; lia).
  lia.
Qed.

Lemma Zdigits2_bounds m :
  0 < m -> 2 ^ (Zdigits2 m - 1) <= m < 2 ^ Zdigits2 m.
Proof.
  intros H. destruct m as [|p|p]; try lia. apply digits2_pos_bounds.
Qed.

(** The top 53 bits of a mantissa of at least 53 digits. *)
Lemma top_bits m :
  2 ^ 52 <= m ->
  2 ^ 52 <= m / 2 ^ (Zdigits2 m - 53) < 2 ^ 53.
Proof.
  intros H. pose proof (Zdigits2_lower m H) as Hd.
  destruct (Zdigits2_bounds m) as [Hlo Hhi]; [lia|].
  set (n := Zdigits2 m - 53) in *.
  assert (Hn : 0 <= n) by lia.
  assert (Hp : 0 < 2 ^ n) by (apply Z.pow_pos_nonneg; lia).
  replace (Zdigits2 m - 1) with (52 + n) in Hlo by lia.
  replace (Zdigits2 m) with (53 + n) in Hhi by lia.
  rewrite Z.pow_add_r in Hlo, Hhi by lia.
  split.
  - apply Z.div_le_lower_bound; lia.
  - apply Z.div_lt_upper_bound; lia.
Qed.

(** Rounding a bracketed value to 53 bits: the mantissa of the result
    is the truncated mantissa or the next integer, renormalised when it
    reaches [2^53]. *)
Lemma round_aux_int sx mx ex lx :
  2 ^ 52 <= mx ->
  -1074 <= ex + (Zdigits2 mx - 53) ->
  ex + (Zdigits2 mx - 53) + 1 <= 971 ->
  exists m e m1r j,
    binary_round_aux 53 1024 sx mx ex lx = S754_finite sx m e /\
    (m1r = mx / 2 ^ (Zdigits2 mx - 53) \/
     m1r = mx / 2 ^ (Zdigits2 mx - 53) + 1) /\
    (j = 0 \/ j = 1) /\
    m1r = Z.pos m * 2 ^ j /\
    e = ex + (Zdigits2 mx - 53) + j /\
    2 ^ 52 <= Z.pos m < 2 ^ 53 /\
    (lx = loc_Exact -> Zdigits2 mx = 53 -> Z.pos m = mx /\ e = ex).
Proof.
  intros Hm Hlo Hhi.
  pose proof (Zdigits2_lower mx Hm) as Hd.
  pose proof (top_bits mx Hm) as Htop.
  assert (Hpos : 0 < mx) by (pose proof (Z.pow_pos_nonneg 2 52); lia).
  destruct (shr_fexp_normal mx ex lx Hpos Hd ltac:(lia))
    as (mrs & Hshr & Hmrs & Hexact).
  unfold binary_round_aux. rewrite Hshr.
  set (n := Zdigits2 mx - 53) in *.
  set (m' := mx / 2 ^ n) in *.
  set (m1r := round_nearest_even (shr_m mrs) (loc_of_shr_record mrs)).
  assert (Hr : m1r = m' \/ m1r = m' + 1).
  { unfold m1r. rewrite <- Hmrs. apply round_nearest_even_cases. }
  assert (Hrange : 2 ^ 52 <= m1r <= 2 ^ 53) by lia.
  destruct (Z_lt_le_dec m1r (2 ^ 53)) as [Hlt|Hge].
  - (* no carry *)
    assert (Hd1 : Zdigits2 m1r = 53)
      by (apply Zdigits2_unique; [lia | change (53 - 1) with 52; lia]).
    destruct (shr_fexp_normal m1r (ex + n) loc_Exact ltac:(lia)
                              ltac:(lia) ltac:(lia))
      as (mrs2 & Hshr2 & Hmrs2 & Hexact2).
    rewrite Hshr2, Hmrs2, Hd1. change (53 - 53) with 0.
    rewrite Z.div_1_r, Z.add_0_r.
    destruct m1r as [|p|p] eqn:Ep; try lia.
    assert (Hle : (ex + n <=? 1024 - 53) = true) by (apply Z.leb_le; lia).
    rewrite Hle.
    exists p, (ex + n), (Z.pos p), 0.
    split; [reflexivity|]. split; [exact Hr|]. split; [now left|].
    split; [lia|]. split; [lia|]. split; [lia|].
    intros -> Hd53. split; [|lia].
    unfold m1r in Ep. rewrite (Hexact Hd53) in Ep. cbn in Ep. lia.
  - (* the mantissa was rounded up to 2^53 *)
    assert (Hm1 : m1r = 2 ^ 53) by lia.
    assert (Hd1 : Zdigits2 m1r = 54) by (rewrite Hm1; reflexivity).
    destruct (shr_fexp_normal m1r (ex + n) loc_Exact ltac:(lia)
                              ltac:(lia) ltac:(lia))
      as (mrs2 & Hshr2 & Hmrs2 & _).
    rewrite Hshr2, Hmrs2, Hd1, Hm1. change (54 - 53) with 1.
    change (2 ^ 53 / 2 ^ 1) with (Z.pos (Z.to_pos (2 ^ 52))).
    cbv iota.
    assert (Hle : (ex + n + 1 <=? 1024 - 53) = true) by (apply Z.leb_le; lia).
    rewrite Hle.
    exists (Z.to_pos (2 ^ 52)), (ex + n + 1), m1r, 1.
    split; [reflexivity|]. split; [exact Hr|]. split; [now right|].
    split; [rewrite Hm1; reflexivity|]. split; [lia|].
    split; [cbn; lia|].
    intros -> Hd53. exfalso.
    unfold m1r in Hm1. rewrite (Hexact Hd53) in Hm1.
    cbn [shr_record_of_loc shr_m loc_of_shr_record round_nearest_even]
      in Hm1.
    rewrite Hm1 in Hd53. vm_compute in Hd53. discriminate Hd53.
Qed.

(** *** The real value of the rounded float *)

Local Open Scope R_scope.

Lemma bpow_pos e : 0 < bpow e.
Proof. apply powerRZ_lt. lra. Qed.

Lemma bpow_add a b : bpow (a + b) = bpow a * bpow b.
Proof. apply powerRZ_add. lra. Qed.

Lemma bpow_IZR n : (0 <= n)%Z -> IZR (2 ^ n) = bpow n.
Proof.
  intros Hn. unfold bpow.
  rewrite <- (Z2Nat.id n Hn) at 1. rewrite <- pow_IZR.
  rewrite pow_powerRZ, Z2Nat.id by assumption. reflexivity.
Qed.

Lemma bpow_0 : bpow 0 = 1.
Proof. reflexivity. Qed.

Lemma bpow_neg e : bpow (- e) = / bpow e.
Proof. apply powerRZ_neg'. Qed.

(** Rounding to 53 bits moves a bracketed real by at most the relative
    amount [2^-52]. *)
Lemma round_aux_rel sx mx ex lx (v : R) :
  (2 ^ 52 <= mx)%Z ->
  (-1074 <= ex + (Zdigits2 mx - 53))%Z ->
  (ex + (Zdigits2 mx - 53) + 1 <= 971)%Z ->
  IZR mx * bpow ex <= v < (IZR mx + 1) * bpow ex ->
  exists m e,
    binary_round_aux 53 1024 sx mx ex lx = S754_finite sx m e /\
    Rabs (value m e - v) <= bpow (-52) * v /\
    (2 ^ 52 <= Z.pos m < 2 ^ 53)%Z /\
    (ex + (Zdigits2 mx - 53) <= e <= ex + (Zdigits2 mx - 53) + 1)%Z.
Proof.
  intros Hm Hlo Hhi [Hv1 Hv2].
  destruct (round_aux_int sx mx ex lx Hm Hlo Hhi)
    as (m & e & m1r & j & Hround & Hr & Hj & Hm1 & He & Hbits & _).
  exists m, e. split; [exact Hround|].
  pose proof (Zdigits2_lower mx Hm) as Hd.
  set (n := (Zdigits2 mx - 53)%Z) in *.
  assert (Hn : (0 <= n)%Z) by lia.
  set (m' := (mx / 2 ^ n)%Z) in *.
  set (u := bpow (ex + n)).
  assert (Hu : 0 < u) by apply bpow_pos.
  assert (Hpn : (0 < 2 ^ n)%Z) by (apply Z.pow_pos_nonneg; lia).
  assert (Hval : value m e = IZR m1r * u).
  { unfold value, u. rewrite He, Hm1, bpow_add, mult_IZR.
    rewrite bpow_IZR by lia. ring. }
  assert (Hex : bpow ex * IZR (2 ^ n) = u).
  { unfold u. rewrite bpow_add, bpow_IZR by lia. reflexivity. }
  assert (Hdiv1 : (m' * 2 ^ n <= mx)%Z).
  { unfold m'. rewrite Z.mul_comm. apply Z.mul_div_le. lia. }
  assert (Hdiv2 : (mx + 1 <= (m' + 1) * 2 ^ n)%Z).
  { unfold m'.
    pose proof (Z.mul_succ_div_gt mx (2 ^ n) Hpn). lia. }
  apply IZR_le in Hdiv1, Hdiv2.
  rewrite mult_IZR in Hdiv1. rewrite mult_IZR, !plus_IZR in Hdiv2.
  assert (Hb : 0 < bpow ex) by apply bpow_pos.
  assert (Hlow : IZR m' * u <= v).
  { rewrite <- Hex.
    apply Rle_trans with (IZR mx * bpow ex); [|assumption].
    replace (IZR m' * (bpow ex * IZR (2 ^ n)))
      with (IZR m' * IZR (2 ^ n) * bpow ex) by ring.
    apply Rmult_le_compat_r; lra. }
  assert (Hupp : v < (IZR m' + 1) * u).
  { rewrite <- Hex.
    apply Rlt_le_trans with ((IZR mx + 1) * bpow ex); [assumption|].
    replace ((IZR m' + 1) * (bpow ex * IZR (2 ^ n)))
      with ((IZR m' + 1) * IZR (2 ^ n) * bpow ex) by ring.
    apply Rmult_le_compat_r; lra. }
  pose proof (top_bits mx Hm) as [Htop _]. fold n in Htop. fold m' in Htop.
  apply IZR_le in Htop.
  assert (H52 : bpow (-52) * IZR (2 ^ 52) = 1).
  { rewrite bpow_IZR by lia. rewrite <- bpow_add. reflexivity. }
  assert (Hrel : u <= bpow (-52) * v).
  { assert (Hb52 : 0 < bpow (-52)) by apply bpow_pos.
    apply Rle_trans with (bpow (-52) * (IZR (2 ^ 52) * u)).
    - rewrite <- Rmult_assoc, H52. lra.
    - apply Rmult_le_compat_l; [lra|].
      apply Rle_trans with (IZR m' * u); [|assumption].
      apply Rmult_le_compat_r; lra. }
  split; [|split; [exact Hbits | lia]].
  rewrite Hval.
  apply Rle_trans with u; [|assumption].
  apply Rabs_le.
  destruct Hr as [-> | ->].
  - lra.
  - rewrite plus_IZR. lra.
Qed.

(** *** Conversion, division and multiplication *)

Lemma iter_xO p k :
  (Z.pos (Pos.iter xO p k) = Z.pos p * 2 ^ Z.pos k)%Z.
Proof.
  induction k as [|k IH] using Pos.peano_ind.
  - cbn [Pos.iter]. rewrite (Pos2Z.inj_xO p). change (2 ^ 1)%Z with 2%Z. lia.
  - rewrite Pos.iter_succ, (Pos2Z.inj_xO (Pos.iter xO p k)), IH.
    rewrite Pos2Z.inj_succ, Z.pow_succ_r by lia. lia.
Qed.

Lemma digits53 m : (2 ^ 52 <= m < 2 ^ 53)%Z -> Zdigits2 m = 53%Z.
Proof.
  intros H. apply Zdigits2_unique; [lia|]. change (53 - 1)%Z with 52%Z.
  exact H.
Qed.

(** A positive integer below [2^53] is a Number, exactly. *)
Lemma ofNat_spec n :
  (0 < Z.of_nat n < 2 ^ 53)%Z ->
  exists m e,
    JsNumber.ofNat n = S754_finite false m e /\
    value m e = IZR (Z.of_nat n) /\
    (2 ^ 52 <= Z.pos m < 2 ^ 53)%Z /\
    (-52 <= e <= 0)%Z.
Proof.
  intros [Hpos Hlt]. unfold JsNumber.ofNat, JsNumber.prec, JsNumber.emax.
  destruct (Z.of_nat n) as [|p|p] eqn:Hp; try lia.
  cbn [binary_normalize]. unfold binary_round.
  destruct (digits2_pos_bounds p) as [Dlo Dhi].
  set (d := Z.pos (digits2_pos p)) in *.
  assert (Hd : (1 <= d <= 53)%Z).
  { split; [unfold d; lia|].
    destruct (Z_le_gt_dec d 53) as [|Hgt]; [assumption|].
    assert (2 ^ 53 <= 2 ^ (d - 1))%Z by (apply Z.pow_le_mono_r; lia).
    lia. }
  rewrite fexp_normal by lia.
  unfold shl_align.
  replace (d + 0 - 53 - 0)%Z with (d - 53)%Z by lia.
  destruct (d - 53)%Z as [|k|k] eqn:Hk; try lia.
  - (* the integer has 53 digits *)
    assert (Hbits : (2 ^ 52 <= Z.pos p < 2 ^ 53)%Z).
    { replace (d - 1)%Z with 52%Z in Dlo by lia. lia. }
    destruct (round_aux_int false (Z.pos p) 0 loc_Exact)
      as (m & e & _ & _ & Hround & _ & _ & _ & _ & Hm & Hexact);
      try (rewrite (digits53 (Z.pos p) Hbits); lia); [lia|].
    destruct (Hexact eq_refl (digits53 _ Hbits)) as [Hmp He].
    exists m, e. split; [exact Hround|].
    unfold value. rewrite Hmp, He, bpow_0.
    split; [ring|]. split; lia.
  - (* the integer is shifted left to 53 digits *)
    replace (d + 0 - 53)%Z with (Z.neg k) by lia.
    pose proof (iter_xO p k) as Hiter.
    set (mz := Pos.iter xO p k) in *.
    assert (Hpk : (0 < 2 ^ Z.pos k)%Z) by (apply Z.pow_pos_nonneg; lia).
    assert (Hdk : (d - 1 + Z.pos k = 52)%Z) by lia.
    assert (Hbits : (2 ^ 52 <= Z.pos mz < 2 ^ 53)%Z).
    { rewrite Hiter. rewrite <- Hdk.
      replace 53%Z with (d + Z.pos k)%Z by lia.
      rewrite !Z.pow_add_r by lia. split; nia. }
    destruct (round_aux_int false (Z.pos mz) (Z.neg k) loc_Exact)
      as (m & e & _ & _ & Hround & _ & _ & _ & _ & Hm & Hexact);
      try (rewrite (digits53 (Z.pos mz) Hbits); lia); [lia|].
    destruct (Hexact eq_refl (digits53 _ Hbits)) as [Hmp He].
    exists m, e. split; [exact Hround|].
    unfold value. rewrite Hmp, He, Hiter, mult_IZR.
    rewrite bpow_IZR by lia.
    split; [|split; lia].
    rewrite Rmult_assoc, <- bpow_add.
    replace (Z.pos k + Z.neg k)%Z with 0%Z by lia.
    rewrite bpow_0. ring.
Qed.

(** The quotient of two positive floats with 53-bit mantissas, away from
    the ends of the exponent range, is the real quotient up to the
    relative amount [2^-52]. *)
Lemma div_spec m1 e1 m2 e2 :
  (2 ^ 52 <= Z.pos m1 < 2 ^ 53)%Z -> (2 ^ 52 <= Z.pos m2 < 2 ^ 53)%Z ->
  (-400 <= e1 <= 400)%Z -> (-400 <= e2 <= 400)%Z ->
  exists m e,
    JsNumber.div (S754_finite false m1 e1) (S754_finite false m2 e2)
    = S754_finite false m e /\
    Rabs (value m e - value m1 e1 / value m2 e2)
    <= bpow (-52) * (value m1 e1 / value m2 e2) /\
    (2 ^ 52 <= Z.pos m < 2 ^ 53)%Z /\
    (e1 - e2 - 53 <= e <= e1 - e2 - 51)%Z.
Proof.
  intros H1 H2 He1 He2.
  unfold JsNumber.div, JsNumber.prec, JsNumber.emax, SFdiv,
    SFdiv_core_binary.
  rewrite (digits53 _ H1), (digits53 _ H2).
  replace (53 + e1 - (53 + e2))%Z with (e1 - e2)%Z by lia.
  rewrite fexp_normal by lia.
  replace (Z.min (e1 - e2 - 53) (e1 - e2)) with (e1 - e2 - 53)%Z by lia.
  replace (e1 - e2 - (e1 - e2 - 53))%Z with 53%Z by lia.
  cbv iota. rewrite Z.shiftl_mul_pow2 by lia.
  set (a := (Z.pos m1 * 2 ^ 53)%Z).
  pose proof (Z.div_eucl_eq a (Z.pos m2) ltac:(lia)) as Heq.
  pose proof (Z.mod_pos_bound a (Z.pos m2) ltac:(lia)) as Hmod.
  unfold Z.modulo in Hmod.
  assert (Hq : fst (Z.div_eucl a (Z.pos m2)) = (a / Z.pos m2)%Z)
    by (unfold Z.div; destruct (Z.div_eucl a (Z.pos m2)); reflexivity).
  destruct (Z.div_eucl a (Z.pos m2)) as [q r]. cbn [fst snd] in *.
  cbn [xorb].
  set (e' := (e1 - e2 - 53)%Z).
  assert (Hqlo : (2 ^ 52 <= q)%Z).
  { rewrite Hq. apply Z.div_le_lower_bound; [lia|]. unfold a. nia. }
  assert (Hqhi : (q < 2 ^ 54)%Z).
  { rewrite Hq. apply Z.div_lt_upper_bound; [lia|]. unfold a. nia. }
  assert (Hdq : (53 <= Zdigits2 q <= 54)%Z).
  { split; [now apply Zdigits2_lower|].
    destruct (Zdigits2_bounds q ltac:(lia)) as [Dlo _].
    destruct (Z_le_gt_dec (Zdigits2 q) 54) as [|Hgt]; [assumption|].
    assert (2 ^ 54 <= 2 ^ (Zdigits2 q - 1))%Z
      by (apply Z.pow_le_mono_r; lia).
    lia. }
  set (v := value m1 e1 / value m2 e2).
  assert (Hbracket : IZR q * bpow e' <= v < (IZR q + 1) * bpow e').
  { assert (Hm2 : 0 < IZR (Z.pos m2)) by (apply IZR_lt; lia).
    assert (Hb1 : 0 < bpow e1) by apply bpow_pos.
    assert (Hb2 : 0 < bpow e2) by apply bpow_pos.
    assert (Hb' : 0 < bpow e') by apply bpow_pos.
    assert (Hv : v = IZR a / IZR (Z.pos m2) * bpow e').
    { unfold v, value, a, e'. rewrite mult_IZR, bpow_IZR by lia.
      replace (e1 - e2 - 53)%Z with (e1 + (- e2) + (- (53)))%Z by lia.
      rewrite !bpow_add, !bpow_neg. field.
      split; [|split]; apply Rgt_not_eq; try assumption.
      apply bpow_pos. }
    assert (Hlow : (q * Z.pos m2 <= a)%Z) by lia.
    assert (Hupp : (a < (q + 1) * Z.pos m2)%Z) by lia.
    apply IZR_le in Hlow. apply IZR_lt in Hupp.
    rewrite mult_IZR in Hlow. rewrite mult_IZR, plus_IZR in Hupp.
    rewrite Hv. split.
    - apply Rmult_le_compat_r; [lra|].
      apply Rmult_le_reg_r with (IZR (Z.pos m2)); [assumption|].
      unfold Rdiv. rewrite Rmult_assoc, Rinv_l by lra. lra.
    - apply Rmult_lt_compat_r; [lra|].
      apply Rmult_lt_reg_r with (IZR (Z.pos m2)); [assumption|].
      unfold Rdiv. rewrite Rmult_assoc, Rinv_l by lra. lra. }
  destruct (round_aux_rel false q e' (new_location (Z.pos m2) r)
              v Hqlo ltac:(unfold e'; lia) ltac:(unfold e'; lia) Hbracket)
    as (m & e & Hround & Herr & Hbits & He).
  exists m, e. split; [exact Hround|].
  split; [exact Herr|]. split; [exact Hbits|]. unfold e' in He. lia.
Qed.

(** The product of two positive floats with 53-bit mantissas, away from
    the ends of the exponent range, is the real product up to the
    relative amount [2^-52]. *)
Lemma mul_spec m1 e1 m2 e2 :
  (2 ^ 52 <= Z.pos m1 < 2 ^ 53)%Z -> (2 ^ 52 <= Z.pos m2 < 2 ^ 53)%Z ->
  (-400 <= e1 <= 400)%Z -> (-400 <= e2 <= 400)%Z ->
  exists m e,
    JsNumber.mul (S754_finite false m1 e1) (S754_finite false m2 e2)
    = S754_finite false m e /\
    Rabs (value m e - value m1 e1 * value m2 e2)
    <= bpow (-52) * (value m1 e1 * value m2 e2) /\
    (2 ^ 52 <= Z.pos m < 2 ^ 53)%Z.
Proof.
  intros H1 H2 He1 He2.
  unfold JsNumber.mul, JsNumber.prec, JsNumber.emax, SFmul. cbn [xorb].
  set (mx := Z.pos (m1 * m2)).
  assert (Hmx : mx = (Z.pos m1 * Z.pos m2)%Z) by reflexivity.
  assert (Hlo : (2 ^ 104 <= mx)%Z).
  { rewrite Hmx. change (2 ^ 104)%Z with (2 ^ 52 * 2 ^ 52)%Z. nia. }
  assert (Hhi : (mx < 2 ^ 106)%Z).
  { rewrite Hmx. change (2 ^ 106)%Z with (2 ^ 53 * 2 ^ 53)%Z. nia. }
  assert (Hd : (105 <= Zdigits2 mx <= 106)%Z).
  { destruct (Zdigits2_bounds mx ltac:(lia)) as [Dlo Dhi]. split.
    - destruct (Z_le_gt_dec 105 (Zdigits2 mx)) as [|Hgt]; [assumption|].
      assert (2 ^ Zdigits2 mx <= 2 ^ 104)%Z
        by (apply Z.pow_le_mono_r; lia).
      lia.
    - destruct (Z_le_gt_dec (Zdigits2 mx) 106) as [|Hgt]; [assumption|].
      assert (2 ^ 106 <= 2 ^ (Zdigits2 mx - 1))%Z
        by (apply Z.pow_le_mono_r; lia).
      lia. }
  set (v := value m1 e1 * value m2 e2).
  assert (Hv : v = IZR mx * bpow (e1 + e2)).
  { unfold v, value. rewrite Hmx, mult_IZR, bpow_add. ring. }
  assert (Hbracket : IZR mx * bpow (e1 + e2) <= v
                     < (IZR mx + 1) * bpow (e1 + e2)).
  { rewrite Hv. pose proof (bpow_pos (e1 + e2)). split; nra. }
  destruct (round_aux_rel false mx (e1 + e2) loc_Exact v
              ltac:(lia) ltac:(lia) ltac:(lia) Hbracket)
    as (m & e & Hround & Herr & Hbits & _).
  exists m, e. auto.
Qed.

(** *** [toFixed(1)] and the percentages *)

Lemma Rabs_bounds a b : Rabs a <= b -> - b <= a <= b.
Proof. unfold Rabs. destruct (Rcase_abs a); lra. Qed.

Lemma nearestTenths_spec m e :
  Rabs (IZR (JsNumber.nearestTenths m e) - 10 * value m e) <= 1 / 2.
Proof.
  unfold JsNumber.nearestTenths, value.
  destruct (0 <=? e)%Z eqn:He.
  - apply Z.leb_le in He.
    rewrite !mult_IZR, bpow_IZR by assumption.
    replace (IZR (Z.pos m) * bpow e * 10 - 10 * (IZR (Z.pos m) * bpow e))
      with 0 by ring.
    rewrite Rabs_R0. lra.
  - apply Z.leb_gt in He.
    set (P := (2 ^ (- e))%Z).
    assert (HP : (0 < P)%Z) by (apply Z.pow_pos_nonneg; lia).
    assert (HD : (2 ^ (- e + 1) = 2 * P)%Z).
    { unfold P. rewrite Z.pow_add_r by lia. change (2 ^ 1)%Z with 2%Z. lia. }
    rewrite HD.
    set (k := ((20 * Z.pos m + P) / (2 * P))%Z).
    assert (Hk1 : (2 * P * k <= 20 * Z.pos m + P)%Z)
      by (apply Z.mul_div_le; lia).
    assert (Hk2 : (20 * Z.pos m + P < 2 * P * (k + 1))%Z).
    { pose proof (Z.mul_succ_div_gt (20 * Z.pos m + P) (2 * P)
                                    ltac:(lia)) as H.
      fold k in H. lia. }
    apply IZR_le in Hk1. apply IZR_lt in Hk2.
    rewrite ?mult_IZR, ?plus_IZR, ?mult_IZR in Hk1.
    rewrite ?mult_IZR, ?plus_IZR, ?mult_IZR in Hk2.
    assert (HPR : IZR P = / bpow e).
    { unfold P. rewrite bpow_IZR by lia. apply bpow_neg. }
    assert (Hb : 0 < bpow e) by apply bpow_pos.
    assert (HPpos : 0 < IZR P) by (apply IZR_lt; assumption).
    assert (Hbe : bpow e = / IZR P).
    { rewrite HPR, Rinv_inv. reflexivity. }
    rewrite Hbe.
    set (M := IZR (Z.pos m)) in *. set (K := IZR k) in *.
    set (p := IZR P) in *.
    assert (Hx : 10 * (M * / p) = 10 * M / p) by (field; lra).
    rewrite Hx. apply Rabs_le. split.
    + apply Rmult_le_reg_r with (2 * p); [lra|].
      replace ((K - 10 * M / p) * (2 * p)) with (2 * p * K - 20 * M)
        by (field; lra).
      lra.
    + apply Rmult_le_reg_r with (2 * p); [lra|].
      replace ((K - 10 * M / p) * (2 * p)) with (2 * p * K - 20 * M)
        by (field; lra).
      lra.
Qed.

Lemma atLeast1e21_small m e :
  value m e < 10 ^ 21 -> JsNumber.atLeast1e21 m e = false.
Proof.
  unfold JsNumber.atLeast1e21, value. intros Hv.
  assert (H21 : IZR (10 ^ 21) = 10 ^ 21).
  { change (10 ^ 21)%Z with (10 ^ Z.of_nat 21)%Z.
    rewrite <- pow_IZR. reflexivity. }
  destruct (0 <=? e)%Z eqn:He.
  - apply Z.leb_le in He. apply Z.leb_gt. apply lt_IZR.
    rewrite mult_IZR, bpow_IZR, H21 by assumption. exact Hv.
  - apply Z.leb_gt in He. apply Z.leb_gt. apply lt_IZR.
    rewrite mult_IZR, bpow_IZR, H21 by lia.
    rewrite bpow_neg.
    assert (Hb : 0 < bpow e) by apply bpow_pos.
    apply Rmult_lt_reg_r with (bpow e); [assumption|].
    rewrite Rmult_assoc, Rinv_l by lra. lra.
Qed.

Lemma eps_small : 0 < bpow (-52) <= 1 / 10 ^ 15.
Proof.
  split; [apply bpow_pos|].
  assert (H52 : 10 ^ 15 <= IZR (2 ^ 52)).
  { replace (10 ^ 15) with (IZR (10 ^ 15)).
    - apply IZR_le. vm_compute. discriminate.
    - change (10 ^ 15)%Z with (10 ^ Z.of_nat 15)%Z.
      rewrite <- pow_IZR. reflexivity. }
  assert (Hp15 : 0 < 10 ^ 15) by (apply pow_lt; lra).
  change (-52)%Z with (- (52))%Z.
  rewrite bpow_neg, <- bpow_IZR by lia.
  unfold Rdiv. rewrite Rmult_1_l.
  apply Rinv_le_contravar; assumption.
Qed.

(** The percentage printed for [count] out of [total], both below
    [2^53]: a non-negative decimal whose tenths are within half a unit
    and a thousandth of [1000 * count / total]. *)
Lemma percentage_spec count total :
  (0 < Z.of_nat total < 2 ^ 53)%Z -> (count <= total)%nat ->
  exists k,
    percentage count total = JsNumber.FxDecimal false k /\
    Rabs (IZR k - 1000 * IZR (Z.of_nat count) / IZR (Z.of_nat total))
    <= 1 / 2 + 1 / 1000.
Proof.
  intros Ht Hc. unfold percentage.
  destruct (ofNat_spec total Ht) as (mt & et & Eqt & Vt & Bt & Et).
  destruct (ofNat_spec 100 ltac:(cbn; lia))
    as (mh & eh & Eqh & Vh & Bh & Eh).
  assert (HT : 0 < IZR (Z.of_nat total)) by (apply IZR_lt; lia).
  destruct count as [|c].
  { exists 0%Z. rewrite Eqt, Eqh. split; [reflexivity|].
    cbn [Z.of_nat]. unfold Rdiv. rewrite Rmult_0_r, Rmult_0_l, Rminus_0_r.
    rewrite Rabs_R0. lra. }
  destruct (ofNat_spec (S c) ltac:(lia)) as (mc & ec & Eqc & Vc & Bc & Ec).
  rewrite Eqc, Eqt, Eqh.
  destruct (div_spec mc ec mt et Bc Bt ltac:(lia) ltac:(lia))
    as (mq & eq & Eqq & Errq & Bq & Eq).
  rewrite Eqq.
  destruct (mul_spec mq eq mh eh Bq Bh ltac:(lia) ltac:(lia))
    as (mx & ex & Eqx & Errx & Bx).
  rewrite Eqx. rewrite Vc, Vt in Errq. rewrite Vh in Errx.
  change (IZR (Z.of_nat 100)) with 100 in Errx.
  set (C := IZR (Z.of_nat (S c))) in *.
  set (T := IZR (Z.of_nat total)) in *.
  set (V := C / T) in *.
  set (q := value mq eq) in *. set (X := value mx ex) in *.
  set (eps := bpow (-52)) in *.
  destruct eps_small as [Heps0 Heps]. fold eps in Heps0, Heps.
  assert (HC : 0 < C <= T).
  { unfold C, T. split; [apply IZR_lt; lia | apply IZR_le; lia]. }
  assert (HV : 0 < V <= 1).
  { unfold V. split.
    - apply Rdiv_lt_0_compat; lra.
    - apply Rmult_le_reg_r with T; [lra|].
      unfold Rdiv. rewrite Rmult_assoc, Rinv_l by lra. lra. }
  assert (H15 : 1 / 10 ^ 15 <= 1 / 1000000).
  { unfold Rdiv. rewrite !Rmult_1_l. apply Rinv_le_contravar; [lra|].
    replace 1000000 with (10 ^ 6) by lra.
    apply Rle_pow; [lra | lia]. }
  assert (HeV : 0 <= eps * V <= eps) by (split; nra).
  apply Rabs_bounds in Errq.
  assert (Hq : 0 < q <= 2) by (split; nra).
  assert (Heq : 0 <= eps * (q * 100) <= 200 * eps) by (split; nra).
  apply Rabs_bounds in Errx.
  assert (HX : Rabs (10 * X - 1000 * V) <= 1 / 1000).
  { apply Rabs_le. split; lra. }
  assert (HX21 : X < 10 ^ 21).
  { apply Rle_lt_trans with 1000; [lra|].
    replace 1000 with (10 ^ 3) by lra. apply Rlt_pow; [lra | lia]. }
  cbn [JsNumber.toFixed1]. rewrite (atLeast1e21_small mx ex HX21).
  eexists. split; [reflexivity|].
  pose proof (nearestTenths_spec mx ex) as Hk. fold X in Hk.
  apply Rabs_bounds in Hk, HX.
  replace (1000 * C / T) with (1000 * V) by (unfold V; field; lra).
  apply Rabs_le. split; lra.
Qed.

(** Three counts that make up a total below [2^53]: the tenths printed
    for them add up to 1000 give or take 1. *)
Lemma percentages_sum a d n :
  (0 < Z.of_nat (a + d + n) < 2 ^ 53)%Z ->
  exists ka kd kn,
    percentage a (a + d + n) = JsNumber.FxDecimal false ka /\
    percentage d (a + d + n) = JsNumber.FxDecimal false kd /\
    percentage n (a + d + n) = JsNumber.FxDecimal false kn /\
    (999 <= ka + kd + kn <= 1001)%Z.
Proof.
  intros Ht.
  destruct (percentage_spec a (a + d + n) Ht) as (ka & Ha & Ba); [lia|].
  destruct (percentage_spec d (a + d + n) Ht) as (kd & Hd & Bd); [lia|].
  destruct (percentage_spec n (a + d + n) Ht) as (kn & Hn & Bn); [lia|].
  exists ka, kd, kn. repeat split; try assumption.
  - apply Rabs_bounds in Ba, Bd, Bn.
    assert (HT : 0 < IZR (Z.of_nat (a + d + n))) by (apply IZR_lt; lia).
    assert (Hsum : 1000 * IZR (Z.of_nat a) / IZR (Z.of_nat (a + d + n))
                   + 1000 * IZR (Z.of_nat d) / IZR (Z.of_nat (a + d + n))
                   + 1000 * IZR (Z.of_nat n) / IZR (Z.of_nat (a + d + n))
                   = 1000).
    { rewrite !Nat2Z.inj_add, !plus_IZR in *. field. lra. }
    assert (998 < ka + kd + kn)%Z; [|lia].
    apply lt_IZR. rewrite !plus_IZR. lra.
  - apply Rabs_bounds in Ba, Bd, Bn.
    assert (HT : 0 < IZR (Z.of_nat (a + d + n))) by (apply IZR_lt; lia).
    assert (Hsum : 1000 * IZR (Z.of_nat a) / IZR (Z.of_nat (a + d + n))
                   + 1000 * IZR (Z.of_nat d) / IZR (Z.of_nat (a + d + n))
                   + 1000 * IZR (Z.of_nat n) / IZR (Z.of_nat (a + d + n))
                   = 1000).
    { rewrite !Nat2Z.inj_add, !plus_IZR in *. field. lra. }
    assert (ka + kd + kn < 1002)%Z; [|lia].
    apply lt_IZR. rewrite !plus_IZR. lra.
Qed.

End Binary64.

(** C8. In every successful response for a video with at least one
    comment (and fewer than [2^53], the range in which a JavaScript
    counter is exact) the three percentages are printed as non-negative
    decimals with one digit after the point, and their sum is within 0.1
    of 100.0 (in tenths: between 999 and 1001). *)
Theorem percentage_sum_invariant :
  forall locale env url docs r w,
    Server.run locale env url docs = (Ok (mkResponse 200 (ResultBody r)), w) ->
    (0 < Z.of_nat (totalComments r) < 2 ^ 53)%Z ->
    exists ka kd kn,
      agreePercent (sentimentAnalysis r) = JsNumber.FxDecimal false ka /\
      disagreePercent (sentimentAnalysis r) = JsNumber.FxDecimal false kd /\
      neutralPercent (sentimentAnalysis r) = JsNumber.FxDecimal false kn /\
      (999 <= ka + kd + kn <= 1001)%Z.
Proof.
  intros locale env url docs r w H Ht.
  apply run_success_inv in H
    as (u & video & comments & acc & _ & _ & _ & _ & ->).
  unfold Server.resultOf in *.
  cbn [sentimentAnalysis totalComments agreePercent disagreePercent
       neutralPercent] in *.
  rewrite totalOf_sum in *.
  apply percentages_sum. exact Ht.
Qed.

(* ================================================================= *)
(** ** The collection during the loop *)

Lemma lookup_app_found docs extra c d :
  lookup docs c = Some d -> lookup (docs ++ extra) c = Some d.
Proof.
  unfold lookup. induction docs as [|x docs IH]; simpl; [discriminate|].
  destruct (String.eqb (commentId x) (id c)); auto.
Qed.

Lemma lookup_app_new docs extra c d :
  lookup docs c = None -> commentId d = id c ->
  lookup (docs ++ d :: extra) c = Some d.
Proof.
  unfold lookup. intros Hn Hd.
  induction docs as [|x docs IH]; simpl in *.
  - now rewrite Hd, String.eqb_refl.
  - destruct (String.eqb (commentId x) (id c)); [discriminate | auto].
Qed.

Lemma lookup_found docs c d :
  lookup docs c = Some d -> In d docs /\ commentId d = id c.
Proof.
  unfold lookup. intros H. apply find_some in H as [Hin Heq].
  split; [assumption | now apply String.eqb_eq].
Qed.

Section LoopRuns.

Variable locale : Locale.
Variable env : Env.
Variable video : string.
Variable sentiments : list Sentiment.

Lemma forComments_found i c rest acc w d :
  findOneFails env i = false ->
  lookup (db w) c = Some d ->
  Server.forComments locale env video sentiments i (c :: rest) acc w
  = Server.forComments locale env video sentiments (S i) rest
      (account locale acc (sentiment d) (timestamp d))
      (mkWorld (db w) (trace w ++ [EvFindOne (id c)])).
Proof.
  intros Hf Hl. cbn [Server.forComments].
  unfold bind at 1. unfold Server.findOne at 1.
  unfold bind at 1. unfold emit at 1. rewrite Hf.
  cbn [db trace]. fold (lookup (db w) c). rewrite Hl.
  unfold bind at 1. unfold ret at 1. reflexivity.
Qed.

Lemma forComments_new i c rest acc w masked :
  findOneFails env i = false ->
  lookup (db w) c = None ->
  Server.maskUsername (authorDisplayName c) = Ok masked ->
  createFails env i = false ->
  Server.forComments locale env video sentiments i (c :: rest) acc w
  = Server.forComments locale env video sentiments (S i) rest
      (account locale acc (nth i sentiments neutral) (publishedAt c))
      (mkWorld (db w ++ [newDoc video sentiments i c masked])
               ((trace w ++ [EvFindOne (id c)])
                  ++ [EvCreate (newDoc video sentiments i c masked)])).
Proof.
  intros Hf Hl Hm Hc. cbn [Server.forComments].
  unfold bind at 1. unfold Server.findOne at 1.
  unfold bind at 1. unfold emit at 1. rewrite Hf.
  cbn [db trace]. fold (lookup (db w) c). rewrite Hl.
  unfold bind at 1. unfold bind at 1. unfold liftResult at 1. rewrite Hm.
  unfold bind at 1. unfold Server.create at 1.
  unfold bind at 1. unfold emit at 1. rewrite Hc.
  cbn [db trace]. unfold ret at 1. reflexivity.
Qed.

(** A lookup that rejects, or a save of a new comment that rejects, is
    thrown out of the loop. *)
Lemma forComments_store_failure i c rest acc w :
  findOneFails env i = true \/
  (lookup (db w) c = None /\ createFails env i = true) ->
  exists e w',
    Server.forComments locale env video sentiments i (c :: rest) acc w
    = (Throw e, w') /\ db w' = db w.
Proof.
  intros H. cbn [Server.forComments].
  unfold bind at 1. unfold Server.findOne at 1.
  unfold bind at 1. unfold emit at 1.
  destruct (findOneFails env i) eqn:Hf.
  - eexists; eexists. split; reflexivity.
  - destruct H as [H|[Hl Hc]]; [discriminate|].
    cbn [db trace]. fold (lookup (db w) c). rewrite Hl.
    unfold bind at 1. unfold bind at 1. unfold liftResult at 1.
    destruct (Server.maskUsername (authorDisplayName c)) as [masked|e].
    + unfold bind at 1. unfold Server.create at 1.
      unfold bind at 1. unfold emit at 1. rewrite Hc.
      eexists; eexists. split; reflexivity.
    + eexists; eexists. split; reflexivity.
Qed.

(** With a collection that answers and stores, and author names that
    are not empty, the loop runs to its end. *)
Lemma forComments_succeeds rest :
  forall i acc w,
    (forall k, k < List.length rest ->
               findOneFails env (i + k) = false /\
               createFails env (i + k) = false) ->
    (forall c, In c rest -> authorDisplayName c <> EmptyString) ->
    exists acc' w',
      Server.forComments locale env video sentiments i rest acc w = (Ok acc', w').
Proof.
  induction rest as [|c rest IH]; intros i acc w Hstore Hname.
  - eexists; eexists. reflexivity.
  - destruct (Hstore 0) as [Hf Hc]; [cbn; lia|].
    rewrite Nat.add_0_r in Hf, Hc.
    assert (Hstore' : forall k, k < List.length rest ->
                                findOneFails env (S i + k) = false /\
                                createFails env (S i + k) = false).
    { intros k Hk. replace (S i + k) with (i + S k) by lia.
      apply Hstore. cbn. lia. }
    assert (Hname' : forall c', In c' rest ->
                                authorDisplayName c' <> EmptyString)
      by (intros c' Hin; apply Hname; now right).
    destruct (lookup (db w) c) as [d|] eqn:Hl.
    + rewrite (forComments_found i c rest acc w d Hf Hl). now apply IH.
    + destruct (authorDisplayName c) as [|a name] eqn:Hn.
      * exfalso. apply (Hname c); [now left | assumption].
      * erewrite forComments_new; eauto.
        rewrite Hn. reflexivity.
Qed.


(** A loop that ran to its end only added documents to the collection,
    left a document for every comment, and counted each comment with
    the sentiment and the month of the document that now answers for
    it. *)
Lemma forComments_as_stored rest :
  forall i acc w acc' w',
    Server.forComments locale env video sentiments i rest acc w = (Ok acc', w') ->
    (exists extra, db w' = db w ++ extra) /\
    (forall c, In c rest -> lookup (db w') c <> None) /\
    acc' = accountStored locale (db w') rest acc.
Proof.
  induction rest as [|c rest IH]; intros i acc w acc' w' H.
  - cbn in H. injection H as <- <-.
    split; [exists []; now rewrite app_nil_r|].
    split; [intros c []| reflexivity].
  - apply forComments_cons_inv in H as (_ & acc1 & w1 & H & Hstep).
    destruct (IH _ _ _ _ _ H) as ((extra & Hdb) & Hall & Hacc).
    destruct Hstep as [(d & Hl & -> & ->)|(m & Hl & _ & _ & -> & ->)];
      cbn [db] in Hdb.
    + assert (Hl' : lookup (db w') c = Some d)
        by (rewrite Hdb; now apply lookup_app_found).
      split; [eauto|]. split.
      * intros c' [<-|Hin]; [congruence | auto].
      * cbn [accountStored]. now rewrite Hl'.
    + assert (Hl' : lookup (db w') c
                    = Some (newDoc video sentiments i c m)).
      { rewrite Hdb, <- app_assoc. cbn [app].
        now apply lookup_app_new. }
      split; [exists ([newDoc video sentiments i c m] ++ extra);
              now rewrite Hdb, app_assoc|].
      split.
      * intros c' [<-|Hin]; [congruence | auto].
      * cbn [accountStored]. now rewrite Hl'.
Qed.

(** Over a collection that holds a document for every comment the loop
    only looks up: it stores nothing and counts the stored sentiments
    and months. *)
Lemma forComments_warm rest :
  forall i acc w,
    (forall c, In c rest -> lookup (db w) c <> None) ->
    (forall k, k < List.length rest -> findOneFails env (i + k) = false) ->
    Server.forComments locale env video sentiments i rest acc w
    = (Ok (accountStored locale (db w) rest acc),
       mkWorld (db w)
               (trace w ++ map (fun c => EvFindOne (id c)) rest)).
Proof.
  induction rest as [|c rest IH]; intros i acc w Hall Hf.
  - cbn. rewrite app_nil_r. destruct w; reflexivity.
  - destruct (lookup (db w) c) as [d|] eqn:Hl;
      [|exfalso; apply (Hall c); [now left | assumption]].
    assert (Hf0 : findOneFails env i = false).
    { rewrite <- (Nat.add_0_r i). apply Hf. cbn. lia. }
    rewrite (forComments_found i c rest acc w d Hf0 Hl).
    rewrite IH.
    + cbn [db trace accountStored map]. rewrite Hl, <- app_assoc.
      reflexivity.
    + intros c' Hin. cbn [db]. apply Hall. now right.
    + intros k Hk. replace (S i + k) with (i + S k) by lia.
      apply Hf. cbn. lia.
Qed.

End LoopRuns.

(* ================================================================= *)
(** ** Requests to the language model *)

Lemma countRemoteCalls_app tr tr' :
  countRemoteCalls (tr ++ tr')
  = countRemoteCalls tr + countRemoteCalls tr'.
Proof. unfold countRemoteCalls. now rewrite map_app, list_sum_app. Qed.

Lemma rateLimiterFrom_calls gen comments :
  forall i,
    List.length comments
    <= countRemoteCalls
         (map EvSched (snd (Server.rateLimiterFrom gen i comments))).
Proof.
  induction comments as [|c rest IH]; intros i; [cbn; lia|].
  cbn [Server.rateLimiterFrom]. specialize (IH (S i)).
  destruct (analyzeSentiment_bounded (textDisplay c) 3 (gen i) 2000%Z)
    as (k & _ & _ & Hk).
  destruct (Server.analyzeSentiment (gen i) (textDisplay c) 3 2000)
    as [s events].
  destruct (Server.rateLimiterFrom gen (S i) rest) as [ss tr].
  cbn [snd map] in *.
  change (countRemoteCalls (EvSched (Call events) :: EvSched (Wait 2000)
                              :: map EvSched tr))
    with (List.length (filter isGenerate events)
          + (0 + countRemoteCalls (map EvSched tr))).
  cbn [List.length]. lia.
Qed.

Lemma findOne_events_no_calls (rest : list CommentThread) :
  countRemoteCalls (map (fun c => EvFindOne (id c)) rest) = 0.
Proof. induction rest; [reflexivity | assumption]. Qed.

(* ================================================================= *)
(** ** Requests over a collection that knows every comment *)

(** Two requests for the same comments over a collection that holds a
    document for each: both answer with the same result, whatever the
    language model does, and leave the collection as it is; the
    scheduler has still made a request for every comment. *)
Lemma warm_store_result locale env u video comments docs :
  Server.extractVideoId u = Some video ->
  commentThreads env video = ListData (Some comments) ->
  (forall c, In c comments -> lookup docs c <> None) ->
  (forall i, i < List.length comments -> findOneFails env i = false) ->
  exists w,
    Server.run locale env (Some u) docs
    = (Ok (mkResponse 200
             (ResultBody
                (Server.resultOf
                   (accountStored locale docs comments
                                  (mkTotals 0 0 0, allMonths))))), w) /\
    db w = docs /\
    List.length comments <= countRemoteCalls (trace w).
Proof.
  intros Hid Hitems Hall Hf.
  eexists. split; [|split].
  - apply (run_of_loop locale env u video comments docs Hid Hitems).
    apply forComments_warm; cbn [db]; assumption.
  - reflexivity.
  - cbn [trace]. rewrite !countRemoteCalls_app, findOne_events_no_calls.
    pose proof (rateLimiterFrom_calls (model env) comments 0) as H.
    unfold Server.rateLimiter. cbn. lia.
Qed.

(** C1 (as the code has it). When a request has been answered with a
    result, a second request for the same video (the comment source
    returns the same comments, the lookups succeed) is answered with the
    same result whatever the language model now replies, and stores no
    new document; but the scheduler runs over all the comments before
    the collection is consulted, so the second request still makes at
    least one request to the language model per comment. *)
Theorem warm_cache_rerun :
  forall locale env1 env2 url docs r1 w1,
    Server.run locale env1 url docs = (Ok (mkResponse 200 (ResultBody r1)), w1) ->
    (forall video, commentThreads env2 video = commentThreads env1 video) ->
    (forall i, findOneFails env2 i = false) ->
    exists w2,
      Server.run locale env2 url (db w1)
      = (Ok (mkResponse 200 (ResultBody r1)), w2) /\
      db w2 = db w1 /\
      totalComments r1 <= countRemoteCalls (trace w2).
Proof.
  intros locale env1 env2 url docs r1 w1 H1 Hsame Hf.
  apply run_success_inv in H1
    as (u & video & comments & acc & -> & Hid & Hitems & Hloop & ->).
  destruct (forComments_as_stored _ _ _ _ _ _ _ _ _ _ Hloop)
    as (_ & Hall & Hacc).
  destruct (forComments_total _ _ _ _ _ _ _ _ _ _ Hloop) as [Htotal _].
  assert (Hitems2 : commentThreads env2 video = ListData (Some comments))
    by (rewrite Hsame; exact Hitems).
  destruct (warm_store_result locale env2 u video comments (db w1) Hid
              Hitems2 Hall ltac:(intros; apply Hf))
    as (w2 & Hrun & Hdb & Hcalls).
  exists w2. rewrite Hrun, <- Hacc.
  split; [reflexivity|]. split; [assumption|].
  unfold Server.resultOf. cbn [totalComments]. rewrite Htotal.
  cbn. lia.
Qed.

Lemma warm_cache_rerun_witness :
  exists w2,
    Server.run enUS (offlineEnv (Some sampleComments)) (Some sampleUrl)
      (db (snd (Server.run enUS (calmEnv "AGREE" (Some sampleComments))
                           (Some sampleUrl) [])))
    = (Ok (mkResponse 200 (ResultBody sampleResult)), w2) /\
    db w2 = db (snd (Server.run enUS (calmEnv "AGREE" (Some sampleComments))
                                (Some sampleUrl) [])) /\
    totalComments sampleResult <= countRemoteCalls (trace w2).
Proof.
  apply (warm_cache_rerun enUS (calmEnv "AGREE" (Some sampleComments))
                          (offlineEnv (Some sampleComments))
                          (Some sampleUrl) [] sampleResult
                          (snd (Server.run enUS
                                  (calmEnv "AGREE" (Some sampleComments))
                                  (Some sampleUrl) []))).
  - vm_compute. reflexivity.
  - intros video. reflexivity.
  - intros i. reflexivity.
Defined.

(** C1 as stated fails: the collection holds the document of the only
    comment of the video, the request is answered from it, and the
    language model has still been asked once. *)
Lemma warm_cache_still_calls_classifier :
  (forall c, In c [commentA] -> lookup [docA] c <> None) /\
  fst (Server.run enUS (calmEnv "NEUTRAL" (Some [commentA]))
                  (Some sampleUrl) [docA])
  = Ok (mkResponse 200
          (ResultBody
             (mkAnalysisResult
                (mkSentimentAnalysis (JsNumber.FxDecimal false 1000)
                                     (JsNumber.FxDecimal false 0)
                                     (JsNumber.FxDecimal false 0))
                1
                (combine months [0; 0; 1; 0; 0; 0; 0; 0; 0; 0; 0; 0])))) /\
  countRemoteCalls
    (trace (snd (Server.run enUS (calmEnv "NEUTRAL" (Some [commentA]))
                            (Some sampleUrl) [docA])))
  = 1.
Proof.
  split; [|split].
  - intros c [<-|[]]. vm_compute. discriminate.
  - vm_compute. reflexivity.
  - vm_compute. reflexivity.
Qed.

(* ================================================================= *)
(** ** A video without comments *)

(** The guard [if (!response.data.items)] lets an empty array through:
    the loop counts nothing and the three percentages are 0 / 0 * 100. *)
Lemma run_empty_items locale env u video docs :
  Server.extractVideoId u = Some video ->
  commentThreads env video = ListData (Some []) ->
  Server.run locale env (Some u) docs
  = (Ok (mkResponse 200 (ResultBody nanResult)),
     mkWorld docs [EvList video]).
Proof.
  intros Hid Hitems.
  rewrite (run_of_loop locale env u video [] docs Hid Hitems
                       (mkTotals 0 0 0, allMonths)
                       (mkWorld docs [EvList video]))
    by reflexivity.
  vm_compute. reflexivity.
Qed.

Lemma run_missing_items locale env u video docs :
  Server.extractVideoId u = Some video ->
  commentThreads env video = ListData None ->
  Server.run locale env (Some u) docs
  = (Ok (mkResponse 404 (ErrorBody "No comments found")),
     mkWorld docs [EvList video]).
Proof.
  intros Hid Hitems.
  unfold Server.run, Server.analyze, tryCatch, Server.analyzeBody.
  rewrite Hid. unfold bind at 1. unfold Server.listComments.
  unfold bind at 1. unfold emit at 1. rewrite Hitems. reflexivity.
Qed.

(** C2 (the code at an empty comment list). When the comment source
    answers with an empty array the handler does not send the "No
    comments found" response it sends for a missing array: it divides
    0 by 0 three times and answers with status 200, the text NaN in the
    three percentage fields and a total of 0. *)
Theorem zero_comments_yield_nan :
  Server.run enUS (calmEnv "AGREE" (Some [])) (Some sampleUrl) []
  = (Ok (mkResponse 200 (ResultBody nanResult)),
     mkWorld [] [EvList sampleVideo]) /\
  percentage 0 0 = JsNumber.FxNaN /\
  Server.run enUS (calmEnv "AGREE" None) (Some sampleUrl) []
  = (Ok (mkResponse 404 (ErrorBody "No comments found")),
     mkWorld [] [EvList sampleVideo]).
Proof. repeat split; vm_compute; reflexivity. Qed.

(* ================================================================= *)
(** ** What the caller sees of a failure *)






Lemma run_cases locale env url docs :
  (url = None /\
   Server.run locale env url docs
   = (Ok (mkResponse 500 (ErrorBody "Failed to analyze comments")),
      mkWorld docs [EvLogError])) \/
  (exists u,
      url = Some u /\ Server.extractVideoId u = None /\
      Server.run locale env url docs
      = (Ok (mkResponse 400 (ErrorBody "Invalid YouTube URL")),
         mkWorld docs [])) \/
  (exists u video,
      url = Some u /\ Server.extractVideoId u = Some video /\
      ((commentThreads env video = ListFails /\
        Server.run locale env url docs
        = (Ok (mkResponse 500 (ErrorBody "Failed to analyze comments")),
           mkWorld docs [EvList video; EvLogError])) \/
       (commentThreads env video = ListData None /\
        Server.run locale env url docs
        = (Ok (mkResponse 404 (ErrorBody "No comments found")),
           mkWorld docs [EvList video])) \/
       (exists comments,
           commentThreads env video = ListData (Some comments) /\
           ((exists acc w,
                theLoop locale env video comments docs = (Ok acc, w) /\
                Server.run locale env url docs
                = (Ok (mkResponse 200 (ResultBody (Server.resultOf acc))),
                   w)) \/
            (exists e w,
                theLoop locale env video comments docs = (Throw e, w) /\
                Server.run locale env url docs
                = (Ok (mkResponse 500
                         (ErrorBody "Failed to analyze comments")),
                   mkWorld (db w) (trace w ++ [EvLogError]))))))).
Proof.
  destruct url as [u|]; [|left; split; reflexivity].
  right. destruct (Server.extractVideoId u) as [video|] eqn:Hid.
  - right. exists u, video. split; [reflexivity|]. split; [exact Hid|].
    destruct (commentThreads env video) as [|[comments|]] eqn:Hitems.
    + left. split; [reflexivity|].
      unfold Server.run, Server.analyze, tryCatch, Server.analyzeBody.
      rewrite Hid. unfold bind at 1. unfold Server.listComments.
      unfold bind at 1. unfold emit at 1. rewrite Hitems. reflexivity.
    + right. right. exists comments. split; [reflexivity|].
      destruct (theLoop locale env video comments docs) as [[acc|e] w] eqn:Hloop.
      * left. exists acc, w. split; [reflexivity|].
        exact (run_of_loop locale env u video comments docs Hid Hitems acc w
                           Hloop).
      * right. exists e, w. split; [reflexivity|].
        exact (run_of_loop_throw locale env u video comments docs Hid Hitems e w
                                 Hloop).
    + right. left. split; [reflexivity|].
      now apply run_missing_items.
  - left. exists u. split; [reflexivity|]. split; [exact Hid|].
    unfold Server.run, Server.analyze, tryCatch, Server.analyzeBody.
    rewrite Hid. reflexivity.
Qed.


(* ================================================================= *)
(** ** Sample requests: the properties at work *)

Lemma percentage_sum_invariant_witness :
  exists ka kd kn,
    agreePercent (sentimentAnalysis mixedResult)
    = JsNumber.FxDecimal false ka /\
    disagreePercent (sentimentAnalysis mixedResult)
    = JsNumber.FxDecimal false kd /\
    neutralPercent (sentimentAnalysis mixedResult)
    = JsNumber.FxDecimal false kn /\
    (999 <= ka + kd + kn <= 1001)%Z.
Proof.
  apply (percentage_sum_invariant enUS
           (offlineEnv (Some sampleComments)) (Some sampleUrl) []
           mixedResult
           (snd (Server.run enUS (offlineEnv (Some sampleComments))
                            (Some sampleUrl) []))).
  - vm_compute. reflexivity.
  - cbn. lia.
Defined.

(** Two rate-limit failures, then a reply: the reply decides, after
    delays of 2000 and 4000 ms. *)
Example retry_twice_then_reply :
  Server.analyzeSentiment
    (fun k => if k <? 2 then Failure (Some 429%Z) else Reply " neutral ")
    "this is terrible and awful" 3 2000
  = (neutral,
     [Generate "this is terrible and awful"; LogRetry 2000; Sleep 2000;
      Generate "this is terrible and awful"; LogRetry 4000; Sleep 4000;
      Generate "this is terrible and awful"]).
Proof. reflexivity. Qed.

(** Four rate-limit failures: the fallback decides. *)
Example retry_exhausted :
  Server.analyzeSentiment (fun _ => Failure (Some 429%Z))
                          "this is terrible and awful" 3 2000
  = (disagree,
     [Generate "this is terrible and awful"; LogRetry 2000; Sleep 2000;
      Generate "this is terrible and awful"; LogRetry 4000; Sleep 4000;
      Generate "this is terrible and awful"; LogRetry 8000; Sleep 8000;
      Generate "this is terrible and awful"; LogFallback]).
Proof. reflexivity. Qed.

(** C9 as stated fails for the scheduler of the server that stores the
    comments: on 25 comments it makes 25 calls one after the other, no
    batch, and waits 25 times, the last time after the last call. *)
Lemma unbatched_scheduler_waits :
  List.length (repeat commentA 25) = 25 /\
  List.length
    (filter isWait
            (snd (Server.rateLimiter (fun _ _ => Reply "AGREE")
                                     (repeat commentA 25))))
  = 25 /\
  List.length
    (filter (fun e => match e with Batch _ => true | _ => false end)
            (snd (Server.rateLimiter (fun _ _ => Reply "AGREE")
                                     (repeat commentA 25))))
  = 0 /\
  last (snd (Server.rateLimiter (fun _ _ => Reply "AGREE")
                                (repeat commentA 25)))
       (Call [])
  = Wait 2000.
Proof. repeat split; vm_compute; reflexivity. Qed.

(** The batched scheduler when [analyzeSentiment] is not defined: every
    call throws and every comment is counted as neutral. *)
Example batched_scheduler_without_classifier :
  option_map fst
    (BatchServer.rateLimiterDefault (fun _ _ => (Throw ReferenceError, []))
                                    sampleComments)
  = Some [neutral; neutral; neutral].
Proof. vm_compute. reflexivity. Qed.

Example extractVideoId_samples :
  Server.extractVideoId sampleUrl = Some sampleVideo /\
  Server.extractVideoId "https://youtu.be/dQw4w9WgXcQ" = Some sampleVideo /\
  Server.extractVideoId "not a link" = None.
Proof. repeat split; vm_compute; reflexivity. Qed.

(* ================================================================= *)
(** * Further properties of the code *)

(* ================================================================= *)
(** ** [extractVideoId] *)

Lemma takeId_sound n :
  forall s r,
    Server.takeId n s = Some r ->
    String.length r = n /\ allChars Server.isIdChar r = true /\
    exists post, s = (r ++ post)%string.
Proof.
  induction n as [|n IH]; intros s r H; cbn [Server.takeId] in H.
  - injection H as <-. repeat split. exists s. reflexivity.
  - destruct s as [|c s]; [discriminate|].
    destruct (Server.isIdChar c) eqn:Hc; [|discriminate].
    destruct (Server.takeId n s) as [r'|] eqn:Hr; [|discriminate].
    injection H as <-.
    destruct (IH s r' Hr) as (Hlen & Hall & post & ->).
    cbn [String.length allChars]. rewrite Hc, Hall, Hlen.
    repeat split. exists post. reflexivity.
Qed.

Lemma takeId_complete r :
  forall post,
    allChars Server.isIdChar r = true ->
    Server.takeId (String.length r) (r ++ post) = Some r.
Proof.
  induction r as [|c r IH]; intros post H; [reflexivity|].
  cbn [allChars] in H. apply andb_true_iff in H as [Hc Hr].
  cbn [String.length Server.takeId append]. rewrite Hc, IH by assumption.
  reflexivity.
Qed.

Lemma matchHere_sound s v :
  Server.matchHere s = Some v -> refersTo s EmptyString v.
Proof.
  unfold Server.matchHere, refersTo, isVideoId. intros H.
  destruct s as [|c rest]; [discriminate|].
  destruct (Ascii.eqb c "v") eqn:Hv.
  - apply Ascii.eqb_eq in Hv. subst c.
    destruct rest as [|d rest']; [discriminate|].
    destruct (Ascii.eqb d "=") eqn:Hd; [|discriminate].
    apply Ascii.eqb_eq in Hd. subst d.
    apply takeId_sound in H as (Hlen & Hall & post & ->).
    repeat split; try assumption. exists post. left. reflexivity.
  - destruct (Ascii.eqb c "/") eqn:Hs; [|discriminate].
    apply Ascii.eqb_eq in Hs. subst c.
    apply takeId_sound in H as (Hlen & Hall & post & ->).
    repeat split; try assumption. exists post. right. reflexivity.
Qed.

Lemma matchHere_v r :
  Server.matchHere (String "v" (String "=" r)) = Server.takeId 11 r.
Proof. reflexivity. Qed.

Lemma matchHere_slash r :
  Server.matchHere (String "/" r) = Server.takeId 11 r.
Proof. reflexivity. Qed.

Lemma matchHere_complete s v :
  refersTo s EmptyString v -> Server.matchHere s = Some v.
Proof.
  intros ([Hlen Hall] & post & [-> | ->]); cbn [append].
  - rewrite matchHere_v, <- Hlen. now apply takeId_complete.
  - rewrite matchHere_slash, <- Hlen. now apply takeId_complete.
Qed.

Lemma refersTo_shift c url pre v :
  refersTo url pre v -> refersTo (String c url) (String c pre) v.
Proof.
  intros (Hv & post & [-> | ->]); split; try assumption;
    exists post; [left | right]; reflexivity.
Qed.

Lemma refersTo_unshift c url pre v :
  refersTo (String c url) (String c pre) v -> refersTo url pre v.
Proof.
  intros (Hv & post & [H | H]); split; try assumption;
    exists post; [left | right]; cbn [append] in H |- *; congruence.
Qed.

Lemma refersTo_head c url d pre v :
  refersTo (String c url) (String d pre) v -> c = d.
Proof. intros (_ & post & [H | H]); cbn [append] in H; congruence. Qed.

Lemma extractVideoId_here s v :
  Server.matchHere s = Some v -> Server.extractVideoId s = Some v.
Proof. intros H. destruct s; cbn [Server.extractVideoId]; now rewrite H. Qed.

Lemma extractVideoId_skip c rest :
  Server.matchHere (String c rest) = None ->
  Server.extractVideoId (String c rest) = Server.extractVideoId rest.
Proof. intros H. cbn [Server.extractVideoId]. now rewrite H. Qed.

(** X1. What [extractVideoId] returns is a run of eleven identifier
    characters that stands in the link right after ["v="] or ["/"], and
    no such run starts further to the left. *)
Theorem extractVideoId_sound :
  forall url v,
    Server.extractVideoId url = Some v ->
    exists pre,
      refersTo url pre v /\
      forall pre' v',
        refersTo url pre' v' -> String.length pre <= String.length pre'.
Proof.
  induction url as [|c url IH]; intros v H; cbn [Server.extractVideoId] in H.
  - destruct (Server.matchHere "") eqn:Hm; [|discriminate].
    cbn in Hm. discriminate.
  - destruct (Server.matchHere (String c url)) as [v0|] eqn:Hm.
    + injection H as <-. exists EmptyString.
      split; [now apply matchHere_sound|]. intros; cbn; lia.
    + destruct (IH v H) as (pre & Href & Hleft).
      exists (String c pre). split; [now apply refersTo_shift|].
      intros pre' v' Href'. destruct pre' as [|d pre'].
      * apply matchHere_complete in Href'. congruence.
      * pose proof (refersTo_head _ _ _ _ _ Href') as <-.
        apply refersTo_unshift in Href'. apply Hleft in Href'.
        cbn. lia.
Qed.

(** X2. [extractVideoId] answers [null] exactly for the links that hold
    no run of eleven identifier characters right after ["v="] or
    ["/"]. *)
Theorem extractVideoId_none :
  forall url,
    Server.extractVideoId url = None <->
    (forall pre v, ~ refersTo url pre v).
Proof.
  induction url as [|c url IH]; cbn [Server.extractVideoId].
  - split; [|reflexivity].
    intros _ pre v ([Hlen _] & post & [H | H]);
      destruct pre; cbn in H; discriminate.
  - destruct (Server.matchHere (String c url)) as [v0|] eqn:Hm.
    + split; [discriminate|]. intros Hno. exfalso.
      apply (Hno EmptyString v0). now apply matchHere_sound.
    + rewrite IH. split.
      * intros Hno pre v Href. destruct pre as [|d pre].
        -- apply matchHere_complete in Href. congruence.
        -- pose proof (refersTo_head _ _ _ _ _ Href) as <-.
           apply refersTo_unshift in Href. exact (Hno _ _ Href).
      * intros Hno pre v Href.
        exact (Hno _ _ (refersTo_shift c _ _ _ Href)).
Qed.

(** X3. The two usual forms of a link give their video: for every run
    [v] of eleven identifier characters and whatever follows it,
    [extractVideoId] returns [v] from the watch link and from the short
    link. *)
Theorem extractVideoId_usual_links :
  forall v post,
    isVideoId v ->
    Server.extractVideoId
      ("https://www.youtube.com/watch?v=" ++ v ++ post)%string = Some v /\
    Server.extractVideoId ("https://youtu.be/" ++ v ++ post)%string = Some v.
Proof.
  intros v post [Hlen Hall].
  pose proof (takeId_complete v post Hall) as Htake. rewrite Hlen in Htake.
  split; cbn [append];
    repeat (rewrite extractVideoId_skip by reflexivity);
    apply extractVideoId_here.
  - rewrite matchHere_v. exact Htake.
  - rewrite matchHere_slash. exact Htake.
Qed.

Lemma extractVideoId_usual_links_witness :
  Server.extractVideoId
    ("https://www.youtube.com/watch?v=" ++ sampleVideo ++ "&t=42s")%string
  = Some sampleVideo /\
  Server.extractVideoId ("https://youtu.be/" ++ sampleVideo ++ "&t=42s")%string
  = Some sampleVideo.
Proof.
  apply (extractVideoId_usual_links sampleVideo).
  split; vm_compute; reflexivity.
Defined.

Lemma extractVideoId_sound_witness :
  exists pre,
    refersTo sampleUrl pre sampleVideo /\
    forall pre' v',
      refersTo sampleUrl pre' v' -> String.length pre <= String.length pre'.
Proof.
  apply (extractVideoId_sound sampleUrl sampleVideo).
  vm_compute. reflexivity.
Defined.

(* ================================================================= *)
(** ** [maskUsername] *)

Lemma length_repeatStar n : String.length (Server.repeatStar n) = n.
Proof. induction n; cbn; congruence. Qed.

Lemma get_repeatStar n i :
  i < n -> String.get i (Server.repeatStar n) = Some "*"%char.
Proof.
  revert i. induction n as [|n IH]; intros i Hi; [lia|].
  destruct i as [|i]; [reflexivity|]. cbn. apply IH. lia.
Qed.

(** X4. [maskUsername] throws a [RangeError] on the empty name; on any
    other name it returns a name of the same length that keeps the
    first character and has a star everywhere else, so that the result
    depends on the first character and the length only, and masking a
    masked name changes nothing. *)
Theorem maskUsername_shape :
  Server.maskUsername EmptyString = Throw RangeError /\
  (forall c rest,
      exists masked,
        Server.maskUsername (String c rest) = Ok masked /\
        String.length masked = String.length (String c rest) /\
        String.get 0 masked = Some c /\
        (forall i, 0 < i < String.length masked ->
                   String.get i masked = Some "*"%char) /\
        Server.maskUsername masked = Ok masked) /\
  (forall c rest rest',
      String.length rest = String.length rest' ->
      Server.maskUsername (String c rest)
      = Server.maskUsername (String c rest')).
Proof.
  split; [reflexivity|]. split.
  - intros c rest. eexists. split; [reflexivity|].
    cbn [String.length]. rewrite length_repeatStar.
    split; [reflexivity|]. split; [reflexivity|]. split.
    + intros [|i] Hi; [lia|]. cbn. apply get_repeatStar. lia.
    + cbn [Server.maskUsername]. now rewrite length_repeatStar.
  - intros c rest rest' H. cbn [Server.maskUsername]. now rewrite H.
Qed.

(* ================================================================= *)
(** ** Letter case *)

Lemma mapString_compose f g s :
  JsString.mapString f (JsString.mapString g s)
  = JsString.mapString (fun c => f (g c)) s.
Proof. induction s; cbn; congruence. Qed.

Lemma mapString_ext f g s :
  (forall c, f c = g c) -> JsString.mapString f s = JsString.mapString g s.
Proof. intros H. induction s; cbn; congruence. Qed.

Lemma upper_lower c :
  JsString.upperChar (JsString.lowerChar c) = JsString.upperChar c.
Proof.
  destruct c as [[] [] [] [] [] [] [] []]; vm_compute; reflexivity.
Qed.

Lemma lower_upper c :
  JsString.lowerChar (JsString.upperChar c) = JsString.lowerChar c.
Proof.
  destruct c as [[] [] [] [] [] [] [] []]; vm_compute; reflexivity.
Qed.

Lemma lower_lower c :
  JsString.lowerChar (JsString.lowerChar c) = JsString.lowerChar c.
Proof.
  destruct c as [[] [] [] [] [] [] [] []]; vm_compute; reflexivity.
Qed.

Lemma isSpace_lower c :
  JsString.isSpace (JsString.lowerChar c) = JsString.isSpace c.
Proof.
  destruct c as [[] [] [] [] [] [] [] []]; vm_compute; reflexivity.
Qed.

Lemma isSpace_upper c :
  JsString.isSpace (JsString.upperChar c) = JsString.isSpace c.
Proof.
  destruct c as [[] [] [] [] [] [] [] []]; vm_compute; reflexivity.
Qed.

Section TrimCase.

Variable f : ascii -> ascii.
Hypothesis f_space : forall c, JsString.isSpace (f c) = JsString.isSpace c.

Lemma trimStart_mapString s :
  JsString.trimStart (JsString.mapString f s)
  = JsString.mapString f (JsString.trimStart s).
Proof.
  induction s as [|c s IH]; [reflexivity|].
  cbn [JsString.mapString JsString.trimStart]. rewrite f_space.
  destruct (JsString.isSpace c); [exact IH | reflexivity].
Qed.

Lemma trimEnd_mapString s :
  JsString.trimEnd (JsString.mapString f s)
  = JsString.mapString f (JsString.trimEnd s).
Proof.
  induction s as [|c s IH]; [reflexivity|].
  cbn [JsString.mapString JsString.trimEnd]. rewrite IH, f_space.
  destruct (JsString.trimEnd s); cbn [JsString.mapString];
    [destruct (JsString.isSpace c)|]; reflexivity.
Qed.

Lemma trim_mapString s :
  JsString.trim (JsString.mapString f s)
  = JsString.mapString f (JsString.trim s).
Proof.
  unfold JsString.trim. now rewrite trimStart_mapString, trimEnd_mapString.
Qed.

End TrimCase.

(** X5. The label read off a reply of the language model does not
    depend on the case of its letters: the reply in lower case and the
    reply in upper case are read like the reply itself. *)
Theorem labelOf_ignores_case :
  forall reply,
    Server.labelOf (JsString.toLowerCase reply) = Server.labelOf reply /\
    Server.labelOf (JsString.toUpperCase reply) = Server.labelOf reply.
Proof.
  intros reply. unfold Server.labelOf, JsString.toLowerCase,
    JsString.toUpperCase.
  rewrite (trim_mapString _ isSpace_lower), (trim_mapString _ isSpace_upper).
  rewrite !mapString_compose.
  rewrite (mapString_ext _ _ _ upper_lower).
  assert (Hup : forall c, JsString.upperChar (JsString.upperChar c)
                          = JsString.upperChar c)
    by (intros c; destruct c as [[] [] [] [] [] [] [] []];
        vm_compute; reflexivity).
  rewrite (mapString_ext _ _ _ Hup). split; reflexivity.
Qed.

(** X6. Both copies of the fallback classifier ignore the case of the
    letters of a comment made of ASCII characters: the comment in upper
    case and the comment in lower case are classified like the comment
    itself. (Outside ASCII this fails in JavaScript, where the upper
    case of U+017F is S and that of U+0131 is I.) *)
Theorem fallback_ignores_case :
  forall text,
    isAscii text = true ->
    Server.fallbackSentimentAnalysis (JsString.toUpperCase text)
    = Server.fallbackSentimentAnalysis text /\
    Server.fallbackSentimentAnalysis (JsString.toLowerCase text)
    = Server.fallbackSentimentAnalysis text /\
    BatchServer.fallbackSentimentAnalysis (JsString.toUpperCase text)
    = BatchServer.fallbackSentimentAnalysis text /\
    BatchServer.fallbackSentimentAnalysis (JsString.toLowerCase text)
    = BatchServer.fallbackSentimentAnalysis text.
Proof.
  intros text _.
  assert (Hu : JsString.toLowerCase (JsString.toUpperCase text)
               = JsString.toLowerCase text).
  { unfold JsString.toLowerCase, JsString.toUpperCase.
    rewrite mapString_compose. apply mapString_ext, lower_upper. }
  assert (Hl : JsString.toLowerCase (JsString.toLowerCase text)
               = JsString.toLowerCase text).
  { unfold JsString.toLowerCase.
    rewrite mapString_compose. apply mapString_ext, lower_lower. }
  unfold Server.fallbackSentimentAnalysis,
    BatchServer.fallbackSentimentAnalysis, keywordSentiment.
  rewrite Hu, Hl. repeat split; reflexivity.
Qed.

Lemma fallback_ignores_case_witness :
  isAscii "I LOVE it, Great video" = true /\
  Server.fallbackSentimentAnalysis
    (JsString.toUpperCase "I LOVE it, Great video")
  = Server.fallbackSentimentAnalysis "I LOVE it, Great video" /\
  Server.fallbackSentimentAnalysis
    (JsString.toLowerCase "I LOVE it, Great video")
  = Server.fallbackSentimentAnalysis "I LOVE it, Great video" /\
  BatchServer.fallbackSentimentAnalysis
    (JsString.toUpperCase "I LOVE it, Great video")
  = BatchServer.fallbackSentimentAnalysis "I LOVE it, Great video" /\
  BatchServer.fallbackSentimentAnalysis
    (JsString.toLowerCase "I LOVE it, Great video")
  = BatchServer.fallbackSentimentAnalysis "I LOVE it, Great video".
Proof.
  split; [reflexivity|].
  apply (fallback_ignores_case "I LOVE it, Great video"). reflexivity.
Defined.

(* ================================================================= *)
(** ** Time and requests of the scheduler of the server *)

Lemma sumZ_backoff k :
  k <= 3 -> (0 <= sumZ (backoff k 2000) <= 14000)%Z.
Proof.
  intros Hk. destruct k as [|[|[|[|k]]]]; cbn; lia.
Qed.

Lemma analyzeSentiment_cost gen text :
  (0 <= callDelay (snd (Server.analyzeSentiment gen text 3 2000))
   <= 14000)%Z /\
  1 <= List.length
         (filter isGenerate (snd (Server.analyzeSentiment gen text 3 2000)))
    <= 4.
Proof.
  destruct (analyzeSentiment_bounded text 3 gen 2000%Z)
    as (k & Hk & Hs & Hr).
  unfold callDelay. rewrite Hs, Hr. split; [now apply sumZ_backoff | lia].
Qed.

Lemma rateLimiterFrom_cost gen comments :
  forall i,
    let tr := snd (Server.rateLimiterFrom gen i comments) in
    (2000 * Z.of_nat (List.length comments) <= totalDelay tr
     <= 16000 * Z.of_nat (List.length comments))%Z /\
    List.length comments <= totalRequests tr <= 4 * List.length comments.
Proof.
  induction comments as [|c rest IH]; intros i; [cbn; lia|].
  cbn [Server.rateLimiterFrom]. specialize (IH (S i)).
  pose proof (analyzeSentiment_cost (gen i) (textDisplay c)) as Hc.
  destruct (Server.analyzeSentiment (gen i) (textDisplay c) 3 2000)
    as [s events].
  destruct (Server.rateLimiterFrom gen (S i) rest) as [ss tr].
  cbn [snd] in *. cbv zeta in IH.
  change (totalDelay (Call events :: Wait 2000 :: tr))
    with (callDelay events + (2000 + totalDelay tr))%Z.
  change (totalRequests (Call events :: Wait 2000 :: tr))
    with (List.length (filter isGenerate events) + (0 + totalRequests tr)).
  cbn [List.length]. rewrite Nat2Z.inj_succ. lia.
Qed.

(** X7. The scheduler of the server takes its time: for [n] comments it
    waits between 2000 n and 16000 n milliseconds in all (2000 after
    every comment and up to 14000 of backoff for it), and makes between
    n and 4 n requests to the language model. *)
Theorem rateLimiter_cost :
  forall gen comments,
    let tr := snd (Server.rateLimiter gen comments) in
    (2000 * Z.of_nat (List.length comments) <= totalDelay tr
     <= 16000 * Z.of_nat (List.length comments))%Z /\
    List.length comments <= totalRequests tr <= 4 * List.length comments.
Proof. intros gen comments. apply rateLimiterFrom_cost. Qed.

(* ================================================================= *)
(** ** The ways out of the handler *)

(** X8. The handler answers every request with one of four responses:
    status 200 with a result, 400 "Invalid YouTube URL", 404 "No
    comments found" or 500 "Failed to analyze comments". The status is
    400 exactly when the reference holds no video identifier, 404
    exactly when the comment source answers without a list of items,
    and 500 when the request has no reference or the comment source
    rejects. *)
Theorem run_status :
  forall locale env url docs,
    exists resp w,
      Server.run locale env url docs = (Ok resp, w) /\
      ((exists r, resp = mkResponse 200 (ResultBody r)) \/
       resp = mkResponse 400 (ErrorBody "Invalid YouTube URL") \/
       resp = mkResponse 404 (ErrorBody "No comments found") \/
       resp = mkResponse 500 (ErrorBody "Failed to analyze comments")) /\
      (status resp = 400 <->
       exists u, url = Some u /\ Server.extractVideoId u = None) /\
      (status resp = 404 <->
       exists u video,
         url = Some u /\ Server.extractVideoId u = Some video /\
         commentThreads env video = ListData None) /\
      (url = None -> status resp = 500) /\
      (forall u video,
          url = Some u -> Server.extractVideoId u = Some video ->
          commentThreads env video = ListFails -> status resp = 500).
Proof.
  intros locale env url docs.
  destruct (run_cases locale env url docs)
    as [[-> H]
       |[(u & -> & Hid & H)
        |(u & video & -> & Hid &
          [[Hitems H]
          |[[Hitems H]
           |(comments & Hitems &
             [(acc & w & _ & H)|(e & w & _ & H)])]])]];
    rewrite H; eexists; eexists; (split; [reflexivity|]);
    cbn [status].
  - split; [auto|]. split; [split; [discriminate|]|].
    + intros (u & Hu & _). discriminate.
    + split; [split; [discriminate|intros (u & v & Hu & _); discriminate]|].
      split; [reflexivity|]. intros u v Hu. discriminate.
  - split; [auto|]. split; [split; [eauto|reflexivity]|].
    split; [split; [discriminate|]|].
    + intros (u' & v & Hu & Hid' & _). injection Hu as <-. congruence.
    + split; [discriminate|]. intros u' v Hu Hid'.
      injection Hu as <-. congruence.
  - split; [auto|]. split; [split; [discriminate|]|].
    + intros (u' & Hu & Hid'). injection Hu as <-. congruence.
    + split; [split; [discriminate|]|].
      * intros (u' & v & Hu & Hid' & Hit). injection Hu as <-.
        congruence.
      * split; reflexivity.
  - split; [auto|]. split; [split; [discriminate|]|].
    + intros (u' & Hu & Hid'). injection Hu as <-. congruence.
    + split; [split; [eauto|reflexivity]|].
      split; [discriminate|]. intros u' v Hu Hid' Hit.
      injection Hu as <-. congruence.
  - split; [eauto|]. split; [split; [discriminate|]|].
    + intros (u' & Hu & Hid'). injection Hu as <-. congruence.
    + split; [split; [discriminate|]|].
      * intros (u' & v & Hu & Hid' & Hit). injection Hu as <-.
        congruence.
      * split; [discriminate|]. intros u' v Hu Hid' Hit.
        injection Hu as <-. congruence.
  - split; [auto|]. split; [split; [discriminate|]|].
    + intros (u' & Hu & Hid'). injection Hu as <-. congruence.
    + split; [split; [discriminate|]|].
      * intros (u' & v & Hu & Hid' & Hit). injection Hu as <-.
        congruence.
      * split; [discriminate|]. intros; reflexivity.
Qed.

(** X9. A request that is answered with status 400 or 404 has touched
    nothing: the collection is as it was, no request went to the
    language model and the collection was neither searched nor written;
    with status 400 not even the comment source was asked. *)
Theorem run_early_exits :
  forall locale env url docs resp w,
    Server.run locale env url docs = (Ok resp, w) ->
    status resp = 400 \/ status resp = 404 ->
    db w = docs /\
    countRemoteCalls (trace w) = 0 /\
    filter isStoreEvent (trace w) = [] /\
    (status resp = 400 -> trace w = []) /\
    (status resp = 404 -> exists video, trace w = [EvList video]).
Proof.
  intros locale env url docs resp w Hrun Hstatus.
  destruct (run_cases locale env url docs)
    as [[-> H]
       |[(u & -> & Hid & H)
        |(u & video & -> & Hid &
          [[Hitems H]
          |[[Hitems H]
           |(comments & Hitems &
             [(acc & w' & _ & H)|(e & w' & _ & H)])]])]];
    rewrite H in Hrun; injection Hrun as <- <-; cbn [status] in Hstatus;
    try (destruct Hstatus; discriminate).
  - split; [reflexivity|]. split; [reflexivity|]. split; [reflexivity|].
    split; [reflexivity | discriminate].
  - split; [reflexivity|]. split; [reflexivity|]. split; [reflexivity|].
    split; [discriminate | intros _; now exists video].
Qed.

Lemma run_early_exits_witness :
  db (snd (Server.run enUS (calmEnv "AGREE" (Some sampleComments))
                      (Some "not a link"%string) [docA]))
  = [docA] /\
  countRemoteCalls
    (trace (snd (Server.run enUS (calmEnv "AGREE" (Some sampleComments))
                            (Some "not a link"%string) [docA])))
  = 0 /\
  filter isStoreEvent
    (trace (snd (Server.run enUS (calmEnv "AGREE" (Some sampleComments))
                            (Some "not a link"%string) [docA])))
  = [] /\
  (status (mkResponse 400 (ErrorBody "Invalid YouTube URL")) = 400 ->
   trace (snd (Server.run enUS (calmEnv "AGREE" (Some sampleComments))
                          (Some "not a link"%string) [docA]))
   = []) /\
  (status (mkResponse 400 (ErrorBody "Invalid YouTube URL")) = 404 ->
   exists video,
     trace (snd (Server.run enUS (calmEnv "AGREE" (Some sampleComments))
                            (Some "not a link"%string) [docA]))
     = [EvList video]).
Proof.
  apply (run_early_exits enUS (calmEnv "AGREE" (Some sampleComments))
                         (Some "not a link"%string) [docA]
                         (mkResponse 400 (ErrorBody "Invalid YouTube URL"))).
  - vm_compute. reflexivity.
  - left. reflexivity.
Defined.

(* ================================================================= *)
(** ** What a request leaves in the collection *)

Lemma lookup_app_none docs extra c :
  lookup (docs ++ extra) c = None -> lookup docs c = None.
Proof.
  unfold lookup. induction docs as [|d docs IH]; [reflexivity|].
  cbn. destruct (String.eqb (commentId d) (id c)); [discriminate | exact IH].
Qed.

Lemma lookup_none_fresh docs c :
  lookup docs c = None -> ~ In (id c) (map commentId docs).
Proof.
  unfold lookup. intros H Hin. apply in_map_iff in Hin as (d & Hd & Hin).
  apply (find_none _ _ H) in Hin. rewrite Hd, String.eqb_refl in Hin.
  discriminate.
Qed.

Lemma lookup_app_other docs d c :
  lookup docs c = None -> commentId d <> id c ->
  lookup (docs ++ [d]) c = None.
Proof.
  unfold lookup. intros H Hne. induction docs as [|d' docs IH].
  - cbn. apply String.eqb_neq in Hne. now rewrite Hne.
  - cbn in *. destruct (String.eqb (commentId d') (id c));
      [discriminate | now apply IH].
Qed.

Section LoopStore.

Variable locale : Locale.
Variable env : Env.
Variable video : string.
Variable sentiments : list Sentiment.

(** One iteration of the loop: it throws and leaves the collection as
    it was, or it counts a stored comment, or it counts and stores a
    new one. *)
Lemma forComments_step i c rest acc w :
  (exists e w',
      Server.forComments locale env video sentiments i (c :: rest) acc w
      = (Throw e, w') /\ db w' = db w) \/
  (exists d,
      findOneFails env i = false /\ lookup (db w) c = Some d /\
      Server.forComments locale env video sentiments i (c :: rest) acc w
      = Server.forComments locale env video sentiments (S i) rest
          (account locale acc (sentiment d) (timestamp d))
          (mkWorld (db w) (trace w ++ [EvFindOne (id c)]))) \/
  (exists masked,
      findOneFails env i = false /\ lookup (db w) c = None /\
      createFails env i = false /\
      Server.maskUsername (authorDisplayName c) = Ok masked /\
      Server.forComments locale env video sentiments i (c :: rest) acc w
      = Server.forComments locale env video sentiments (S i) rest
          (account locale acc (nth i sentiments neutral) (publishedAt c))
          (mkWorld (db w ++ [newDoc video sentiments i c masked])
                   ((trace w ++ [EvFindOne (id c)])
                      ++ [EvCreate (newDoc video sentiments i c masked)]))).
Proof.
  destruct (findOneFails env i) eqn:Hf.
  { left. apply forComments_store_failure. now left. }
  destruct (lookup (db w) c) as [d|] eqn:Hl.
  { right. left. exists d. split; [reflexivity|]. split; [reflexivity|].
    now apply forComments_found. }
  destruct (createFails env i) eqn:Hc.
  { left. apply forComments_store_failure. now right. }
  destruct (Server.maskUsername (authorDisplayName c)) as [masked|e] eqn:Hm.
  { right. right. exists masked. repeat (split; [reflexivity|]).
    now apply forComments_new. }
  left. cbn [Server.forComments].
  unfold bind at 1. unfold Server.findOne at 1.
  unfold bind at 1. unfold emit at 1. rewrite Hf.
  cbn [db trace]. fold (lookup (db w) c). rewrite Hl.
  unfold bind at 1. unfold bind at 1. unfold liftResult at 1. rewrite Hm.
  eexists; eexists. split; reflexivity.
Qed.

(** The collection after the loop, however it ended: the collection
    before it, followed by the documents of comments that were new. *)
Lemma forComments_db rest :
  forall i acc w,
  exists extra,
    db (snd (Server.forComments locale env video sentiments i rest acc w))
    = db w ++ extra /\
    forall d, In d extra ->
      exists k c masked,
        nth_error rest k = Some c /\
        Server.maskUsername (authorDisplayName c) = Ok masked /\
        d = newDoc video sentiments (i + k) c masked /\
        lookup (db w) c = None.
Proof.
  induction rest as [|c rest IH]; intros i acc w.
  - exists []. split; [cbn; now rewrite app_nil_r|]. intros d [].
  - destruct (forComments_step i c rest acc w)
      as [(e & w' & -> & Hdb)
         |[(d0 & _ & _ & ->)|(masked & _ & Hl & _ & Hm & ->)]].
    + exists []. split; [cbn [snd]; now rewrite app_nil_r|]. intros d [].
    + destruct (IH (S i) (account locale acc (sentiment d0) (timestamp d0))
                   (mkWorld (db w) (trace w ++ [EvFindOne (id c)])))
        as (extra & Hdb & Hextra).
      exists extra. split; [exact Hdb|].
      intros d Hd. destruct (Hextra d Hd) as (k & c' & m & Hk & Hm & -> & Hl).
      exists (S k), c', m. split; [exact Hk|]. split; [exact Hm|].
      split; [f_equal; lia | exact Hl].
    + destruct (IH (S i)
                   (account locale acc (nth i sentiments neutral) (publishedAt c))
                   (mkWorld (db w ++ [newDoc video sentiments i c masked])
                      ((trace w ++ [EvFindOne (id c)])
                         ++ [EvCreate (newDoc video sentiments i c masked)])))
        as (extra & Hdb & Hextra).
      exists (newDoc video sentiments i c masked :: extra). split.
      * rewrite Hdb. cbn [db]. now rewrite <- app_assoc.
      * intros d [<-|Hd].
        -- exists 0, c, masked. split; [reflexivity|]. split; [exact Hm|].
           split; [now rewrite Nat.add_0_r | exact Hl].
        -- destruct (Hextra d Hd) as (k & c' & m & Hk & Hm' & -> & Hl').
           exists (S k), c', m. split; [exact Hk|]. split; [exact Hm'|].
           split; [f_equal; lia|].
           cbn [db] in Hl'. now apply lookup_app_none in Hl'.
Qed.

(** The loop keeps the comment identifiers of the collection distinct. *)
Lemma forComments_nodup rest :
  forall i acc w,
    NoDup (map commentId (db w)) ->
    NoDup (map commentId
               (db (snd (Server.forComments locale env video sentiments i rest
                                            acc w)))).
Proof.
  induction rest as [|c rest IH]; intros i acc w Hnd; [exact Hnd|].
  destruct (forComments_step i c rest acc w)
    as [(e & w' & -> & Hdb)
       |[(d0 & _ & _ & ->)|(masked & _ & Hl & _ & Hm & ->)]].
  - cbn [snd]. now rewrite Hdb.
  - now apply IH.
  - apply IH. cbn [db]. rewrite map_app. apply NoDup_app.
    + exact Hnd.
    + cbn. constructor; [intros [] | constructor].
    + intros a Ha [<-|[]]. cbn [newDoc commentId] in Ha.
      now apply (lookup_none_fresh _ _ Hl).
Qed.

(** The loop over comments that are all new, with distinct identifiers,
    a collection that answers and stores and author names that mask:
    every comment is counted with the sentiment at its position and the
    month of its date, and one document per comment is stored, in
    order. *)
Lemma forComments_cold rest :
  forall i acc w,
    (forall c, In c rest -> lookup (db w) c = None) ->
    NoDup (map id rest) ->
    (forall k, k < List.length rest ->
               findOneFails env (i + k) = false /\
               createFails env (i + k) = false) ->
    (forall c, In c rest -> authorDisplayName c <> EmptyString) ->
    exists w',
      Server.forComments locale env video sentiments i rest acc w
      = (Ok (fold_left bump
                       (mapFrom (fun j _ => nth j sentiments neutral) i rest)
                       (fst acc),
             fold_left (fun d t => increment d (toLocaleMonth locale t))
                       (map publishedAt rest) (snd acc)),
         w') /\
      map commentId (db w') = map commentId (db w) ++ map id rest /\
      map sentiment (db w')
      = map sentiment (db w)
          ++ mapFrom (fun j _ => nth j sentiments neutral) i rest /\
      map comment (db w') = map comment (db w) ++ map textDisplay rest /\
      map timestamp (db w') = map timestamp (db w) ++ map publishedAt rest /\
      map videoId (db w') = map videoId (db w) ++ map (fun _ => video) rest.
Proof.
  induction rest as [|c rest IH]; intros i acc w Hnew Hnd Hstore Hname.
  - exists w. cbn. rewrite !app_nil_r. destruct acc. repeat split.
  - destruct (Hstore 0) as [Hf Hc]; [cbn; lia|].
    rewrite Nat.add_0_r in Hf, Hc.
    destruct (authorDisplayName c) as [|a name] eqn:Hn;
      [exfalso; apply (Hname c); [now left | assumption]|].
    assert (Hm : Server.maskUsername (authorDisplayName c)
                 = Ok (String a (Server.repeatStar (String.length name))))
      by (rewrite Hn; reflexivity).
    rewrite (forComments_new locale env video sentiments i c rest acc w _ Hf
                             (Hnew c (or_introl eq_refl)) Hm Hc).
    inversion Hnd as [|x l Hnotin Hnd']; subst.
    destruct (IH (S i)
                 (account locale acc (nth i sentiments neutral) (publishedAt c))
                 (mkWorld
                    (db w ++ [newDoc video sentiments i c
                                (String a (Server.repeatStar
                                             (String.length name)))])
                    ((trace w ++ [EvFindOne (id c)])
                       ++ [EvCreate
                             (newDoc video sentiments i c
                                (String a (Server.repeatStar
                                             (String.length name))))])))
      as (w' & Hrun & Hids & Hsent & Htext & Htime & Hvid);
      [| exact Hnd' | | |].
    + cbn [db]. intros c' Hin. apply lookup_app_other.
      * apply Hnew. now right.
      * cbn [newDoc commentId]. intros Heq. apply Hnotin.
        rewrite Heq. now apply in_map.
    + intros k Hk. replace (S i + k) with (i + S k) by lia.
      apply Hstore. cbn. lia.
    + intros c' Hin. apply Hname. now right.
    + exists w'. split; [exact Hrun|].
      cbn [db] in Hids, Hsent, Htext, Htime, Hvid.
      rewrite Hids, Hsent, Htext, Htime, Hvid, !map_app.
      cbn [map mapFrom newDoc commentId sentiment comment timestamp videoId].
      rewrite <- !app_assoc. repeat split.
Qed.

End LoopStore.

Lemma mapFrom_nth (sentiments : list Sentiment) :
  forall (pre : list Sentiment) (comments : list CommentThread),
    List.length sentiments = List.length comments ->
    mapFrom (fun j _ => nth j (pre ++ sentiments) neutral)
            (List.length pre) comments
    = sentiments.
Proof.
  induction sentiments as [|s sentiments IH]; intros pre comments Hlen;
    destruct comments as [|c comments]; try discriminate; [reflexivity|].
  cbn [mapFrom]. rewrite app_nth2, Nat.sub_diag by lia. cbn [nth]. f_equal.
  specialize (IH (pre ++ [s]) comments).
  rewrite <- app_assoc, length_app in IH. cbn in IH.
  rewrite Nat.add_1_r in IH. apply IH. cbn in Hlen. lia.
Qed.

Lemma rateLimiter_nth gen comments k c :
  nth_error comments k = Some c ->
  nth k (fst (Server.rateLimiter gen comments)) neutral
  = fst (Server.analyzeSentiment (gen k) (textDisplay c) 3 2000).
Proof.
  intros H. apply nth_error_nth. unfold Server.rateLimiter.
  now rewrite rateLimiterFrom_sentiments, nth_error_mapFrom, H.
Qed.

Lemma run_db locale env url docs :
  db (snd (Server.run locale env url docs)) = docs \/
  exists u video comments,
    url = Some u /\ Server.extractVideoId u = Some video /\
    commentThreads env video = ListData (Some comments) /\
    db (snd (Server.run locale env url docs))
    = db (snd (theLoop locale env video comments docs)).
Proof.
  destruct (run_cases locale env url docs)
    as [[-> H]
       |[(u & -> & Hid & H)
        |(u & video & -> & Hid &
          [[Hitems H]
          |[[Hitems H]
           |(comments & Hitems &
             [(acc & w & Hloop & H)|(e & w & Hloop & H)])]])]];
    rewrite H; try (left; reflexivity);
    right; exists u, video, comments; rewrite Hloop; auto.
Qed.

(** X10. No request removes or changes a document: the collection after
    a request, however the request ended, is the collection before it
    followed by new documents. Each new document belongs to a comment
    of the listed video that the collection did not hold, and keeps the
    identifier of the video and of the comment, the text and date of
    the comment, the masked name of its author and the sentiment the
    scheduler returned at the position of the comment. *)
Theorem run_store_append_only :
  forall locale env url docs,
  exists extra,
    db (snd (Server.run locale env url docs)) = docs ++ extra /\
    forall d, In d extra ->
      exists u video comments i c masked,
        url = Some u /\ Server.extractVideoId u = Some video /\
        commentThreads env video = ListData (Some comments) /\
        nth_error comments i = Some c /\
        lookup docs c = None /\
        Server.maskUsername (authorDisplayName c) = Ok masked /\
        d = mkDoc video (id c) masked (textDisplay c)
                  (fst (Server.analyzeSentiment (model env i) (textDisplay c)
                                                3 2000))
                  (publishedAt c).
Proof.
  intros locale env url docs.
  destruct (run_db locale env url docs)
    as [H|(u & video & comments & -> & Hid & Hitems & H)].
  - exists []. split; [now rewrite app_nil_r|]. intros d [].
  - unfold theLoop in H.
    destruct (forComments_db locale env video
                (fst (Server.rateLimiter (model env) comments)) comments 0
                (mkTotals 0 0 0, allMonths)
                (loopStart env video comments docs))
      as (extra & Hdb & Hextra).
    exists extra. split; [now rewrite H, Hdb|].
    intros d Hd. destruct (Hextra d Hd) as (k & c & m & Hk & Hm & -> & Hl).
    exists u, video, comments, k, c, m.
    split; [reflexivity|]. split; [exact Hid|]. split; [exact Hitems|].
    split; [exact Hk|]. split; [exact Hl|].
    split; [exact Hm|]. unfold newDoc. f_equal. cbn [Nat.add].
    now apply rateLimiter_nth.
Qed.

(** X11. A request keeps the comment identifiers of the collection
    distinct: a document is only created for an identifier the
    collection does not hold, also when the comment source lists a
    comment twice. *)
Theorem run_keeps_ids_distinct :
  forall locale env url docs,
    NoDup (map commentId docs) ->
    NoDup (map commentId (db (snd (Server.run locale env url docs)))).
Proof.
  intros locale env url docs Hnd.
  destruct (run_db locale env url docs)
    as [->|(u & video & comments & _ & _ & _ & ->)]; [exact Hnd|].
  now apply forComments_nodup.
Qed.

Lemma run_keeps_ids_distinct_witness :
  NoDup (map commentId
             (db (snd (Server.run enUS (calmEnv "AGREE"
                                           (Some (commentA :: sampleComments)))
                                  (Some sampleUrl) [docA])))).
Proof.
  apply (run_keeps_ids_distinct enUS
           (calmEnv "AGREE" (Some (commentA :: sampleComments)))
           (Some sampleUrl) [docA]).
  cbn. constructor; [intros [] | constructor].
Defined.

(** X12. After a response with status 200 the collection holds a
    document for every listed comment, and the result of the response
    can be read off the collection: it counts, for every listed
    comment, the sentiment and the month of the first document with the
    identifier of the comment. *)
Theorem run_result_from_store :
  forall locale env url docs r w,
    Server.run locale env url docs = (Ok (mkResponse 200 (ResultBody r)), w) ->
    exists u video comments,
      url = Some u /\ Server.extractVideoId u = Some video /\
      commentThreads env video = ListData (Some comments) /\
      (forall c, In c comments ->
                 exists d, lookup (db w) c = Some d /\
                           In d (db w) /\ commentId d = id c) /\
      r = Server.resultOf
            (accountStored locale (db w) comments (mkTotals 0 0 0, allMonths)).
Proof.
  intros locale env url docs r w H.
  apply run_success_inv in H
    as (u & video & comments & acc & -> & Hid & Hitems & Hloop & ->).
  apply forComments_as_stored in Hloop as (_ & Hall & ->).
  exists u, video, comments. repeat (split; [assumption || reflexivity|]).
  split; [|reflexivity].
  intros c Hin. specialize (Hall c Hin).
  destruct (lookup (db w) c) as [d|] eqn:Hl; [|congruence].
  exists d. split; [reflexivity|]. now apply lookup_found.
Qed.

Lemma run_result_from_store_witness :
  exists u video comments,
    Some sampleUrl = Some u /\ Server.extractVideoId u = Some video /\
    commentThreads (offlineEnv (Some sampleComments)) video
    = ListData (Some comments) /\
    (forall c, In c comments ->
               exists d,
                 lookup (db (snd (Server.run enUS
                                    (offlineEnv (Some sampleComments))
                                    (Some sampleUrl) []))) c = Some d /\
                 In d (db (snd (Server.run enUS
                                  (offlineEnv (Some sampleComments))
                                  (Some sampleUrl) []))) /\
                 commentId d = id c) /\
    mixedResult
    = Server.resultOf
        (accountStored enUS
           (db (snd (Server.run enUS (offlineEnv (Some sampleComments))
                                (Some sampleUrl) [])))
           comments (mkTotals 0 0 0, allMonths)).
Proof.
  apply (run_result_from_store enUS (offlineEnv (Some sampleComments))
                               (Some sampleUrl) []).
  vm_compute. reflexivity.
Defined.

(** X13. A first request for a video: when the collection holds none
    of the listed comments, their identifiers are distinct, the
    collection answers and stores and no author name is empty, the
    response has status 200, its result tallies the sentiments the
    scheduler returned and the months of the dates of the comments, and
    the collection gains one document per comment, in the order of the
    list, with the sentiment of the scheduler at its position. *)
Theorem cold_run_tallies :
  forall locale env u video comments docs,
    Server.extractVideoId u = Some video ->
    commentThreads env video = ListData (Some comments) ->
    (forall c, In c comments -> lookup docs c = None) ->
    NoDup (map id comments) ->
    (forall i, i < List.length comments ->
               findOneFails env i = false /\ createFails env i = false) ->
    (forall c, In c comments -> authorDisplayName c <> EmptyString) ->
    exists w,
      Server.run locale env (Some u) docs
      = (Ok (mkResponse 200
               (ResultBody
                  (Server.resultOf
                     (tally (fst (Server.rateLimiter (model env) comments)),
                      histogram locale (map publishedAt comments))))),
         w) /\
      map commentId (db w) = map commentId docs ++ map id comments /\
      map sentiment (db w)
      = map sentiment docs ++ fst (Server.rateLimiter (model env) comments) /\
      map comment (db w) = map comment docs ++ map textDisplay comments /\
      map timestamp (db w) = map timestamp docs ++ map publishedAt comments /\
      map videoId (db w) = map videoId docs ++ map (fun _ => video) comments.
Proof.
  intros locale env u video comments docs Hid Hitems Hnew Hnd Hstore Hname.
  destruct (forComments_cold locale env video
              (fst (Server.rateLimiter (model env) comments)) comments 0
              (mkTotals 0 0 0, allMonths)
              (loopStart env video comments docs) Hnew Hnd Hstore Hname)
    as (w & Hloop & Hids & Hsent & Hrest).
  assert (Hnth : mapFrom
                   (fun j (_ : CommentThread) =>
                      nth j (fst (Server.rateLimiter (model env) comments))
                          neutral)
                   0 comments
                 = fst (Server.rateLimiter (model env) comments)).
  { assert (Hlen : List.length
                       (fst (Server.rateLimiter (model env) comments))
                     = List.length comments).
    { unfold Server.rateLimiter.
      now rewrite rateLimiterFrom_sentiments, length_mapFrom. }
    exact (mapFrom_nth _ [] comments Hlen). }
  rewrite Hnth in Hloop, Hsent.
  exists w. split.
  - exact (run_of_loop locale env u video comments docs Hid Hitems _ w Hloop).
  - split; [exact Hids|]. split; [exact Hsent | exact Hrest].
Qed.

Lemma cold_run_tallies_witness :
  exists w,
    Server.run enUS (offlineEnv (Some sampleComments)) (Some sampleUrl) []
    = (Ok (mkResponse 200
             (ResultBody
                (Server.resultOf
                   (tally (fst (Server.rateLimiter
                                  (model (offlineEnv (Some sampleComments)))
                                  sampleComments)),
                    histogram enUS (map publishedAt sampleComments))))),
       w) /\
    map commentId (db w) = map commentId [] ++ map id sampleComments /\
    map sentiment (db w)
    = map sentiment []
        ++ fst (Server.rateLimiter (model (offlineEnv (Some sampleComments)))
                                   sampleComments) /\
    map comment (db w) = map comment [] ++ map textDisplay sampleComments /\
    map timestamp (db w)
    = map timestamp [] ++ map publishedAt sampleComments /\
    map videoId (db w)
    = map videoId [] ++ map (fun _ => sampleVideo) sampleComments.
Proof.
  apply (cold_run_tallies enUS (offlineEnv (Some sampleComments)) sampleUrl
                          sampleVideo sampleComments []).
  - vm_compute. reflexivity.
  - reflexivity.
  - intros c _. reflexivity.
  - cbn. repeat constructor; cbn; intuition discriminate.
  - intros i _. split; reflexivity.
  - intros c [<-|[<-|[<-|[]]]]; discriminate.
Defined.

(* ================================================================= *)
(** ** The month object *)

(** X14. [sortMonths] returns the twelve months in calendar order
    whatever object it is given, and [distribution[month]++] on a
    property that is missing or holds NaN, or under a label that is
    none of the twelve, does not show in what [sortMonths] returns. *)
Theorem sortMonths_robust :
  forall d key,
    map fst (sortMonths d) = months /\
    (~ In key months \/ getProp d key = None \/ getProp d key = Some NaN ->
     sortMonths (increment d key) = sortMonths d).
Proof.
  intros d key. split.
  - unfold sortMonths. rewrite map_map. cbn [fst]. apply map_id.
  - intros H. unfold sortMonths. apply map_ext_in. intros m Hm.
    rewrite getProp_increment.
    destruct (String.eqb key m) eqn:Hk; [|reflexivity].
    apply String.eqb_eq in Hk. subst m.
    destruct H as [H|[H|H]]; [contradiction| |]; rewrite H; reflexivity.
Qed.

(* ================================================================= *)
(** ** The batched scheduler at other batch sizes *)

Lemma rateLimiterLoop_stuck analyzeSentiment comments delay :
  forall fuel i sentiments tr,
    i < List.length comments ->
    BatchServer.rateLimiterLoop analyzeSentiment fuel comments 0 delay
                                i sentiments tr
    = None.
Proof.
  induction fuel as [|fuel IH]; intros i sentiments tr Hi; [reflexivity|].
  cbn [BatchServer.rateLimiterLoop].
  destruct (i <? List.length comments) eqn:Hlt;
    [|apply Nat.ltb_ge in Hlt; lia].
  rewrite !Nat.add_0_r, Hlt. now apply IH.
Qed.

(** X15. With a batch size of 0 the loop of the batched scheduler does
    not end on a list that is not empty: the index stays where it is,
    so no number of iterations gives a result. On the empty list the
    scheduler returns at once, whatever the batch size. *)
Theorem rateLimiter_zero_batch_size :
  forall analyzeSentiment delay,
    (forall c rest fuel,
        BatchServer.rateLimiterLoop analyzeSentiment fuel (c :: rest) 0 delay
                                    0 [] []
        = None) /\
    (forall batchSize,
        BatchServer.rateLimiter analyzeSentiment [] batchSize delay
        = Some ([], [])).
Proof.
  intros analyzeSentiment delay. split.
  - intros c rest fuel. apply rateLimiterLoop_stuck. cbn. lia.
  - intros batchSize. reflexivity.
Qed.

Lemma length_chunksFuel {A} n (l : list A) :
  forall fuel,
    0 < n -> List.length l <= fuel ->
    List.length (chunksFuel fuel n l) = (List.length l + n - 1) / n.
Proof.
  intros fuel Hn. revert l.
  induction fuel as [|fuel IH]; intros l Hlen.
  - destruct l; [|cbn in Hlen; lia]. cbn.
    symmetry. apply Nat.div_small. lia.
  - destruct l as [|x l].
    + cbn. symmetry. apply Nat.div_small. lia.
    + cbn [chunksFuel]. set (len := List.length (x :: l)).
      assert (Hlen' : 0 < len <= S fuel) by (subst len; cbn in *; lia).
      change (S (List.length (chunksFuel fuel n (skipn n (x :: l))))
              = (len + n - 1) / n).
      rewrite IH by (rewrite length_skipn; fold len; lia).
      rewrite length_skipn. fold len.
      destruct (Nat.le_gt_cases n len) as [Hge|Hlt].
      * replace (len + n - 1) with ((len - n + n - 1) + 1 * n) by lia.
        rewrite Nat.div_add by lia. lia.
      * replace (len - n) with 0 by lia.
        cbn [Nat.add]. rewrite (Nat.div_small (n - 1) n) by lia.
        apply (Nat.div_unique _ _ 1 (len - 1)); lia.
Qed.

(** X16. For every positive batch size the batched scheduler returns,
    after one batch per started group of [batchSize] comments, that is
    the number of comments divided by the batch size and rounded up,
    with one wait of [delayBetweenBatches] between two batches and none
    after the last. *)
Theorem rateLimiter_batch_count :
  forall analyzeSentiment comments batchSize delayBetweenBatches,
    0 < batchSize ->
    exists sentiments batches,
      BatchServer.rateLimiter analyzeSentiment comments batchSize
                              delayBetweenBatches
      = Some (sentiments,
              intersperse (Wait delayBetweenBatches) (map Batch batches)) /\
      List.length batches
      = (List.length comments + batchSize - 1) / batchSize /\
      List.length
        (filter isWait
                (intersperse (Wait delayBetweenBatches) (map Batch batches)))
      = pred (List.length batches) /\
      List.length (List.concat batches) = List.length comments.
Proof.
  intros analyzeSentiment comments batchSize delay Hpos.
  eexists; eexists. split.
  - apply (rateLimiter_spec analyzeSentiment comments batchSize delay Hpos).
  - split; [|split].
    + rewrite length_map. unfold chunksOf.
      rewrite length_chunksFuel by (assumption || lia).
      cbn [skipn]. now rewrite length_mapFrom.
    + apply waits_intersperse.
    + rewrite <- concat_map. unfold chunksOf.
      rewrite chunksFuel_concat by (assumption || lia).
      cbn [skipn]. now rewrite length_map, length_mapFrom.
Qed.

Lemma rateLimiter_batch_count_witness :
  exists sentiments batches,
    BatchServer.rateLimiter
      (fun i text => (Ok (Server.fallbackSentimentAnalysis text), []))
      sampleComments 2 500
    = Some (sentiments, intersperse (Wait 500) (map Batch batches)) /\
    List.length batches = (List.length sampleComments + 2 - 1) / 2 /\
    List.length (filter isWait (intersperse (Wait 500) (map Batch batches)))
    = pred (List.length batches) /\
    List.length (List.concat batches) = List.length sampleComments.
Proof.
  apply (rateLimiter_batch_count
           (fun i text => (Ok (Server.fallbackSentimentAnalysis text), []))
           sampleComments 2 500%Z).
  lia.
Defined.

Lemma classifyOne_throws analyzeSentiment comments :
  (forall i text, exists e events,
        analyzeSentiment i text = (Throw e, events)) ->
  forall i,
    map fst (mapFrom (BatchServer.classifyOne analyzeSentiment) i comments)
    = map (fun _ => neutral) comments /\
    Forall (fun events => In LogError events)
           (map snd (mapFrom (BatchServer.classifyOne analyzeSentiment) i
                             comments)).
Proof.
  intros Hthrow. induction comments as [|c rest IH]; intros i.
  - split; [reflexivity | constructor].
  - cbn [mapFrom map]. destruct (IH (S i)) as [IH1 IH2].
    unfold BatchServer.classifyOne at 1 3.
    destruct (Hthrow i (textDisplay c)) as (e & events & ->).
    cbn [fst snd]. split.
    + now rewrite IH1.
    + constructor; [|exact IH2]. apply in_or_app. right. now left.
Qed.

(** X17. When every call of [analyzeSentiment] throws, as it does in
    the file of the batched scheduler, which does not define the
    function, the scheduler still returns: every comment is counted as
    neutral and every call has logged its error. *)
Theorem rateLimiter_without_classifier :
  forall analyzeSentiment comments batchSize delayBetweenBatches,
    0 < batchSize ->
    (forall i text, exists e events,
          analyzeSentiment i text = (Throw e, events)) ->
    exists batches,
      BatchServer.rateLimiter analyzeSentiment comments batchSize
                              delayBetweenBatches
      = Some (map (fun _ => neutral) comments,
              intersperse (Wait delayBetweenBatches) (map Batch batches)) /\
      Forall (fun events => In LogError events) (List.concat batches).
Proof.
  intros analyzeSentiment comments batchSize delay Hpos Hthrow.
  destruct (classifyOne_throws analyzeSentiment comments Hthrow 0)
    as [Hs Hlog].
  eexists. split.
  - rewrite (rateLimiter_spec analyzeSentiment comments batchSize delay Hpos).
    cbn [skipn]. now rewrite Hs.
  - rewrite <- concat_map. unfold chunksOf.
    rewrite chunksFuel_concat by (assumption || lia). exact Hlog.
Qed.

Lemma rateLimiter_without_classifier_witness :
  exists batches,
    BatchServer.rateLimiter (fun _ _ => (Throw ReferenceError, []))
                            sampleComments 10 2000
    = Some (map (fun _ => neutral) sampleComments,
            intersperse (Wait 2000) (map Batch batches)) /\
    Forall (fun events => In LogError events) (List.concat batches).
Proof.
  apply (rateLimiter_without_classifier
           (fun _ _ => (Throw ReferenceError, [])) sampleComments 10 2000%Z).
  - lia.
  - intros i text. eexists; eexists. reflexivity.
Defined.

(* ================================================================= *)
(** ** [groupCommentsByMonth] and [Object.values(...).flat()] *)

From Stdlib Require Import Permutation.

Lemma in_firstSeen m labels : In m (firstSeen labels) <-> In m labels.
Proof.
  induction labels as [|l rest IH]; [reflexivity|].
  cbn [firstSeen]. split.
  - intros [->|H]; [now left|]. apply filter_In in H as [H _].
    right. now apply IH.
  - intros [->|H]; [now left|].
    destruct (String.eqb m l) eqn:Hm.
    + apply String.eqb_eq in Hm. now left.
    + right. apply filter_In. split; [now apply IH | now rewrite Hm].
Qed.

Lemma NoDup_firstSeen labels : NoDup (firstSeen labels).
Proof.
  induction labels as [|l rest IH]; [constructor|].
  cbn [firstSeen]. constructor.
  - intros H. apply filter_In in H as [_ H].
    now rewrite String.eqb_refl in H.
  - now apply NoDup_filter.
Qed.

Lemma firstSeen_snoc labels m :
  firstSeen (labels ++ [m])
  = firstSeen labels
      ++ (if in_dec string_dec m labels then [] else [m]).
Proof.
  induction labels as [|l rest IH]; [reflexivity|].
  cbn [app firstSeen]. rewrite IH, filter_app. f_equal. f_equal.
  destruct (in_dec string_dec m rest) as [Hin|Hout];
    destruct (in_dec string_dec m (l :: rest)) as [Hin'|Hout'];
    try reflexivity.
  - exfalso. apply Hout'. now right.
  - destruct Hin' as [->|Hin']; [|contradiction].
    cbn. now rewrite String.eqb_refl.
  - cbn. destruct (String.eqb m l) eqn:Hm; [|reflexivity].
    apply String.eqb_eq in Hm. exfalso. apply Hout'. now left.
Qed.

(** [push] on an object given by its keys, which are distinct. *)
Lemma push_map (f : string -> list Entry.t) m e :
  forall keys,
    NoDup keys ->
    BatchAnalyze.push (map (fun k => (k, f k)) keys) m e
    = map (fun k => (k, f k ++ (if String.eqb m k then [e] else []))) keys
        ++ (if in_dec string_dec m keys then [] else [(m, [e])]).
Proof.
  induction keys as [|k keys IH]; intros Hnd; [reflexivity|].
  inversion Hnd as [|x l Hnotin Hnd']; subst.
  cbn [map BatchAnalyze.push]. destruct (String.eqb k m) eqn:Hk.
  - apply String.eqb_eq in Hk. subst m. rewrite String.eqb_refl.
    destruct (in_dec string_dec k (k :: keys)) as [_|Hout];
      [|exfalso; apply Hout; now left].
    rewrite app_nil_r. cbn [app]. f_equal.
    apply map_ext_in. intros k' Hin.
    destruct (String.eqb k k') eqn:Hk'.
    + apply String.eqb_eq in Hk'. subst k'. contradiction.
    + now rewrite app_nil_r.
  - rewrite IH by assumption. rewrite String.eqb_sym, Hk, app_nil_r.
    cbn [app]. f_equal. f_equal.
    destruct (in_dec string_dec m keys) as [Hin|Hout];
      destruct (in_dec string_dec m (k :: keys)) as [Hin'|Hout'];
      try reflexivity.
    + exfalso. apply Hout'. now right.
    + destruct Hin' as [->|Hin']; [|contradiction].
      now rewrite String.eqb_refl in Hk.
Qed.

Lemma allComments_push g m e :
  Permutation (BatchAnalyze.allComments (BatchAnalyze.push g m e))
              (BatchAnalyze.allComments g ++ [e]).
Proof.
  unfold BatchAnalyze.allComments.
  induction g as [|[k v] g IH]; [reflexivity|].
  cbn [BatchAnalyze.push]. destruct (String.eqb k m).
  - cbn [map snd List.concat]. rewrite <- !app_assoc.
    apply Permutation_app_head, Permutation_app_comm.
  - cbn [map snd List.concat]. rewrite <- app_assoc.
    now apply Permutation_app_head.
Qed.

Lemma increment_present d x : In x (map fst (increment d x)).
Proof.
  induction d as [|[k v] d IH]; [now left|].
  cbn [increment]. destruct (String.eqb k x) eqn:Hk.
  - apply String.eqb_eq in Hk. now left.
  - now right.
Qed.

Lemma increment_keeps d x y :
  In x (map fst d) -> In x (map fst (increment d y)).
Proof.
  induction d as [|[k v] d IH]; intros Hin; [destruct Hin|].
  cbn [increment]. destruct (String.eqb k y); [exact Hin|].
  destruct Hin as [Hin|Hin]; [now left | right; now apply IH].
Qed.

(** Two increments commute when the key of one of them exists. *)
Lemma increment_comm d x y :
  In x (map fst d) ->
  increment (increment d x) y = increment (increment d y) x.
Proof.
  induction d as [|[k v] d IH]; intros Hx; [destruct Hx|].
  cbn [increment].
  destruct (String.eqb k x) eqn:Ex; destruct (String.eqb k y) eqn:Ey;
    cbn [increment]; rewrite ?Ex, ?Ey; try reflexivity.
  f_equal. apply IH.
  destruct Hx as [Heq|Hx]; [|exact Hx].
  cbn [fst] in Heq. subst x. now rewrite String.eqb_refl in Ex.
Qed.

Section Grouping.

Variable locale : Locale.

Lemma ofMonth_snoc k entries e :
  ofMonth locale k (entries ++ [e])
  = ofMonth locale k entries ++ (if String.eqb (monthOf locale e) k then [e] else []).
Proof. unfold ofMonth. rewrite filter_app. reflexivity. Qed.

Lemma ofMonth_none m entries :
  ~ In m (map (monthOf locale) entries) -> ofMonth locale m entries = [].
Proof.
  intros H. unfold ofMonth. induction entries as [|e entries IH];
    [reflexivity|].
  cbn [filter]. destruct (String.eqb (monthOf locale e) m) eqn:He.
  - apply String.eqb_eq in He. exfalso. apply H. now left.
  - apply IH. intros Hin. apply H. now right.
Qed.

Lemma ofMonth_ofMonth m k entries :
  ofMonth locale m (ofMonth locale k entries)
  = if String.eqb k m then ofMonth locale m entries else [].
Proof.
  unfold ofMonth. induction entries as [|e entries IH].
  - now destruct (String.eqb k m).
  - cbn [filter]. destruct (String.eqb (monthOf locale e) k) eqn:Hk.
    + apply String.eqb_eq in Hk. cbn [filter]. rewrite IH, <- Hk.
      destruct (String.eqb (monthOf locale e) m); reflexivity.
    + rewrite IH. destruct (String.eqb k m) eqn:Hkm; [|reflexivity].
      apply String.eqb_eq in Hkm. subst m. now rewrite Hk.
Qed.

Lemma group_step done e :
  BatchAnalyze.push
    (map (fun m => (m, ofMonth locale m done)) (firstSeen (map (monthOf locale) done)))
    (monthOf locale e) e
  = map (fun m => (m, ofMonth locale m (done ++ [e])))
        (firstSeen (map (monthOf locale) (done ++ [e]))).
Proof.
  rewrite (push_map (fun m => ofMonth locale m done)) by apply NoDup_firstSeen.
  rewrite map_app. cbn [map]. rewrite firstSeen_snoc, map_app. f_equal.
  - apply map_ext. intros k. now rewrite ofMonth_snoc.
  - destruct (in_dec string_dec (monthOf locale e) (firstSeen (map (monthOf locale) done)))
      as [Hin|Hout];
      destruct (in_dec string_dec (monthOf locale e) (map (monthOf locale) done))
      as [Hin'|Hout']; try reflexivity.
    + exfalso. apply Hout'. now apply in_firstSeen.
    + exfalso. apply Hout. now apply in_firstSeen.
    + cbn [map]. rewrite ofMonth_snoc, String.eqb_refl.
      now rewrite (ofMonth_none _ _ Hout').
Qed.

Lemma group_fold comments :
  forall done,
    fold_left
      (fun groupedComments c =>
         BatchAnalyze.push groupedComments (toLocaleMonth locale (publishedAt c))
                           (BatchAnalyze.entryOf c))
      comments
      (map (fun m => (m, ofMonth locale m done)) (firstSeen (map (monthOf locale) done)))
    = map (fun m => (m, ofMonth locale m (done ++ map BatchAnalyze.entryOf comments)))
          (firstSeen
             (map (monthOf locale) (done ++ map BatchAnalyze.entryOf comments))).
Proof.
  induction comments as [|c comments IH]; intros done.
  - cbn. now rewrite app_nil_r.
  - cbn [fold_left map].
    change (toLocaleMonth locale (publishedAt c))
      with (monthOf locale (BatchAnalyze.entryOf c)).
    rewrite group_step, IH, <- app_assoc. reflexivity.
Qed.

Lemma ofMonth_flat m entries :
  forall keys,
    NoDup keys ->
    ofMonth locale m (flat_map (fun k => ofMonth locale k entries) keys)
    = if in_dec string_dec m keys then ofMonth locale m entries else [].
Proof.
  induction keys as [|k keys IH]; intros Hnd; [reflexivity|].
  inversion Hnd as [|x l Hnotin Hnd']; subst.
  cbn [flat_map]. unfold ofMonth at 1. rewrite filter_app.
  fold (ofMonth locale m (ofMonth locale k entries)).
  fold (ofMonth locale m (flat_map (fun k => ofMonth locale k entries) keys)).
  rewrite ofMonth_ofMonth, IH by assumption.
  destruct (String.eqb k m) eqn:Hk.
  - apply String.eqb_eq in Hk. subst m.
    destruct (in_dec string_dec k keys) as [Hin|_]; [contradiction|].
    destruct (in_dec string_dec k (k :: keys)) as [_|Hout];
      [apply app_nil_r | exfalso; apply Hout; now left].
  - cbn [app].
    destruct (in_dec string_dec m keys) as [Hin|Hout];
      destruct (in_dec string_dec m (k :: keys)) as [Hin'|Hout'];
      try reflexivity.
    + exfalso. apply Hout'. now right.
    + destruct Hin' as [->|Hin']; [|contradiction].
      now rewrite String.eqb_refl in Hk.
Qed.

Lemma allComments_fold comments :
  forall g,
    Permutation
      (BatchAnalyze.allComments
         (fold_left
            (fun groupedComments c =>
               BatchAnalyze.push groupedComments
                                 (toLocaleMonth locale (publishedAt c))
                                 (BatchAnalyze.entryOf c))
            comments g))
      (BatchAnalyze.allComments g ++ map BatchAnalyze.entryOf comments).
Proof.
  induction comments as [|c comments IH]; intros g.
  - cbn. now rewrite app_nil_r.
  - cbn [fold_left map]. rewrite IH.
    rewrite (allComments_push g), <- app_assoc. reflexivity.
Qed.

(** The entries of the comments, month by month. *)
Lemma allComments_flat comments :
  BatchAnalyze.allComments (BatchAnalyze.groupCommentsByMonth locale comments)
  = flat_map
      (fun m => ofMonth locale m (map BatchAnalyze.entryOf comments))
      (firstSeen
         (map (monthOf locale) (map BatchAnalyze.entryOf comments))).
Proof.
  assert (Hg : BatchAnalyze.groupCommentsByMonth locale comments
               = map (fun m =>
                        (m, ofMonth locale m
                                    (map BatchAnalyze.entryOf comments)))
                     (firstSeen
                        (map (monthOf locale)
                             (map BatchAnalyze.entryOf comments))))
    by exact (group_fold comments []).
  unfold BatchAnalyze.allComments.
  rewrite Hg, map_map. cbn [snd].
  now rewrite flat_map_concat_map.
Qed.

Lemma countAll_app d xs ys :
  countAll locale d (xs ++ ys) = countAll locale (countAll locale d xs) ys.
Proof. apply fold_left_app. Qed.

Lemma countAll_cons d e entries :
  countAll locale d (e :: entries)
  = countAll locale (increment d (monthOf locale e)) entries.
Proof. reflexivity. Qed.

(** An increment moves past the entries of a month whose key exists. *)
Lemma countAll_past label M entries :
  forall d,
    In label (map fst d) ->
    Forall (fun e => monthOf locale e = label) entries ->
    countAll locale (increment d M) entries
    = increment (countAll locale d entries) M.
Proof.
  induction entries as [|e entries IH]; intros d Hin Hall; [reflexivity|].
  inversion Hall as [|x l He Hall']; subst.
  rewrite !countAll_cons.
  rewrite <- (increment_comm d (monthOf locale e) M Hin).
  apply IH; [apply increment_keeps; exact Hin | exact Hall'].
Qed.

Lemma ofMonth_all label entries :
  Forall (fun e => monthOf locale e = label) (ofMonth locale label entries).
Proof.
  apply Forall_forall. intros e He. unfold ofMonth in He.
  apply filter_In in He as [_ He]. now apply String.eqb_eq.
Qed.

Lemma ofMonth_cons label e entries :
  ofMonth locale label (e :: entries)
  = if String.eqb (monthOf locale e) label
    then e :: ofMonth locale label entries
    else ofMonth locale label entries.
Proof. reflexivity. Qed.

(** Counting the entries of a month first changes nothing once the key
    of the month exists. *)
Lemma countAll_front label entries :
  forall d,
    In label (map fst d) ->
    countAll locale d
      (ofMonth locale label entries
         ++ filter (fun e => negb (String.eqb (monthOf locale e) label))
                   entries)
    = countAll locale d entries.
Proof.
  induction entries as [|x entries IH]; intros d Hin; [reflexivity|].
  rewrite ofMonth_cons. cbn [filter].
  destruct (String.eqb (monthOf locale x) label) eqn:Hx; cbn [negb].
  - rewrite <- app_comm_cons, !countAll_cons.
    apply (IH (increment d (monthOf locale x))).
    apply increment_keeps; exact Hin.
  - rewrite countAll_app, !countAll_cons.
    rewrite <- (countAll_past label (monthOf locale x) _ d Hin
                              (ofMonth_all label entries)).
    rewrite <- countAll_app.
    apply (IH (increment d (monthOf locale x))).
    apply increment_keeps; exact Hin.
Qed.

Lemma filter_ofMonth label k entries :
  filter (fun e => negb (String.eqb (monthOf locale e) label))
         (ofMonth locale k entries)
  = if String.eqb k label then [] else ofMonth locale k entries.
Proof.
  unfold ofMonth. induction entries as [|e entries IH].
  - now destruct (String.eqb k label).
  - cbn [filter]. destruct (String.eqb (monthOf locale e) k) eqn:Hk.
    + apply String.eqb_eq in Hk. cbn [filter]. rewrite IH, Hk.
      destruct (String.eqb k label); reflexivity.
    + exact IH.
Qed.

Lemma flat_map_without label entries :
  forall keys,
    flat_map (fun m => ofMonth locale m entries)
             (filter (fun l' => negb (String.eqb l' label)) keys)
    = filter (fun e => negb (String.eqb (monthOf locale e) label))
             (flat_map (fun m => ofMonth locale m entries) keys).
Proof.
  induction keys as [|k keys IH]; [reflexivity|].
  cbn [filter flat_map]. rewrite filter_app, filter_ofMonth, <- IH.
  destruct (String.eqb k label); reflexivity.
Qed.

(** Counting the entries month by month gives what counting them in
    the order of the list gives. *)
Lemma countAll_grouped entries :
  forall d,
    countAll locale d
      (flat_map (fun m => ofMonth locale m entries)
                (firstSeen (map (monthOf locale) entries)))
    = countAll locale d entries.
Proof.
  induction entries as [|e entries IH]; intros d; [reflexivity|].
  set (label := monthOf locale e).
  cbn [map firstSeen flat_map]. fold label.
  assert (Hhead : ofMonth locale label (e :: entries)
                  = e :: ofMonth locale label entries).
  { rewrite ofMonth_cons. fold label. now rewrite String.eqb_refl. }
  assert (Hrest : flat_map (fun m => ofMonth locale m (e :: entries))
                    (filter (fun l' => negb (String.eqb l' label))
                            (firstSeen (map (monthOf locale) entries)))
                  = flat_map (fun m => ofMonth locale m entries)
                      (filter (fun l' => negb (String.eqb l' label))
                              (firstSeen (map (monthOf locale) entries)))).
  { rewrite !flat_map_concat_map. f_equal. apply map_ext_in.
    intros m Hm. apply filter_In in Hm as [_ Hm].
    rewrite ofMonth_cons. fold label.
    destruct (String.eqb label m) eqn:Hl; [|reflexivity].
    apply String.eqb_eq in Hl. subst m.
    now rewrite String.eqb_refl in Hm. }
  rewrite Hhead, Hrest, flat_map_without.
  assert (Hsame : ofMonth locale label entries
                  = ofMonth locale label
                      (flat_map (fun m => ofMonth locale m entries)
                                (firstSeen (map (monthOf locale) entries)))).
  { rewrite ofMonth_flat by apply NoDup_firstSeen.
    destruct (in_dec string_dec label _) as [_|Hout]; [reflexivity|].
    apply ofMonth_none. intros Hin. apply Hout. now apply in_firstSeen. }
  rewrite Hsame, <- app_comm_cons, !countAll_cons. fold label.
  rewrite (countAll_front label _ (increment d label)
                          (increment_present d label)).
  apply IH.
Qed.

Lemma histogram_countAll entries :
  histogram locale (map Entry.timestamp entries)
  = countAll locale allMonths entries.
Proof.
  unfold histogram, countAll. generalize allMonths.
  induction entries as [|e entries IH]; intros d; [reflexivity|].
  cbn [map fold_left]. apply IH.
Qed.

End Grouping.

(** X18. [groupCommentsByMonth] returns one group per month label that
    occurs among the comments, the labels in the order in which they
    first occur, and under each label the entries of the comments of
    that month in the order of the list. *)
Theorem groupCommentsByMonth_spec :
  forall locale comments,
    BatchAnalyze.groupCommentsByMonth locale comments
    = map (fun m =>
             (m, ofMonth locale m (map BatchAnalyze.entryOf comments)))
          (firstSeen
             (map (monthOf locale) (map BatchAnalyze.entryOf comments))).
Proof.
  intros locale comments. unfold BatchAnalyze.groupCommentsByMonth.
  exact (group_fold locale comments []).
Qed.

(** X19. The list the batched handler analyses,
    [Object.values(groupCommentsByMonth(comments)).flat()], holds the
    entries of the comments, each as often as the comment is listed,
    rearranged month by month: the comments of one month keep the order
    they have in the list. *)
Theorem allComments_rearranged :
  forall locale comments,
    let allComments :=
      BatchAnalyze.allComments
        (BatchAnalyze.groupCommentsByMonth locale comments) in
    Permutation allComments (map BatchAnalyze.entryOf comments) /\
    List.length allComments = List.length comments /\
    (forall month,
        ofMonth locale month allComments
        = ofMonth locale month (map BatchAnalyze.entryOf comments)) /\
    allComments
    = flat_map
        (fun m => ofMonth locale m (map BatchAnalyze.entryOf comments))
        (firstSeen
           (map (monthOf locale) (map BatchAnalyze.entryOf comments))).
Proof.
  intros locale comments allComments.
  assert (Hperm : Permutation allComments
                              (map BatchAnalyze.entryOf comments))
    by exact (allComments_fold locale comments []).
  pose proof (allComments_flat locale comments) as Hflat.
  fold allComments in Hflat.
  split; [exact Hperm|]. split; [|split; [|exact Hflat]].
  - rewrite (Permutation_length Hperm). apply length_map.
  - intros month. rewrite Hflat, ofMonth_flat by apply NoDup_firstSeen.
    destruct (in_dec string_dec month _) as [_|Hout]; [reflexivity|].
    symmetry. apply ofMonth_none. intros Hin. apply Hout.
    now apply in_firstSeen.
Qed.

(* ================================================================= *)
(** ** The month counts do not depend on the order of the comments *)

(** X20. Rearranging the comments month by month does not change the
    month counts, whatever the labels of the locale are: the month
    object accumulated over the list the batched handler analyses is
    the one accumulated over the comments in the order of the comment
    source, and so is what [sortMonths] makes of it. *)
Theorem grouping_keeps_distribution :
  forall locale comments,
    histogram locale
      (map Entry.timestamp
           (BatchAnalyze.allComments
              (BatchAnalyze.groupCommentsByMonth locale comments)))
    = histogram locale (map publishedAt comments) /\
    sortMonths
      (histogram locale
         (map Entry.timestamp
              (BatchAnalyze.allComments
                 (BatchAnalyze.groupCommentsByMonth locale comments))))
    = sortMonths (histogram locale (map publishedAt comments)).
Proof.
  intros locale comments.
  assert (H : histogram locale
                (map Entry.timestamp
                     (BatchAnalyze.allComments
                        (BatchAnalyze.groupCommentsByMonth locale comments)))
              = histogram locale (map publishedAt comments)).
  { rewrite histogram_countAll, allComments_flat, countAll_grouped.
    rewrite <- histogram_countAll, map_map. reflexivity. }
  split; [exact H | now rewrite H].
Qed.

(* ================================================================= *)
(** ** The chart of the results page *)








(* ================================================================= *)
(** ** The input page *)

(** X22. [handleAnalyze] sets the loading flag, sends one request and
    clears the flag again whatever happens. It navigates to the results
    with the body of the response when the request is answered with a
    status from 200 to 299 and a body that parses, and otherwise logs
    and shows one fixed alert. Against the handler of the server it
    navigates exactly when the handler answers with status 200, with
    the result of the handler; for every other answer the user sees the
    same alert, never the error text of the response. *)
Theorem handleAnalyze_outcomes :
  (forall fetch url,
      (exists status data,
          fetch url = InputPage.FetchResponse status (Some data) /\
          200 <= status <= 299 /\
          InputPage.handleAnalyze fetch url
          = [InputPage.SetLoading true; InputPage.Fetch url;
             InputPage.Navigate data; InputPage.SetLoading false]) \/
      ((forall status data,
           fetch url = InputPage.FetchResponse status (Some data) ->
           ~ 200 <= status <= 299) /\
       InputPage.handleAnalyze fetch url
       = [InputPage.SetLoading true; InputPage.Fetch url;
          InputPage.ConsoleError;
          InputPage.Alert
            "Failed to analyze comments. Please check the URL and try again.";
          InputPage.SetLoading false])) /\
  (forall locale env docs url,
      (exists r w,
          Server.run locale env (Some url) docs
          = (Ok (mkResponse 200 (ResultBody r)), w) /\
          InputPage.handleAnalyze (InputPage.served locale env docs) url
          = [InputPage.SetLoading true; InputPage.Fetch url;
             InputPage.Navigate (ResultBody r);
             InputPage.SetLoading false]) \/
      (status_of_run locale env url docs <> 200 /\
       InputPage.handleAnalyze (InputPage.served locale env docs) url
       = [InputPage.SetLoading true; InputPage.Fetch url;
          InputPage.ConsoleError;
          InputPage.Alert
            "Failed to analyze comments. Please check the URL and try again.";
          InputPage.SetLoading false])).
Proof.
  split.
  - intros fetch url. unfold InputPage.handleAnalyze.
    destruct (fetch url) as [|status [data|]] eqn:Hf.
    + right. split; [discriminate | reflexivity].
    + destruct (InputPage.ok status) eqn:Hok.
      * left. exists status, data. split; [reflexivity|]. split; [|reflexivity].
        unfold InputPage.ok in Hok. apply andb_true_iff in Hok as [H1 H2].
        apply Nat.leb_le in H1, H2. lia.
      * right. split; [|reflexivity]. intros s d Heq Hr.
        injection Heq as <- <-. unfold InputPage.ok in Hok.
        apply andb_false_iff in Hok as [H1|H2];
          [apply Nat.leb_gt in H1 | apply Nat.leb_gt in H2]; lia.
    + right. split; [discriminate|].
      now destruct (InputPage.ok status).
  - intros locale env docs url.
    unfold InputPage.handleAnalyze, InputPage.served, status_of_run.
    destruct (run_cases locale env (Some url) docs)
      as [[Hu H]
         |[(u & Hu & Hid & H)
          |(u & video & Hu & Hid &
            [[Hitems H]
            |[[Hitems H]
             |(comments & Hitems &
               [(acc & w & _ & H)|(e & w & _ & H)])]])]];
      rewrite H; cbn [fst status body];
      try (right; split; [discriminate | reflexivity]).
    left. exists (Server.resultOf acc), w. split; reflexivity.
Qed.

(* ================================================================= *)
(** ** The counts of the results page *)

Section CountsShown.

Import JsNumber.

Local Open Scope R_scope.

(** The tenths printed for [count] out of [total] are within half a
    unit and a billionth of [1000 * count / total]. *)
Lemma percentage_sharp count total :
  (0 < Z.of_nat total < 2 ^ 53)%Z -> (count <= total)%nat ->
  exists k,
    percentage count total = JsNumber.FxDecimal false k /\
    Rabs (IZR k - 1000 * IZR (Z.of_nat count) / IZR (Z.of_nat total))
    <= 1 / 2 + 1 / 1000000000.
Proof.
  intros Ht Hc. unfold percentage.
  destruct (ofNat_spec total Ht) as (mt & et & Eqt & Vt & Bt & Et).
  destruct (ofNat_spec 100 ltac:(cbn; lia))
    as (mh & eh & Eqh & Vh & Bh & Eh).
  assert (HT : 0 < IZR (Z.of_nat total)) by (apply IZR_lt; lia).
  destruct count as [|c].
  { exists 0%Z. rewrite Eqt, Eqh. split; [reflexivity|].
    cbn [Z.of_nat]. unfold Rdiv. rewrite Rmult_0_r, Rmult_0_l, Rminus_0_r.
    rewrite Rabs_R0. lra. }
  destruct (ofNat_spec (S c) ltac:(lia)) as (mc & ec & Eqc & Vc & Bc & Ec).
  rewrite Eqc, Eqt, Eqh.
  destruct (div_spec mc ec mt et Bc Bt ltac:(lia) ltac:(lia))
    as (mq & eq & Eqq & Errq & Bq & Eq).
  rewrite Eqq.
  destruct (mul_spec mq eq mh eh Bq Bh ltac:(lia) ltac:(lia))
    as (mx & ex & Eqx & Errx & Bx).
  rewrite Eqx. rewrite Vc, Vt in Errq. rewrite Vh in Errx.
  change (IZR (Z.of_nat 100)) with 100 in Errx.
  set (C := IZR (Z.of_nat (S c))) in *.
  set (T := IZR (Z.of_nat total)) in *.
  set (V := C / T) in *.
  set (q := value mq eq) in *. set (X := value mx ex) in *.
  set (eps := bpow (-52)) in *.
  destruct eps_small as [Heps0 Heps]. fold eps in Heps0, Heps.
  assert (HC : 0 < C <= T).
  { unfold C, T. split; [apply IZR_lt; lia | apply IZR_le; lia]. }
  assert (HV : 0 < V <= 1).
  { unfold V. split.
    - apply Rdiv_lt_0_compat; lra.
    - apply Rmult_le_reg_r with T; [lra|].
      unfold Rdiv. rewrite Rmult_assoc, Rinv_l by lra. lra. }
  assert (H15 : 1 / 10 ^ 15 <= 1 / 10000000000000).
  { unfold Rdiv. rewrite !Rmult_1_l. apply Rinv_le_contravar; [lra|].
    replace 10000000000000 with (10 ^ 13) by lra.
    apply Rle_pow; [lra | lia]. }
  assert (HeV : 0 <= eps * V <= eps) by (split; nra).
  apply Rabs_bounds in Errq.
  assert (Hq : 0 < q <= 2) by (split; nra).
  assert (Heq : 0 <= eps * (q * 100) <= 200 * eps) by (split; nra).
  apply Rabs_bounds in Errx.
  assert (HX : Rabs (10 * X - 1000 * V) <= 1 / 1000000000).
  { apply Rabs_le. split; lra. }
  assert (HX21 : X < 10 ^ 21).
  { apply Rle_lt_trans with 1000; [lra|].
    replace 1000 with (10 ^ 3) by lra. apply Rlt_pow; [lra | lia]. }
  cbn [JsNumber.toFixed1]. rewrite (atLeast1e21_small mx ex HX21).
  eexists. split; [reflexivity|].
  pose proof (nearestTenths_spec mx ex) as Hk. fold X in Hk.
  apply Rabs_bounds in Hk, HX.
  replace (1000 * C / T) with (1000 * V) by (unfold V; field; lra).
  apply Rabs_le. split; lra.
Qed.

(** [Math.round] of a positive Number that lies within a half of an
    integer is that integer. *)
Lemma round_spec m e n :
  IZR n - 1 / 2 <= value m e < IZR n + 1 / 2 ->
  ResultsPage.round (S754_finite false m e) = ResultsPage.RdInt n.
Proof.
  unfold value. intros [Hlo Hhi]. cbn [ResultsPage.round]. f_equal.
  destruct (0 <=? e)%Z eqn:He.
  - apply Z.leb_le in He. rewrite <- bpow_IZR, <- mult_IZR in Hlo, Hhi
      by assumption.
    set (z := (Z.pos m * 2 ^ e)%Z) in *.
    assert (H1 : (n - 1 < z)%Z)
      by (apply lt_IZR; rewrite minus_IZR; lra).
    assert (H2 : (z < n + 1)%Z)
      by (apply lt_IZR; rewrite plus_IZR; lra).
    lia.
  - apply Z.leb_gt in He.
    set (P := (2 ^ (- e))%Z).
    assert (HP : (0 < P)%Z) by (apply Z.pow_pos_nonneg; lia).
    assert (HD : (2 ^ (- e + 1) = 2 * P)%Z).
    { unfold P. rewrite Z.pow_add_r by lia. change (2 ^ 1)%Z with 2%Z. lia. }
    rewrite HD.
    assert (HPR : IZR P = / bpow e).
    { unfold P. rewrite bpow_IZR by lia. apply bpow_neg. }
    assert (Hb : 0 < bpow e) by apply bpow_pos.
    assert (HPpos : 0 < IZR P) by (apply IZR_lt; assumption).
    assert (Hbe : bpow e = / IZR P) by (rewrite HPR, Rinv_inv; reflexivity).
    rewrite Hbe in Hlo, Hhi.
    assert (Hlo' : (2 * P * n <= 2 * Z.pos m + P)%Z).
    { apply le_IZR. rewrite plus_IZR, !mult_IZR.
      apply Rmult_le_compat_r with (r := IZR P) in Hlo; [|lra].
      rewrite Rmult_assoc, Rinv_l in Hlo by lra. lra. }
    assert (Hhi' : (2 * Z.pos m + P < 2 * P * (n + 1))%Z).
    { apply lt_IZR. rewrite plus_IZR, !mult_IZR, plus_IZR.
      apply Rmult_lt_compat_r with (r := IZR P) in Hhi; [|lra].
      rewrite Rmult_assoc, Rinv_l in Hhi by lra. lra. }
    symmetry. apply (Z.div_unique _ _ n (2 * Z.pos m + P - 2 * P * n)); lia.
Qed.

Lemma percentage_zero total :
  (0 < Z.of_nat total < 2 ^ 53)%Z ->
  percentage 0 total = FxDecimal false 0 /\
  ResultsPage.shownCount total (FxDecimal false 0) = ResultsPage.RdInt 0.
Proof.
  intros Ht.
  destruct (ofNat_spec total Ht) as (mt & et & Eqt & _).
  unfold percentage, ResultsPage.shownCount. rewrite Eqt.
  split; reflexivity.
Qed.

(** The count shown for the tenths [k] printed for [count] out of
    [total], for a total of at most 1000. *)
Lemma shownCount_exact count total :
  (0 < total <= 1000)%nat -> (count <= total)%nat ->
  ResultsPage.shownCount total (percentage count total)
  = ResultsPage.RdInt (Z.of_nat count).
Proof.
  intros Ht Hc.
  assert (Ht53 : (0 < Z.of_nat total < 2 ^ 53)%Z) by lia.
  destruct count as [|c].
  { destruct (percentage_zero total Ht53) as [-> ->]. reflexivity. }
  destruct (percentage_sharp (S c) total Ht53 Hc) as (k & -> & Hk).
  set (C := Z.of_nat (S c)) in *. set (T := Z.of_nat total) in *.
  assert (HT : 1 <= IZR T <= 1000)
    by (split; apply IZR_le; unfold T; lia).
  assert (HC : 1 <= IZR C <= IZR T)
    by (split; apply IZR_le; unfold C, T; lia).
  apply Rabs_bounds in Hk.
  assert (HV : 1 <= 1000 * IZR C / IZR T <= 1000).
  { split.
    - apply Rmult_le_reg_r with (IZR T); [lra|].
      unfold Rdiv. rewrite Rmult_assoc, Rinv_l by lra. lra.
    - apply Rmult_le_reg_r with (IZR T); [lra|].
      unfold Rdiv. rewrite Rmult_assoc, Rinv_l by lra. lra. }
  assert (Hk1 : (1 <= k <= 1000)%Z).
  { split.
    - assert (0 < k)%Z by (apply lt_IZR; lra). lia.
    - assert (k < 1001)%Z by (apply lt_IZR; lra). lia. }
  (* the integer [T k - 1000 C] is at most [T / 2] in absolute value *)
  assert (HN : (- T <= 2 * (T * k - 1000 * C) <= T)%Z).
  { assert (Hmul : - (IZR T / 2 + 1 / 1000000)
                   <= IZR T * IZR k - 1000 * IZR C
                   <= IZR T / 2 + 1 / 1000000).
    { replace (IZR T * IZR k - 1000 * IZR C)
        with (IZR T * (IZR k - 1000 * IZR C / IZR T)) by (field; lra).
      split; nra. }
    split.
    - assert (- T - 1 < 2 * (T * k - 1000 * C))%Z; [|lia].
      apply lt_IZR.
      rewrite minus_IZR, opp_IZR, !mult_IZR, minus_IZR, !mult_IZR. lra.
    - assert (2 * (T * k - 1000 * C) < T + 1)%Z; [|lia].
      apply lt_IZR.
      rewrite plus_IZR, !mult_IZR, minus_IZR, !mult_IZR. lra. }
  assert (Hclose : - (4995 / 10000)
                   <= IZR T * IZR k / 1000 - IZR C <= 4995 / 10000).
  { destruct (Z.eq_dec T 1000) as [HT1000|HTne].
    - assert (k = C) by lia. subst k. rewrite HT1000.
      replace (1000 * IZR C / 1000 - IZR C) with 0 by field. lra.
    - assert (HT999 : IZR T <= 999) by (apply IZR_le; unfold T in *; lia).
      destruct HN as [HN1 HN2]. apply IZR_le in HN1, HN2.
      rewrite opp_IZR in HN1.
      rewrite !mult_IZR, minus_IZR, !mult_IZR in HN1, HN2. lra. }
  (* the three operations on Numbers *)
  destruct (ofNat_spec (Z.to_nat k) ltac:(lia))
    as (mk & ek & Eqk & Vk & Bk & Ek).
  rewrite Z2Nat.id in Vk by lia.
  destruct (ofNat_spec 10 ltac:(cbn; lia))
    as (m10 & e10 & Eq10 & V10 & B10 & E10).
  destruct (ofNat_spec 100 ltac:(cbn; lia))
    as (mh & eh & Eqh & Vh & Bh & Eh).
  destruct (ofNat_spec total Ht53) as (mt & et & Eqt & Vt & Bt & Et).
  change (IZR (Z.of_nat 10)) with 10 in V10.
  change (IZR (Z.of_nat 100)) with 100 in Vh.
  fold T in Vt.
  unfold ResultsPage.shownCount, ResultsPage.Number.
  rewrite Eqk, Eq10, Eqh, Eqt.
  destruct (div_spec mk ek m10 e10 Bk B10 ltac:(lia) ltac:(lia))
    as (m1 & e1 & Eq1 & Err1 & B1 & E1).
  rewrite Eq1.
  destruct (div_spec m1 e1 mh eh B1 Bh ltac:(lia) ltac:(lia))
    as (m2 & e2 & Eq2 & Err2 & B2 & E2).
  rewrite Eq2.
  destruct (mul_spec mt et m2 e2 Bt B2 ltac:(lia) ltac:(lia))
    as (mw & ew & Eqw & Errw & Bw).
  rewrite Eqw.
  rewrite Vk, V10 in Err1. rewrite Vh in Err2. rewrite Vt in Errw.
  set (y1 := value m1 e1) in *. set (y2 := value m2 e2) in *.
  set (w := value mw ew) in *. set (eps := bpow (-52)) in *.
  destruct eps_small as [Heps0 Heps]. fold eps in Heps0, Heps.
  assert (H15 : 1 / 10 ^ 15 <= 1 / 10000000000000).
  { unfold Rdiv. rewrite !Rmult_1_l. apply Rinv_le_contravar; [lra|].
    replace 10000000000000 with (10 ^ 13) by lra.
    apply Rle_pow; [lra | lia]. }
  assert (HK : 1 <= IZR k <= 1000) by (split; apply IZR_le; lia).
  apply Rabs_bounds in Err1, Err2, Errw.
  assert (Hy1 : - (1 / 100000000000) <= y1 - IZR k / 10
                <= 1 / 100000000000 /\ 0 < y1 <= 101).
  { assert (0 <= eps * (IZR k / 10) <= 100 * eps) by (split; nra).
    split; [split|split]; lra. }
  destruct Hy1 as [Hy1 Hy1b].
  assert (Hy2 : - (1 / 100000000000) <= y2 - IZR k / 1000
                <= 1 / 100000000000 /\ 0 < y2 <= 2).
  { assert (0 <= eps * (y1 / 100) <= 2 * eps) by (split; nra).
    split; [split|split]; lra. }
  destruct Hy2 as [Hy2 Hy2b].
  assert (HTy : - (1 / 100000000) <= IZR T * y2 - IZR T * IZR k / 1000
                <= 1 / 100000000 /\ 0 < IZR T * y2 <= 2000).
  { split; [split|split]; nra. }
  destruct HTy as [HTy HTyb].
  assert (Hw : - (1 / 10000000) <= w - IZR T * IZR k / 1000
               <= 1 / 10000000).
  { assert (0 <= eps * (IZR T * y2) <= 2000 * eps) by (split; nra).
    split; lra. }
  apply round_spec. fold w. split; lra.
Qed.

End CountsShown.

(** X23. The counts of the results page are the counts of the server:
    for a response of the handler that counts at most 1000 comments,
    [Math.round(totalComments * (Number(percentage) / 100))] gives
    back, under each sentiment, the number of comments the handler
    counted for it, so the three counts shown add up to the total. At
    1001 comments this fails: for 500 of them 501 is shown. *)
Theorem counts_shown :
  (forall locale env url docs r w,
      Server.run locale env url docs = (Ok (mkResponse 200 (ResultBody r)), w) ->
      0 < totalComments r <= 1000 ->
      exists a d n,
        a + d + n = totalComments r /\
        ResultsPage.shownCount (totalComments r)
                               (agreePercent (sentimentAnalysis r))
        = ResultsPage.RdInt (Z.of_nat a) /\
        ResultsPage.shownCount (totalComments r)
                               (disagreePercent (sentimentAnalysis r))
        = ResultsPage.RdInt (Z.of_nat d) /\
        ResultsPage.shownCount (totalComments r)
                               (neutralPercent (sentimentAnalysis r))
        = ResultsPage.RdInt (Z.of_nat n)) /\
  (forall count total,
      0 < total <= 1000 -> count <= total ->
      ResultsPage.shownCount total (percentage count total)
      = ResultsPage.RdInt (Z.of_nat count)) /\
  ResultsPage.shownCount 1001 (percentage 500 1001) = ResultsPage.RdInt 501 /\
  ResultsPage.shownCount 0 (percentage 0 0) = ResultsPage.RdNaN.
Proof.
  split; [|split; [|split]].
  - intros locale env url docs r w H Ht.
    apply run_success_inv in H
      as (u & video & comments & acc & _ & _ & _ & _ & ->).
    unfold Server.resultOf in *.
    cbn [totalComments sentimentAnalysis agreePercent disagreePercent
         neutralPercent] in *.
    rewrite totalOf_sum in *.
    exists (agreeCount (fst acc)), (disagreeCount (fst acc)),
      (neutralCount (fst acc)).
    split; [reflexivity|].
    split; [|split]; apply shownCount_exact; lia.
  - intros count total Ht Hc. now apply shownCount_exact.
  - vm_compute. reflexivity.
  - vm_compute. reflexivity.
Qed.

(* ================================================================= *)
(** ** Reading the reply: [trim] and the second test play no role *)

Section TrimIncludes.

Variable w : string.
Hypothesis w_no_space :
  allChars (fun c => negb (JsString.isSpace c)) w = true.
Hypothesis w_not_empty : w <> EmptyString.

Lemma prefix_space c s :
  JsString.isSpace c = true -> String.prefix w (String c s) = false.
Proof.
  intros Hc. destruct w as [|a w']; [contradiction|].
  cbn in w_no_space. apply andb_true_iff in w_no_space as [Ha _].
  cbn [String.prefix]. destruct (ascii_dec a c) as [->|]; [|reflexivity].
  now rewrite Hc in Ha.
Qed.

Lemma prefix_empty : String.prefix w EmptyString = false.
Proof. destruct w; [contradiction | reflexivity]. Qed.

Lemma includes_trimStart s :
  JsString.includes (JsString.trimStart s) w = JsString.includes s w.
Proof.
  induction s as [|c s IH]; [reflexivity|].
  cbn [JsString.trimStart]. destruct (JsString.isSpace c) eqn:Hc;
    [|reflexivity].
  rewrite IH. cbn [JsString.includes]. now rewrite (prefix_space c s Hc).
Qed.

End TrimIncludes.

Lemma prefix_trimEnd s :
  forall w,
    allChars (fun c => negb (JsString.isSpace c)) w = true ->
    String.prefix w (JsString.trimEnd s) = String.prefix w s.
Proof.
  induction s as [|c s IH]; intros w Hw; [reflexivity|].
  destruct w as [|a w'];
    [destruct (JsString.trimEnd (String c s)); reflexivity|].
  cbn in Hw. apply andb_true_iff in Hw as [Ha Hw'].
  specialize (IH w' Hw'). cbn [JsString.trimEnd].
  destruct (JsString.trimEnd s) as [|b t] eqn:Ht.
  - destruct (JsString.isSpace c) eqn:Hc; cbn [String.prefix].
    + destruct (ascii_dec a c) as [->|]; [|reflexivity].
      now rewrite Hc in Ha.
    + destruct (ascii_dec a c); [exact IH | reflexivity].
  - cbn [String.prefix]. destruct (ascii_dec a c); [exact IH | reflexivity].
Qed.

Lemma includes_trimEnd w s :
  allChars (fun c => negb (JsString.isSpace c)) w = true ->
  w <> EmptyString ->
  JsString.includes (JsString.trimEnd s) w = JsString.includes s w.
Proof.
  intros Hw Hne. induction s as [|c s IH]; [reflexivity|].
  cbn [JsString.includes].
  rewrite <- (prefix_trimEnd (String c s) w Hw).
  cbn [JsString.trimEnd] in *.
  destruct (JsString.trimEnd s) as [|b t] eqn:Ht.
  - destruct (JsString.isSpace c);
      cbn [JsString.includes]; rewrite (prefix_empty w Hw Hne);
      rewrite <- IH; cbn [JsString.includes];
      rewrite (prefix_empty w Hw Hne); reflexivity.
  - rewrite <- IH. reflexivity.
Qed.

(** X24. The label read off a reply is [agree] exactly when the reply
    holds the letters of AGREE, in any case, anywhere, and [neutral]
    otherwise: neither the [trim] nor the second test changes what the
    first test decides. *)
Theorem labelOf_characterised :
  forall reply,
    Server.labelOf reply
    = if JsString.includes (JsString.toUpperCase reply) "AGREE"
      then agree else neutral.
Proof.
  intros reply. unfold Server.labelOf.
  assert (Hw : allChars (fun c => negb (JsString.isSpace c)) "AGREE" = true)
    by reflexivity.
  assert (Hne : "AGREE"%string <> EmptyString) by discriminate.
  assert (Htrim : JsString.includes
                    (JsString.toUpperCase (JsString.trim reply)) "AGREE"
                  = JsString.includes (JsString.toUpperCase reply) "AGREE").
  { unfold JsString.toUpperCase.
    rewrite <- (trim_mapString _ isSpace_upper). unfold JsString.trim.
    now rewrite (includes_trimEnd _ _ Hw Hne),
      (includes_trimStart _ Hw Hne). }
  rewrite Htrim.
  destruct (JsString.includes (JsString.toUpperCase reply) "AGREE") eqn:Ha;
    [reflexivity|].
  rewrite <- Htrim in Ha.
  destruct (JsString.includes
              (JsString.toUpperCase (JsString.trim reply)) "DISAGREE")
    eqn:Hd; [|reflexivity].
  apply JsStringFacts.includes_occurs in Hd.
  apply JsStringFacts.occurs_DISAGREE in Hd.
  apply JsStringFacts.includes_occurs in Hd. congruence.
Qed.

(* ================================================================= *)
(** ** The order of the events of a request *)

Lemma forComments_trace locale env video sentiments rest :
  forall i acc w,
  exists store,
    trace (snd (Server.forComments locale env video sentiments i rest acc w))
    = trace w ++ store /\
    Forall (fun e => isStoreEvent e = true) store /\
    List.length (filter (fun e => match e with
                                  | EvFindOne _ => true
                                  | _ => false
                                  end) store)
    <= List.length rest /\
    (forall acc' w',
        Server.forComments locale env video sentiments i rest acc w = (Ok acc', w') ->
        map (fun c => EvFindOne (id c)) rest
        = filter (fun e => match e with
                           | EvFindOne _ => true
                           | _ => false
                           end) store).
Proof.
  induction rest as [|c rest IH]; intros i acc w.
  - exists []. split; [cbn; now rewrite app_nil_r|].
    split; [constructor|]. split; [cbn; lia|]. reflexivity.
  - destruct (findOneFails env i) eqn:Hf.
    { assert (Hrun : Server.forComments locale env video sentiments i (c :: rest)
                                        acc w
                     = (Throw StoreError,
                        mkWorld (db w) (trace w ++ [EvFindOne (id c)]))).
      { cbn [Server.forComments].
        unfold bind at 1. unfold Server.findOne at 1.
        unfold bind at 1. unfold emit at 1. rewrite Hf. reflexivity. }
      rewrite Hrun. exists [EvFindOne (id c)]. split; [reflexivity|].
      split; [repeat constructor|]. split; [cbn; lia|]. discriminate. }
    destruct (lookup (db w) c) as [d|] eqn:Hl.
    { rewrite (forComments_found locale env video sentiments i c rest acc w d Hf Hl).
      destruct (IH (S i) (account locale acc (sentiment d) (timestamp d))
                   (mkWorld (db w) (trace w ++ [EvFindOne (id c)])))
        as (store & Htr & Hall & Hlen & Hok).
      exists (EvFindOne (id c) :: store).
      split; [rewrite Htr; cbn [trace]; now rewrite <- app_assoc|].
      split; [constructor; [reflexivity | exact Hall]|].
      split; [cbn; lia|].
      intros acc' w' Hrun. cbn [map filter]. f_equal. eauto. }
    destruct (Server.maskUsername (authorDisplayName c)) as [masked|e] eqn:Hm.
    2: { assert (Hrun : Server.forComments locale env video sentiments i (c :: rest)
                                           acc w
                        = (Throw e,
                           mkWorld (db w) (trace w ++ [EvFindOne (id c)]))).
         { cbn [Server.forComments].
           unfold bind at 1. unfold Server.findOne at 1.
           unfold bind at 1. unfold emit at 1. rewrite Hf.
           cbn [db trace]. fold (lookup (db w) c). rewrite Hl.
           unfold bind at 1. unfold bind at 1. unfold liftResult at 1.
           rewrite Hm. reflexivity. }
         rewrite Hrun. exists [EvFindOne (id c)]. split; [reflexivity|].
         split; [repeat constructor|]. split; [cbn; lia|]. discriminate. }
    destruct (createFails env i) eqn:Hc.
    { assert (Hrun : Server.forComments locale env video sentiments i (c :: rest)
                                        acc w
                     = (Throw StoreError,
                        mkWorld (db w)
                          ((trace w ++ [EvFindOne (id c)])
                             ++ [EvCreate
                                   (newDoc video sentiments i c masked)]))).
      { cbn [Server.forComments].
        unfold bind at 1. unfold Server.findOne at 1.
        unfold bind at 1. unfold emit at 1. rewrite Hf.
        cbn [db trace]. fold (lookup (db w) c). rewrite Hl.
        unfold bind at 1. unfold bind at 1. unfold liftResult at 1.
        rewrite Hm.
        unfold bind at 1. unfold Server.create at 1.
        unfold bind at 1. unfold emit at 1. rewrite Hc. reflexivity. }
      rewrite Hrun.
      exists [EvFindOne (id c); EvCreate (newDoc video sentiments i c masked)].
      cbn [snd trace]. split; [now rewrite <- app_assoc|].
      split; [repeat constructor|]. split; [cbn; lia|]. discriminate. }
    rewrite (forComments_new locale env video sentiments i c rest acc w masked
                             Hf Hl Hm Hc).
    destruct (IH (S i)
                 (account locale acc (nth i sentiments neutral) (publishedAt c))
                 (mkWorld (db w ++ [newDoc video sentiments i c masked])
                    ((trace w ++ [EvFindOne (id c)])
                       ++ [EvCreate (newDoc video sentiments i c masked)])))
      as (store & Htr & Hall & Hlen & Hok).
    exists (EvFindOne (id c)
              :: EvCreate (newDoc video sentiments i c masked) :: store).
    split; [rewrite Htr; cbn [trace]; rewrite <- !app_assoc; reflexivity|].
    split; [repeat constructor; exact Hall|].
    split; [cbn; lia|].
    intros acc' w' Hrun. cbn [map filter]. f_equal. eauto.
Qed.

(** X25. The order of the events of a request with a list of comments:
    the comment source is asked, then the scheduler runs over all the
    comments, and only then is the collection searched and written,
    one lookup per comment up to the first failure; the error log is
    the last event, if there is one. So all requests to the language
    model are made before the first lookup, whether or not the comments
    are known. *)
Theorem run_trace_shape :
  forall locale env u video comments docs,
    Server.extractVideoId u = Some video ->
    commentThreads env video = ListData (Some comments) ->
    exists store tail,
      trace (snd (Server.run locale env (Some u) docs))
      = [EvList video]
          ++ map EvSched (snd (Server.rateLimiter (model env) comments))
          ++ store ++ tail /\
      Forall (fun e => isStoreEvent e = true) store /\
      List.length (filter (fun e => match e with
                                    | EvFindOne _ => true
                                    | _ => false
                                    end) store)
      <= List.length comments /\
      ((tail = [] /\
        map (fun c => EvFindOne (id c)) comments
        = filter (fun e => match e with
                           | EvFindOne _ => true
                           | _ => false
                           end) store /\
        exists r, fst (Server.run locale env (Some u) docs)
                  = Ok (mkResponse 200 (ResultBody r))) \/
       (tail = [EvLogError] /\
        fst (Server.run locale env (Some u) docs)
        = Ok (mkResponse 500 (ErrorBody "Failed to analyze comments")))).
Proof.
  intros locale env u video comments docs Hid Hitems.
  destruct (forComments_trace locale env video
              (fst (Server.rateLimiter (model env) comments)) comments 0
              (mkTotals 0 0 0, allMonths)
              (loopStart env video comments docs))
    as (store & Htr & Hall & Hlen & Hok).
  fold (theLoop locale env video comments docs) in Htr, Hok.
  destruct (theLoop locale env video comments docs) as [[acc|e] w] eqn:Hloop.
  - exists store, []. rewrite app_nil_r.
    rewrite (run_of_loop locale env u video comments docs Hid Hitems acc w Hloop).
    cbn [snd fst] in *. split; [rewrite Htr; cbn; reflexivity|].
    split; [exact Hall|]. split; [exact Hlen|]. left.
    split; [reflexivity|]. split; [now apply (Hok acc w) | eauto].
  - exists store, [EvLogError].
    rewrite (run_of_loop_throw locale env u video comments docs Hid Hitems e w
                               Hloop).
    cbn [snd fst trace] in *. split.
    + rewrite Htr. cbn [loopStart trace]. now rewrite <- !app_assoc.
    + split; [exact Hall|]. split; [exact Hlen|]. right. split; reflexivity.
Qed.

Lemma run_trace_shape_witness :
  exists store tail,
    trace (snd (Server.run enUS (failingStoreEnv (Some sampleComments))
                           (Some sampleUrl) []))
    = [EvList sampleVideo]
        ++ map EvSched
             (snd (Server.rateLimiter
                     (model (failingStoreEnv (Some sampleComments)))
                     sampleComments))
        ++ store ++ tail /\
    Forall (fun e => isStoreEvent e = true) store /\
    List.length (filter (fun e => match e with
                                  | EvFindOne _ => true
                                  | _ => false
                                  end) store)
    <= List.length sampleComments /\
    ((tail = [] /\
      map (fun c => EvFindOne (id c)) sampleComments
      = filter (fun e => match e with
                         | EvFindOne _ => true
                         | _ => false
                         end) store /\
      exists r, fst (Server.run enUS (failingStoreEnv (Some sampleComments))
                                (Some sampleUrl) [])
                = Ok (mkResponse 200 (ResultBody r))) \/
     (tail = [EvLogError] /\
      fst (Server.run enUS (failingStoreEnv (Some sampleComments))
                      (Some sampleUrl) [])
      = Ok (mkResponse 500 (ErrorBody "Failed to analyze comments")))).
Proof.
  apply (run_trace_shape enUS (failingStoreEnv (Some sampleComments)) sampleUrl
                         sampleVideo sampleComments []).
  - vm_compute. reflexivity.
  - reflexivity.
Defined.

(* ================================================================= *)
(** ** Every listed comment is counted *)

(** X26. A response with status 200 counts every comment of the list
    the comment source returned, once for each time the comment is
    listed, whether the comment was stored before or not: the result
    holds the percentages of three counts that add up to the length of
    the list, that length as [totalComments], and twelve month counts
    that add up to no more than it. When every month label of the
    default locale of the server is one of the twelve keys Jan to Dec,
    the month counts add up to the length of the list as well. *)
Theorem response_counts_every_comment :
  forall locale env url docs r w,
    Server.run locale env url docs = (Ok (mkResponse 200 (ResultBody r)), w) ->
    exists u video comments a d n counts,
      url = Some u /\ Server.extractVideoId u = Some video /\
      commentThreads env video = ListData (Some comments) /\
      a + d + n = List.length comments /\
      List.length counts = 12 /\
      list_sum counts <= List.length comments /\
      (canonical locale -> list_sum counts = List.length comments) /\
      r = mkAnalysisResult
            (mkSentimentAnalysis
               (percentage a (List.length comments))
               (percentage d (List.length comments))
               (percentage n (List.length comments)))
            (List.length comments)
            (combine months counts).
Proof.
  intros locale env url docs r w H.
  apply run_counters in H
    as (u & video & comments & acc & -> & Hid & Hitems & -> & Ht & Hb & Hc).
  assert (Hv : map snd (sortMonths (snd acc))
               = map (monthCount (snd acc)) months)
    by (rewrite sortMonths_counts, map_map; reflexivity).
  unfold bounded in Hb. rewrite Hv, Ht in Hb.
  exists u, video, comments, (agreeCount (fst acc)),
    (disagreeCount (fst acc)), (neutralCount (fst acc)),
    (map (monthCount (snd acc)) months).
  split; [reflexivity|]. split; [exact Hid|]. split; [exact Hitems|].
  split; [rewrite <- Ht; apply totalOf_sum|].
  split; [reflexivity|]. split; [exact Hb|]. split.
  - intros Hloc. destruct (Hc Hloc) as (counts & Hs & Hlen & Hsum).
    rewrite <- Hv, Hs, (sortMonths_monthly counts Hlen).
    destruct (combine_months counts Hlen) as [_ Hv']. rewrite Hv'. lia.
  - unfold Server.resultOf. rewrite Ht. reflexivity.
Qed.

Lemma response_counts_every_comment_witness :
  canonical enUS /\
  exists u video comments a d n counts,
    Some sampleUrl = Some u /\ Server.extractVideoId u = Some video /\
    commentThreads (offlineEnv (Some sampleComments)) video
    = ListData (Some comments) /\
    a + d + n = List.length comments /\
    List.length counts = 12 /\
    list_sum counts <= List.length comments /\
    (canonical enUS -> list_sum counts = List.length comments) /\
    mixedResult
    = mkAnalysisResult
        (mkSentimentAnalysis
           (percentage a (List.length comments))
           (percentage d (List.length comments))
           (percentage n (List.length comments)))
        (List.length comments)
        (combine months counts).
Proof.
  split; [exact enUS_canonical|].
  apply (response_counts_every_comment enUS
           (offlineEnv (Some sampleComments)) (Some sampleUrl) []
           mixedResult
           (snd (Server.run enUS (offlineEnv (Some sampleComments))
                            (Some sampleUrl) []))).
  vm_compute. reflexivity.
Defined.

(* ================================================================= *)
(** ** A word inside a word *)

Lemma includes_dislike text :
  JsString.includes text "dislike" = true ->
  JsString.includes text "like" = true.
Proof.
  intros H. apply JsStringFacts.includes_occurs in H.
  apply JsStringFacts.includes_occurs.
  destruct H as (a & b & ->). exists (a ++ "dis")%string, b.
  rewrite JsStringFacts.append_assoc. reflexivity.
Qed.

Lemma count_hit (f : string -> bool) l1 x l2 :
  f x = true ->
  List.length (filter f (l1 ++ x :: l2))
  = S (List.length (filter f (l1 ++ l2))).
Proof.
  intros H. rewrite !filter_app. cbn [filter]. rewrite H.
  rewrite !length_app. cbn [List.length]. lia.
Qed.

(** X27. The negative word "dislike" never tips the balance of the
    fallback classifier: a text that holds it holds the positive word
    "like" as well, so the two cancel and the text is classified as it
    would be with neither word on the lists. A comment that says
    "I dislike this" is neutral. *)
Theorem dislike_is_cancelled :
  (forall text,
      JsString.includes (JsString.toLowerCase text) "dislike" = true ->
      Server.fallbackSentimentAnalysis text
      = keywordSentiment ["good"; "great"; "awesome"; "love"]%string
                         ["bad"; "terrible"; "hate"; "awful"]%string text /\
      BatchServer.fallbackSentimentAnalysis text
      = keywordSentiment
          ["good"; "great"; "awesome"; "love"; "cool"; "nice"; "amazing";
           "fantastic"; "excellent"; "best"; "beautiful"; "wonderful";
           "perfect"]%string
          ["bad"; "terrible"; "hate"; "awful"; "gross"; "cringe";
           "disgusting"; "horrible"; "worst"; "sucks"; "stupid";
           "trash"]%string text) /\
  Server.fallbackSentimentAnalysis "I dislike this" = neutral /\
  BatchServer.fallbackSentimentAnalysis "I dislike this" = neutral.
Proof.
  split; [|split; vm_compute; reflexivity].
  intros text Hd. pose proof (includes_dislike _ Hd) as Hl.
  unfold Server.fallbackSentimentAnalysis,
    BatchServer.fallbackSentimentAnalysis, keywordSentiment.
  cbv zeta.
  set (f := fun word => JsString.includes (JsString.toLowerCase text) word).
  change (f "dislike"%string = true) in Hd.
  change (f "like"%string = true) in Hl.
  split.
  - rewrite (count_hit f ["good"; "great"; "awesome"; "love"]%string
                       "like" [] Hl : List.length (filter f Server.positiveWords) = _).
    rewrite (count_hit f ["bad"; "terrible"; "hate"]%string
                       "dislike" ["awful"]%string Hd
             : List.length (filter f Server.negativeWords) = _).
    reflexivity.
  - rewrite (count_hit f ["good"; "great"; "awesome"; "love"]%string
                       "like"
                       ["cool"; "nice"; "amazing"; "fantastic"; "excellent";
                        "best"; "beautiful"; "wonderful"; "perfect"]%string
                       Hl
             : List.length (filter f BatchServer.positiveWords) = _).
    rewrite (count_hit f ["bad"; "terrible"; "hate"]%string
                       "dislike"
                       ["awful"; "gross"; "cringe"; "disgusting"; "horrible";
                        "worst"; "sucks"; "stupid"; "trash"]%string
                       Hd
             : List.length (filter f BatchServer.negativeWords) = _).
    reflexivity.
Qed.
